(** * CyberSapiens.py: the media-fetch engine, embedded and verified

    A shallow embedding of the core functions of [CyberSapiens.py] (URL
    classification, video-id extraction, metadata defaults, view-count
    and duration formatting, the set-up of the download folders and the
    two progress-reporting download strategies), followed by the
    properties the specification states about them and by further
    properties that the code shows.

    Conventions of the embedding:
    - a Python [str] is a Rocq [string] (the bytes of its UTF-8 encoding);
      every pattern the program searches for is ASCII, so searching,
      splitting and suffix tests on the bytes agree with Python's on the
      code points;
    - a Python [dict] with string keys is a [gmap string _];
    - a Python [float] is a binary64 value, [Finite s m e] standing for
      [m * 2^e] with the sign [s]; [int / int] is Python's correctly
      rounded true division;
    - a raised exception is the [Err] case of [result]; only instances of
      [Exception] are modelled (what [except Exception] catches);
    - the library functions follow CPython 3.12 with its default settings
      ([urllib.parse], the limit of 4300 digits on conversions between
      [int] and [str]) and [os.path] is [posixpath];
    - the file system is a map from absolute paths to directories and
      regular files, which the process may write everywhere. *)

From Stdlib Require Import ZArith QArith Qpower Lia.
From Stdlib.Strings Require Import Ascii String Byte.
From Stdlib Require Import DecimalString DecimalPos.
From stdpp Require Import base option list gmap strings.

Local Open Scope string_scope.
Local Open Scope Z_scope.

(** ** Exceptions and fallible computations *)

Module Py.

(** The exception classes the program and its collaborators raise. *)
Inductive exn_class :=
| ValueError | KeyError | IndexError | TypeError | ZeroDivisionError
| OverflowError | OSError | HTTPError | BackendError.

(** An exception instance: its class and [str(e)]. *)
Record exn := Exn { exn_cls : exn_class; exn_msg : string }.

Inductive result (A : Type) :=
| Ok (a : A)
| Err (e : exn).
Arguments Ok {A} a.
Arguments Err {A} e.

Definition bind {A B} (r : result A) (k : A -> result B) : result B :=
  match r with
  | Ok a => k a
  | Err e => Err e
  end.

End Py.
Export Py.

Declare Scope py_scope.
Delimit Scope py_scope with py.
Notation "'let!' x ':=' r 'in' k" := (Py.bind r (fun x => k))
  (at level 10, x name, r at level 100, k at level 200) : py_scope.
Local Open Scope py_scope.

(** ** Python strings *)

Module Str.

Definition eqb_ascii (a b : ascii) : bool := Ascii.eqb a b.

(** [s.startswith(p)] *)
Fixpoint startswith (p s : string) : bool :=
  match p, s with
  | EmptyString, _ => true
  | String a p', String b s' => eqb_ascii a b && startswith p' s'
  | String _ _, EmptyString => false
  end.

(** [p in s]: [p] occurs as a substring of [s]. *)
Fixpoint contains (p s : string) : bool :=
  startswith p s ||
  match s with
  | EmptyString => false
  | String _ s' => contains p s'
  end.

(** [c in s] for a single character. *)
Fixpoint has_char (c : ascii) (s : string) : bool :=
  match s with
  | EmptyString => false
  | String a s' => eqb_ascii a c || has_char c s'
  end.

(** [s.endswith(p)]: [p] is [s] or a suffix of the tail of [s]. *)
Fixpoint endswith (p s : string) : bool :=
  String.eqb p s ||
  match s with
  | EmptyString => false
  | String _ s' => endswith p s'
  end.

(** [s.split(c)] for a one-character separator: never the empty list. *)
Fixpoint split (c : ascii) (s : string) : list string :=
  match s with
  | EmptyString => [EmptyString]
  | String a s' =>
      if eqb_ascii a c then EmptyString :: split c s'
      else match split c s' with
           | [] => [String a EmptyString]
           | w :: ws => String a w :: ws
           end
  end.

(** [l[-1]] on a list known to be non-empty (the default is never
    reached). *)
Definition last_item (l : list string) : string := List.last l EmptyString.

(** [s.partition(c)]: the text before the first [c], whether [c] was
    found, and the text after it. *)
Fixpoint partition (c : ascii) (s : string) : string * bool * string :=
  match s with
  | EmptyString => (EmptyString, false, EmptyString)
  | String a s' =>
      if eqb_ascii a c then (EmptyString, true, s')
      else let '(h, f, t) := partition c s' in (String a h, f, t)
  end.

(** [s.rpartition(c)[2]]: the text after the last [c], or all of [s]. *)
Definition after_last (c : ascii) (s : string) : string :=
  last_item (split c s).

(** [s.lower()]: ASCII capitals become small letters. Of the characters
    outside ASCII, which stay as they are here, Python maps none to ASCII
    text but the Kelvin sign (to [k]) and the dotted capital I (to [i]
    and a combining dot); neither can complete an extension the program
    looks for. *)
Definition lower_ascii (a : ascii) : ascii :=
  let n := nat_of_ascii a in
  if (65 <=? n)%nat && (n <=? 90)%nat then ascii_of_nat (n + 32) else a.

Fixpoint lower (s : string) : string :=
  match s with
  | EmptyString => EmptyString
  | String a s' => String (lower_ascii a) (lower s')
  end.

(** [s.replace(c, "")] *)
Fixpoint remove_char (c : ascii) (s : string) : string :=
  match s with
  | EmptyString => EmptyString
  | String a s' =>
      if eqb_ascii a c then remove_char c s' else String a (remove_char c s')
  end.

(** [s.replace(c, d)] for single characters. *)
Fixpoint replace_char (c d : ascii) (s : string) : string :=
  match s with
  | EmptyString => EmptyString
  | String a s' =>
      String (if eqb_ascii a c then d else a) (replace_char c d s')
  end.

(** [s.lstrip(chars)] where [chars] is given as a predicate. *)
Fixpoint lstrip (P : ascii -> bool) (s : string) : string :=
  match s with
  | EmptyString => EmptyString
  | String a s' => if P a then lstrip P s' else s
  end.

Definition is_empty (s : string) : bool :=
  match s with EmptyString => true | _ => false end.

Fixpoint forallb (P : ascii -> bool) (s : string) : bool :=
  match s with
  | EmptyString => true
  | String a s' => P a && forallb P s'
  end.

Definition is_ascii_char (a : ascii) : bool := (nat_of_ascii a <? 128)%nat.

End Str.

(** ** Python numbers: [int] as [Z], [float] as binary64 *)

Module Float.

Inductive float :=
| Finite (negative : bool) (m e : Z)   (* [m * 2^e], [0 <= m], with its sign *)
| Inf (negative : bool)
| NaN.

(** Round-half-to-even of the rational [n / d], for [0 < d]. *)
Definition rne (n d : Z) : Z :=
  let q := n / d in
  let r := n mod d in
  if 2 * r <? d then q
  else if d <? 2 * r then q + 1
  else if Z.even q then q else q + 1.

(** [floor (log2 (n / d))] for positive [n] and [d]. *)
Definition flog2 (n d : Z) : Z :=
  let e0 := Z.log2 n - Z.log2 d in
  if n * 2 ^ Z.max 0 (- e0) <? d * 2 ^ Z.max 0 e0 then e0 - 1 else e0.

(** The exponent of the unit in the last place of the binary64 numbers
    around [n / d]: 53 bits of precision, subnormals from [2^-1074]. *)
Definition ulp_exp (n d : Z) : Z := Z.max (flog2 n d - 52) (-1074).

(** The positive rational [n / d] rounded to the nearest multiple of its
    unit in the last place, as mantissa and exponent. *)
Definition round_pos (n d : Z) : Z * Z :=
  let u := ulp_exp n d in
  let m := rne (n * 2 ^ Z.max 0 (- u)) (d * 2 ^ Z.max 0 u) in
  if m =? 2 ^ 53 then (2 ^ 52, u + 1)
  else if m =? 0 then (0, 0)
  else (m, u).

(** A mantissa and exponent beyond the largest binary64 number. *)
Definition too_large (me : Z * Z) : bool := 971 <? snd me.

(** The rational [n / d], [0 <= n] and [0 < d], rounded to binary64;
    [None] when the rounded value exceeds the binary64 range. *)
Definition round_magnitude (n d : Z) : option (Z * Z) :=
  if n =? 0 then Some (0, 0)
  else
    let me := round_pos n d in
    if too_large me then None else Some me.

(** The rational [n / d], [d <> 0], rounded to binary64. *)
Definition round_ratio (n d : Z) : option float :=
  match round_magnitude (Z.abs n) (Z.abs d) with
  | Some (m, e) => Some (Finite (xorb (n <? 0) (d <? 0)) m e)
  | None => None
  end.

(** The exact value of a finite float. *)
Definition dyadic (m e : Z) : Q := inject_Z m * 2 ^ e.

Definition finite_value (negative : bool) (m e : Z) : Q :=
  if negative then - dyadic m e else dyadic m e.

End Float.
Export Float.

(** ** Python values *)

Module Value.

(** The scalar values that travel through the program's dictionaries. *)
Inductive pyval :=
| PNone
| PBool (b : bool)
| PInt (z : Z)
| PFloat (f : float)
| PStr (s : string).

Definition raise {A} (c : exn_class) (msg : string) : result A :=
  Err (Exn c msg).

(** The decimal digits of an integer, after its sign. *)
Definition digits (n : Z) : string := NilZero.string_of_int (Z.to_int n).

(** CPython's default limit on the number of decimal digits of an [int]
    that is converted to or from a string. *)
Definition max_str_digits : Z := 4300.

(** [str(n)] for an [int]. *)
Definition str_int (n : Z) : result string :=
  if 10 ^ max_str_digits <=? Z.abs n then
    raise ValueError
      ("Exceeds the limit (4300 digits) for integer string conversion; "
       +:+ "use sys.set_int_max_str_digits() to increase the limit")
  else Ok (digits n).

(** [a / b] on two [int]s: the correctly rounded quotient. *)
Definition int_truediv (a b : Z) : result float :=
  if b =? 0 then raise ZeroDivisionError "division by zero"
  else match round_ratio a b with
       | Some f => Ok f
       | None =>
           raise OverflowError "integer division result too large for a float"
       end.

(** [float(a)] for an [int]. *)
Definition int_to_float (a : Z) : result float :=
  match round_ratio a 1 with
  | Some f => Ok f
  | None => raise OverflowError "int too large to convert to float"
  end.

(** [x / y] on two [float]s: IEEE division, except that Python raises on a
    zero divisor. *)
Definition float_truediv (x y : float) : result float :=
  match x, y with
  | _, Finite _ 0 _ => raise ZeroDivisionError "float division by zero"
  | NaN, _ | _, NaN => Ok NaN
  | Inf _, Inf _ => Ok NaN
  | Inf s1, Finite s2 _ _ => Ok (Inf (xorb s1 s2))
  | Finite s1 _ _, Inf s2 => Ok (Finite (xorb s1 s2) 0 0)
  | Finite s1 m1 e1, Finite s2 m2 e2 =>
      let n := m1 * 2 ^ Z.max 0 e1 * 2 ^ Z.max 0 (- e2) in
      let d := m2 * 2 ^ Z.max 0 e2 * 2 ^ Z.max 0 (- e1) in
      match round_magnitude n d with
      | Some (m, e) => Ok (Finite (xorb s1 s2) m e)
      | None => Ok (Inf (xorb s1 s2))
      end
  end.

(** The operand of an arithmetic operator: [bool] is a subclass of [int]. *)
Inductive number :=
| NInt (z : Z)
| NFloat (f : float).

Definition as_number (v : pyval) : option number :=
  match v with
  | PBool b => Some (NInt (if b then 1 else 0))
  | PInt z => Some (NInt z)
  | PFloat f => Some (NFloat f)
  | PNone | PStr _ => None
  end.

Definition to_float (n : number) : result float :=
  match n with
  | NInt z => int_to_float z
  | NFloat f => Ok f
  end.

(** [type(v).__name__] *)
Definition type_name (v : pyval) : string :=
  match v with
  | PNone => "NoneType"
  | PBool _ => "bool"
  | PInt _ => "int"
  | PFloat _ => "float"
  | PStr _ => "str"
  end.

(** [x / y] *)
Definition py_truediv (x y : pyval) : result pyval :=
  match as_number x, as_number y with
  | Some (NInt a), Some (NInt b) =>
      let! f := int_truediv a b in Ok (PFloat f)
  | Some nx, Some ny =>
      let! fx := to_float nx in
      let! fy := to_float ny in
      let! f := float_truediv fx fy in Ok (PFloat f)
  | _, _ =>
      raise TypeError
        ("unsupported operand type(s) for /: '" +:+ type_name x
         +:+ "' and '" +:+ type_name y +:+ "'")
  end.

(** [v == s] against a string literal. *)
Definition eq_str (v : pyval) (s : string) : bool :=
  match v with
  | PStr t => String.eqb t s
  | _ => false
  end.

(** [d[k]] *)
Definition getitem (d : gmap string pyval) (k : string) : result pyval :=
  match d !! k with
  | Some v => Ok v
  | None => raise KeyError ("'" +:+ k +:+ "'")
  end.

(** [k in d] *)
Definition has_key (d : gmap string pyval) (k : string) : bool :=
  bool_decide (is_Some (d !! k)).

(** [d.get(k, dflt)] *)
Definition dict_get (d : gmap string pyval) (k : string) (dflt : pyval)
  : pyval :=
  default dflt (d !! k).

(** [format(x, ".1f")]: the exact value of [x] rounded half-to-even to one
    decimal. *)
Definition format_1f (x : float) : string :=
  match x with
  | Finite negative m e =>
      let t := rne (10 * m * 2 ^ Z.max 0 e) (2 ^ Z.max 0 (- e)) in
      let body := digits (t / 10) +:+ "." +:+ digits (t mod 10) in
      if negative then "-" +:+ body else body
  | Inf false => "inf"
  | Inf true => "-inf"
  | NaN => "nan"
  end.

(** The exact value of a number, when it is finite. *)
Definition to_Q (v : pyval) : option Q :=
  match v with
  | PBool b => Some (if b then 1%Q else 0%Q)
  | PInt z => Some (inject_Z z)
  | PFloat (Finite negative m e) => Some (finite_value negative m e)
  | _ => None
  end.

(** [x <= y] between finite numbers. *)
Definition py_le (x y : pyval) : Prop :=
  match to_Q x, to_Q y with
  | Some p, Some q => (p <= q)%Q
  | _, _ => False
  end.

(** The float [1.0]. *)
Definition float_one : float := Finite false (2 ^ 52) (-52).

End Value.
Export Value.

(** ** Floor division and remainder of floats *)

Module FloatArith.

(** A mantissa with its sign. *)
Definition signed (negative : bool) (m : Z) : Z := if negative then - m else m.

(** The number [n * 2^c] rounded to binary64; a zero takes the sign
    [zero_negative]. *)
Definition of_scaled (zero_negative : bool) (n c : Z) : float :=
  if n =? 0 then Finite zero_negative 0 0
  else match round_magnitude (Z.abs n * 2 ^ Z.max 0 c) (2 ^ Z.max 0 (- c)) with
       | Some (m, e) => Finite (n <? 0) m e
       | None => Inf (n <? 0)
       end.

(** [x == 0.0] *)
Definition float_is_zero (x : float) : bool :=
  match x with
  | Finite _ m _ => m =? 0
  | _ => false
  end.

(** [x < y] *)
Definition float_lt (x y : float) : bool :=
  match x, y with
  | NaN, _ | _, NaN => false
  | Inf s1, Inf s2 => s1 && negb s2
  | Inf s, Finite _ _ _ => s
  | Finite _ _ _, Inf s => negb s
  | Finite s1 m1 e1, Finite s2 m2 e2 =>
      let c := Z.min e1 e2 in
      signed s1 m1 * 2 ^ (e1 - c) <? signed s2 m2 * 2 ^ (e2 - c)
  end.

Definition float_neg (x : float) : float :=
  match x with
  | Finite s m e => Finite (negb s) m e
  | Inf s => Inf (negb s)
  | NaN => NaN
  end.

(** [x + y], correctly rounded. *)
Definition float_add (x y : float) : float :=
  match x, y with
  | NaN, _ | _, NaN => NaN
  | Inf s1, Inf s2 => if Bool.eqb s1 s2 then Inf s1 else NaN
  | Inf s, Finite _ _ _ | Finite _ _ _, Inf s => Inf s
  | Finite s1 m1 e1, Finite s2 m2 e2 =>
      let c := Z.min e1 e2 in
      of_scaled (s1 && s2)
        (signed s1 m1 * 2 ^ (e1 - c) + signed s2 m2 * 2 ^ (e2 - c)) c
  end.

Definition float_sub (x y : float) : float := float_add x (float_neg y).

(** C's [fmod(x, y)] for [y] other than zero: the remainder of the
    division truncated towards zero, which is exact and has the sign of
    [x]. *)
Definition fmod (x y : float) : float :=
  match x, y with
  | NaN, _ | _, NaN | Inf _, _ => NaN
  | Finite _ _ _, Inf _ => x
  | Finite s1 m1 e1, Finite s2 m2 e2 =>
      let c := Z.min e1 e2 in
      of_scaled s1 (Z.rem (signed s1 m1 * 2 ^ (e1 - c)) (m2 * 2 ^ (e2 - c))) c
  end.

(** C's [floor(x)] *)
Definition floor (x : float) : float :=
  match x with
  | Finite s m e =>
      if 0 <=? e then x else of_scaled s (signed s m / 2 ^ (- e)) 0
  | _ => x
  end.

(** [copysign(0.0, x)] *)
Definition zero_like (x : float) : float :=
  match x with
  | Finite s _ _ | Inf s => Finite s 0 0
  | NaN => Finite false 0 0
  end.

Definition float_half : float := Finite false (2 ^ 52) (-53).
Definition float_zero : float := Finite false 0 0.

(** [_float_div_mod(vx, wx)] of CPython, for [wx] other than zero: the
    floor of the quotient and the remainder, which has the sign of
    [wx]. *)
Definition float_div_mod (vx wx : float) : result (float * float) :=
  let mod_ := fmod vx wx in
  let! div := float_truediv (float_sub vx mod_) wx in
  let '(mod_, div) :=
    if negb (float_is_zero mod_) then
      if negb (Bool.eqb (float_lt wx float_zero) (float_lt mod_ float_zero))
      then (float_add mod_ wx, float_sub div float_one)
      else (mod_, div)
    else (zero_like wx, div) in
  let! floordiv :=
    if negb (float_is_zero div) then
      let floordiv := floor div in
      if float_lt float_half (float_sub div floordiv)
      then Ok (float_add floordiv float_one)
      else Ok floordiv
    else
      let! q := float_truediv vx wx in Ok (zero_like q) in
  Ok (floordiv, mod_).

(** [float_rem(vx, wx)] of CPython, for [wx] other than zero. *)
Definition float_rem (vx wx : float) : float :=
  let mod_ := fmod vx wx in
  if negb (float_is_zero mod_) then
    if negb (Bool.eqb (float_lt wx float_zero) (float_lt mod_ float_zero))
    then float_add mod_ wx else mod_
  else zero_like wx.

End FloatArith.
Export FloatArith.

(** ** The library functions the program calls *)

(** Parts of the Python runtime that are tables rather than algorithms
    (Unicode normalisation, IP address syntax, UTF-8 decoding with
    replacement, the [repr] of floats and strings). The program is
    verified for every behaviour of these. *)
Class Platform := {
  (** [_check_bracketed_host]: [None] when the text between square
      brackets is an IPv6 or IPvFuture address, the message of the
      [ValueError] otherwise. *)
  bracketed_host_error : string -> option string;
  (** [_checknetloc] on a network location with non-ASCII characters. *)
  nfkc_netloc_ok : string -> bool;
  (** [bytes.decode("utf-8", "replace")] *)
  decode_utf8_replace : string -> string;
  (** [repr(x)] for a [float]. *)
  float_repr : float -> string;
  (** [repr(s)] for a [str]. *)
  str_repr : string -> string;
  (** [int(s)] on a string with non-ASCII characters (Unicode digits and
      spaces); [None] when it is no integer literal. *)
  int_of_unicode : string -> option Z;
}.

Module Urllib.
Section Urllib.
Context `{Platform}.

Record ParseResult := {
  scheme : string;
  netloc : string;
  path : string;
  params : string;
  query : string;
  fragment : string;
}.

Definition is_c0_or_space (a : ascii) : bool := (nat_of_ascii a <=? 32)%nat.

Definition is_alpha (a : ascii) : bool :=
  let n := nat_of_ascii a in
  ((65 <=? n) && (n <=? 90) || (97 <=? n) && (n <=? 122))%nat.

Definition is_digit (a : ascii) : bool :=
  let n := nat_of_ascii a in ((48 <=? n) && (n <=? 57))%nat.

(** [scheme_chars]: letters, digits and [+-.] *)
Definition is_scheme_char (a : ascii) : bool :=
  is_alpha a || is_digit a || Str.has_char a "+-.".

(** The text up to the first character satisfying [P], and the rest. *)
Fixpoint span_until (P : ascii -> bool) (s : string) : string * string :=
  match s with
  | EmptyString => (EmptyString, EmptyString)
  | String a s' =>
      if P a then (EmptyString, s)
      else let '(h, t) := span_until P s' in (String a h, t)
  end.

(** The scheme of a URL and what follows its colon. *)
Definition split_scheme (url : string) : string * string :=
  let '(h, found, t) := Str.partition ":" url in
  match h with
  | String a _ =>
      if found && Str.is_ascii_char a && is_alpha a
         && Str.forallb is_scheme_char h
      then (Str.lower h, t)
      else (EmptyString, url)
  | EmptyString => (EmptyString, url)
  end.

(** [_check_bracketed_host] *)
Definition check_bracketed_host (hostname : string) : result unit :=
  match bracketed_host_error hostname with
  | None => Ok tt
  | Some msg => raise ValueError msg
  end.

(** [_check_bracketed_netloc] *)
Definition check_bracketed_netloc (netloc : string) : result unit :=
  let hostname_and_port := Str.after_last "@" netloc in
  let '(before_bracket, have_open_br, bracketed) :=
    Str.partition "[" hostname_and_port in
  if have_open_br then
    if negb (Str.is_empty before_bracket) then
      raise ValueError "Invalid IPv6 URL"
    else
      let '(hostname, _, port) := Str.partition "]" bracketed in
      if negb (Str.is_empty port) && negb (Str.startswith ":" port) then
        raise ValueError "Invalid IPv6 URL"
      else check_bracketed_host hostname
  else
    let '(hostname, _, _) := Str.partition ":" hostname_and_port in
    check_bracketed_host hostname.

(** [_checknetloc] *)
Definition checknetloc (netloc : string) : result unit :=
  if Str.is_empty netloc || Str.forallb Str.is_ascii_char netloc then Ok tt
  else if nfkc_netloc_ok netloc then Ok tt
  else raise ValueError
         ("netloc '" +:+ netloc
          +:+ "' contains invalid characters under NFKC normalization").

(** The network location of a URL that starts with two slashes. *)
Definition split_netloc (url : string) : result (string * string) :=
  match url with
  | String "/" (String "/" rest) =>
      let '(nl, url') := span_until (fun a => Str.has_char a "/?#") rest in
      let open_br := Str.has_char "[" nl in
      let close_br := Str.has_char "]" nl in
      if xorb open_br close_br then raise ValueError "Invalid IPv6 URL"
      else if open_br && close_br then
        let! _ := check_bracketed_netloc nl in Ok (nl, url')
      else Ok (nl, url')
  | _ => Ok (EmptyString, url)
  end.

(** [urlsplit(url)] without the parameter split: scheme, network location,
    path, query and fragment. *)
Definition urlsplit (url : string)
  : result (string * string * string * string * string) :=
  let url := Str.lstrip is_c0_or_space url in
  let url := Str.remove_char "010" (Str.remove_char "013"
               (Str.remove_char "009" url)) in
  let '(sch, url) := split_scheme url in
  let! nu := split_netloc url in
  let '(nl, url) := nu in
  let '(url, _, frag) := Str.partition "#" url in
  let '(url, _, qry) := Str.partition "?" url in
  let! _ := checknetloc nl in
  Ok (sch, nl, url, qry, frag).

Definition uses_params : list string :=
  [""; "ftp"; "hdl"; "prospero"; "http"; "imap"; "https"; "shttp"; "rtsp";
   "rtspu"; "sip"; "sips"; "mms"; "sftp"; "tel"].

(** [_splitparams]: the parameters of the last path segment. *)
Definition splitparams (url : string) : string * string :=
  if Str.has_char "/" url then
    let last := Str.after_last "/" url in
    let head :=
      String.substring 0 (String.length url - String.length last) url in
    let '(h, found, t) := Str.partition ";" last in
    if found then (head +:+ h, t) else (url, EmptyString)
  else
    let '(h, _, t) := Str.partition ";" url in (h, t).

(** [urlparse(url)] *)
Definition urlparse (url : string) : result ParseResult :=
  let! parts := urlsplit url in
  let '(sch, nl, url, qry, frag) := parts in
  let '(url, prm) :=
    if bool_decide (sch ∈ uses_params) && Str.has_char ";" url
    then splitparams url else (url, EmptyString) in
  Ok {| scheme := sch; netloc := nl; path := url; params := prm;
        query := qry; fragment := frag |}.

(** The value of a hexadecimal digit. *)
Definition hex_digit (a : ascii) : option N :=
  let n := N_of_ascii a in
  if ((48 <=? n) && (n <=? 57))%N then Some (n - 48)%N
  else if ((65 <=? n) && (n <=? 70))%N then Some (n - 55)%N
  else if ((97 <=? n) && (n <=? 102))%N then Some (n - 87)%N
  else None.

(** [unquote_to_bytes]: each [%XX] becomes the byte [XX]; a [%] that is
    not followed by two hexadecimal digits stays. *)
Fixpoint percent_decode (s : string) : string :=
  match s with
  | String "%" (String a (String b rest) as tail) =>
      match hex_digit a, hex_digit b with
      | Some x, Some y =>
          String (ascii_of_N (16 * x + y)) (percent_decode rest)
      | _, _ => String "%" (percent_decode tail)
      end
  | String c rest => String c (percent_decode rest)
  | EmptyString => EmptyString
  end.

(** The maximal runs of ASCII and of non-ASCII characters of a string,
    each with a flag telling whether it is ASCII. *)
Fixpoint ascii_runs (s : string) : list (bool * string) :=
  match s with
  | EmptyString => []
  | String a s' =>
      let k := Str.is_ascii_char a in
      match ascii_runs s' with
      | (k', r) :: rs =>
          if Bool.eqb k k' then (k, String a r) :: rs
          else (k, String a EmptyString) :: (k', r) :: rs
      | [] => [(k, String a EmptyString)]
      end
  end.

(** [unquote(s)] with the default encoding and error handling. *)
Definition unquote (s : string) : string :=
  if negb (Str.has_char "%" s) then s
  else
    String.concat EmptyString
      (List.map (fun kr : bool * string =>
                   if fst kr then decode_utf8_replace (percent_decode (snd kr))
                   else snd kr)
                (ascii_runs s)).

(** One field of a query string, as [parse_qsl] reads it with its default
    arguments: a field without [=] or with an empty value is dropped. *)
Definition parse_field (name_value : string) : option (string * string) :=
  let '(name, found, value) := Str.partition "=" name_value in
  if found && negb (Str.is_empty value) then
    Some (unquote (Str.replace_char "+" " " name),
          unquote (Str.replace_char "+" " " value))
  else None.

(** [parse_qsl(qs)] *)
Definition parse_qsl (qs : string) : list (string * string) :=
  if Str.is_empty qs then []
  else omap parse_field (Str.split "&" qs).

(** [parse_qs(qs)]: the values of each name, in order of appearance. *)
Definition parse_qs (qs : string) : gmap string (list string) :=
  List.fold_left
    (fun (m : gmap string (list string)) (nv : string * string) =>
       match m !! fst nv with
       | Some vs => <[fst nv := (vs ++ [snd nv])%list]> m
       | None => <[fst nv := [snd nv]]> m
       end)
    (parse_qsl qs) ∅.

(** [os.path.basename(p)] *)
Definition basename (p : string) : string := Str.after_last "/" p.

(** [os.path.join(a, b)] *)
Definition path_join (a b : string) : string :=
  if Str.startswith "/" b then b
  else if Str.is_empty a || Str.endswith "/" a then a +:+ b
  else a +:+ "/" +:+ b.

End Urllib.
End Urllib.

(** ** The program state and its effects *)

Module Effects.

(** What an observer of the running program sees, in order. *)
Inductive event :=
| SetProgress (v : pyval)       (* [st.session_state.progress] is assigned *)
| StError (msg : string)        (* [st.error(msg)] *)
| FileOpen (name : string)      (* [open(name, "wb")] *)
| FileWrite (name : string) (data : list byte).     (* [f.write(data)] *)

Record state := {
  session_state : gmap string pyval;
  files : gmap string (list byte);
  trace : list event;
}.

(** A computation that reads and updates the state and may raise; the
    state reached when the exception is raised is kept. *)
Definition M (A : Type) : Type := state -> result A * state.

Definition ret {A} (a : A) : M A := fun s => (Ok a, s).

Definition bindM {A B} (m : M A) (k : A -> M B) : M B :=
  fun s =>
    match m s with
    | (Ok a, s') => k a s'
    | (Err e, s') => (Err e, s')
    end.

Definition lift {A} (r : result A) : M A := fun s => (r, s).

(** [try: m except Exception as e: h e] *)
Definition try_except {A} (m : M A) (h : exn -> M A) : M A :=
  fun s =>
    match m s with
    | (Ok a, s') => (Ok a, s')
    | (Err e, s') => h e s'
    end.

Definition emit (ev : event) (s : state) : state :=
  {| session_state := session_state s; files := files s;
     trace := trace s ++ [ev] |}.

(** [st.session_state.progress = v] and
    [st.session_state.update(progress=v)] *)
Definition set_progress (v : pyval) : M unit :=
  fun s =>
    (Ok tt,
     emit (SetProgress v)
       {| session_state := <["progress" := v]> (session_state s);
          files := files s; trace := trace s |}).

(** [st.error(msg)] *)
Definition st_error (msg : string) : M unit :=
  fun s => (Ok tt, emit (StError msg) s).

(** [f.write(data)] on the file opened under [name]. *)
Definition file_write (name : string) (data : list byte) : M unit :=
  fun s =>
    (Ok tt,
     emit (FileWrite name data)
       {| session_state := session_state s;
          files :=
            <[name := (default [] (files s !! name) ++ data)%list]> (files s);
          trace := trace s |}).

(** The progress values assigned along a trace, oldest first. *)
Definition progress_values (t : list event) : list pyval :=
  omap (fun ev => match ev with SetProgress v => Some v | _ => None end) t.

End Effects.
Export Effects.

Declare Scope io_scope.
Delimit Scope io_scope with io.
Notation "'do!' x ':=' m 'in' k" := (Effects.bindM m (fun x => k))
  (at level 10, x name, m at level 100, k at level 200) : io_scope.
Notation "m1 ';;' m2" := (Effects.bindM m1 (fun _ => m2))
  (at level 100, m2 at level 200, right associativity) : io_scope.

(** ** External collaborators *)

Module World.

(** What one call of [ydl.extract_info] does: the dictionaries it passes
    to the progress hooks, in order, and then the information dictionary
    it returns or the exception it raises. *)
Record backend_run := {
  hook_calls : list (gmap string pyval);
  outcome : result (gmap string pyval);
}.

(** An HTTP response as [requests] presents it; header names are in lower
    case, as the case-insensitive [response.headers] finds them. The body
    is a stream that is read while the program runs: [content] holds the
    bytes that the stream hands over, and [stream_error] the exception
    that breaks it after them (a connection that is lost, a transfer that
    ends before the announced length), [None] when the stream ends
    well. *)
Record response := {
  status_code : Z;
  reason : string;
  final_url : string;
  headers : gmap string string;
  content : list byte;
  stream_error : option exn;
}.

Record world := {
  (** [ydl.extract_info(url, download=...)] *)
  extract_info : string -> bool -> backend_run;
  (** [requests.get(url, ...)] *)
  requests_get : string -> result response;
  (** [int(time.time())] *)
  unix_time : Z;
  (** whether [open(name, "wb")] succeeds *)
  open_wb : string -> result unit;
}.

End World.
Export World.

(** ** The file system under the home directory *)

Module Fs.

(** An absolute path, as [pathlib] holds it: its components below the
    root. *)
Abbreviation Path := (list string) (only parsing).

Inductive node := Dir | File.

(** The directories and regular files that exist; the root always does. *)
Abbreviation fs := (gmap (list string) node) (only parsing).

Section Fs.
Context `{Platform}.

(** What there is at [p]. *)
Definition node_at (t : fs) (p : Path) : option node :=
  match p with
  | [] => Some Dir
  | _ => t !! p
  end.

(** The ways [mkdir(2)] fails in a file system of plain directories and
    files that the process may write everywhere. *)
Inductive errno := ENOENT | ENOTDIR | EEXIST.

(** Path resolution: every component that is followed by another one must
    be a directory. [prefix] has been resolved, [rest] is to come. *)
Fixpoint walk (t : fs) (prefix rest : Path) : option errno :=
  match rest with
  | [] => None
  | c :: rest' =>
      match node_at t prefix with
      | Some Dir => walk t (prefix ++ [c])%list rest'
      | Some File => Some ENOTDIR
      | None => Some ENOENT
      end
  end.

(** [os.mkdir(p)] *)
Definition os_mkdir (p : Path) (t : fs) : errno + fs :=
  match walk t [] p with
  | Some e => inl e
  | None =>
      match node_at t p with
      | Some _ => inl EEXIST
      | None => inr (<[p := Dir]> t)
      end
  end.

(** [p.is_dir()] *)
Definition is_dir (t : fs) (p : Path) : bool :=
  match walk t [] p, node_at t p with
  | None, Some Dir => true
  | _, _ => false
  end.

(** [str(p)] *)
Definition path_str (p : Path) : string := "/" +:+ String.concat "/" p.

(** The [OSError] that the failure [e] on [p] raises ([FileNotFoundError],
    [NotADirectoryError] and [FileExistsError] are subclasses of it). *)
Definition os_error (e : errno) (p : Path) : exn :=
  let text :=
    match e with
    | ENOENT => "[Errno 2] No such file or directory: "
    | ENOTDIR => "[Errno 20] Not a directory: "
    | EEXIST => "[Errno 17] File exists: "
    end in
  Exn OSError (text +:+ str_repr (path_str p)).

(** [p.mkdir(parents=False, exist_ok=True)] *)
Definition mkdir_plain (p : Path) (t : fs) : result unit * fs :=
  match os_mkdir p t with
  | inr t' => (Ok tt, t')
  | inl ENOENT => (Err (os_error ENOENT p), t)
  | inl e => (if is_dir t p then Ok tt else Err (os_error e p), t)
  end.

(** [p.mkdir(parents=True, exist_ok=True)], by recursion on the components
    of [p] from the last one: [rp] is [p] reversed, so that its tail is
    [p.parent]. The directories made before a failure stay. *)
Fixpoint mkdir_parents (rp : Path) (t : fs) : result unit * fs :=
  let p := rev rp in
  match os_mkdir p t with
  | inr t' => (Ok tt, t')
  | inl ENOENT =>
      match rp with
      | [] => (Err (os_error ENOENT p), t)
      | _ :: rparent =>
          match mkdir_parents rparent t with
          | (Ok _, t1) => mkdir_plain p t1
          | (Err e, t1) => (Err e, t1)
          end
      end
  | inl e => (if is_dir t p then Ok tt else Err (os_error e p), t)
  end.

Definition mkdir (p : Path) (t : fs) : result unit * fs :=
  mkdir_parents (rev p) t.

End Fs.
End Fs.
Export Fs.

(** ** The program: CyberSapiens.py *)

Module CyberSapiens.
Section CyberSapiens.
Context `{Platform}.
Import Urllib.
Local Open Scope io_scope.

(** [get_youtube_id(url)]; Python's [None] is [None]. *)
Definition get_youtube_id (url : string) : result (option string) :=
  if Str.contains "youtu.be" url then
    Ok (Some (Str.last_item (Str.split "/" url)))
  else if Str.contains "youtube.com" url then
    let! parsed := urlparse url in
    let query := parse_qs (query parsed) in
    match default [None] (List.map Some <$> query !! "v") with
    | v :: _ => Ok v
    | [] => raise IndexError "list index out of range"
    end
  else Ok None.

(** [get_video_info(url)] *)
Definition get_video_info (w : world) (url : string)
  : M (option (gmap string pyval)) :=
  try_except
    (do! info := lift (outcome (extract_info w url false)) in
     ret (Some
       (<["title" := dict_get info "title" (PStr "Unknown Title")]>
        (<["thumbnail" := dict_get info "thumbnail" PNone]>
        (<["duration" := dict_get info "duration" PNone]>
        (<["description" :=
             dict_get info "description" (PStr "No description available")]>
        (<["uploader" := dict_get info "uploader" (PStr "Unknown uploader")]>
        (<["view_count" := dict_get info "view_count" (PInt 0)]> ∅))))))))
    (fun e =>
       st_error ("Error fetching video info: " +:+ exn_msg e) ;;
       ret None).

Definition video_domains : list string :=
  ["youtube.com"; "youtu.be"; "vimeo.com"; "dailymotion.com"].

(** [is_video_url(url)] *)
Definition is_video_url (url : string) : result bool :=
  let! parsed_url := urlparse url in
  Ok (existsb (fun domain => Str.contains domain (netloc parsed_url))
        video_domains).

Definition image_extensions : list string :=
  [".jpg"; ".jpeg"; ".png"; ".gif"; ".bmp"; ".webp"].

(** [is_image_url(url)] *)
Definition is_image_url (url : string) : result bool :=
  let! parsed_url := urlparse url in
  Ok (existsb (fun ext => Str.endswith ext (Str.lower (path parsed_url)))
        image_extensions).

(** [format_views(view_count)] for a count that is an [int] or [None]. *)
Definition format_views (view_count : option Z) : result string :=
  match view_count with
  | None => Ok "No views"
  | Some n =>
      if n =? 0 then Ok "No views"
      else if n <? 1000 then str_int n
      else if n <? 1000000 then
        let! x := int_truediv n 1000 in Ok (format_1f x +:+ "K")
      else if n <? 1000000000 then
        let! x := int_truediv n 1000000 in Ok (format_1f x +:+ "M")
      else
        let! x := int_truediv n 1000000000 in Ok (format_1f x +:+ "B")
  end.

(** The progress hook that [download_video] hands to the backend. *)
Definition progress_hook (d : gmap string pyval) : M unit :=
  do! status := lift (getitem d "status") in
  if eq_str status "downloading" then
    do! progress :=
      lift (if has_key d "total_bytes" then
              let! downloaded := getitem d "downloaded_bytes" in
              let! total := getitem d "total_bytes" in
              py_truediv downloaded total
            else Ok (PInt 0)) in
    set_progress progress
  else ret tt.

(** The backend calls the hooks one after the other; an exception raised
    by a hook ends the run. *)
Fixpoint run_hooks (calls : list (gmap string pyval)) : M unit :=
  match calls with
  | [] => ret tt
  | d :: rest => progress_hook d ;; run_hooks rest
  end.

(** [str(v)], as an f-string formats a value. *)
Definition py_str (v : pyval) : result string :=
  match v with
  | PNone => Ok "None"
  | PBool true => Ok "True"
  | PBool false => Ok "False"
  | PInt z => str_int z
  | PFloat f => Ok (float_repr f)
  | PStr s => Ok s
  end.

(** [download_video(url, output_path)] *)
Definition download_video (w : world) (url output_path : string)
  : M (bool * string) :=
  try_except
    (set_progress (PInt 0) ;;
     let run := extract_info w url true in
     run_hooks (hook_calls run) ;;
     do! info := lift (outcome run) in
     do! title := lift (getitem info "title") in
     do! text := lift (py_str title) in
     ret (true, "Successfully downloaded: " +:+ text))
    (fun e => ret (false, "Error downloading video: " +:+ exn_msg e)).

(** [response.raise_for_status()]; the status codes it prints have three
    digits. *)
Definition raise_for_status (r : response) : result unit :=
  let code := status_code r in
  let tail := ": " +:+ reason r +:+ " for url: " +:+ final_url r in
  if (400 <=? code) && (code <? 500) then
    raise HTTPError (digits code +:+ " Client Error" +:+ tail)
  else if (500 <=? code) && (code <? 600) then
    raise HTTPError (digits code +:+ " Server Error" +:+ tail)
  else Ok tt.

(** The white space that [int] skips around an ASCII literal. *)
Definition is_space (a : ascii) : bool :=
  let n := nat_of_ascii a in
  ((9 <=? n) && (n <=? 13) || (n =? 32))%nat.

(** The value of a run of decimal digits in which single underscores may
    separate digits; [acc] is the value read so far and [after_digit]
    tells whether the previous character was a digit. *)
Fixpoint digits_value (s : string) (acc : Z) (after_digit : bool)
  : option Z :=
  match s with
  | EmptyString => if after_digit then Some acc else None
  | String a s' =>
      if is_digit a then
        digits_value s' (10 * acc + Z.of_nat (nat_of_ascii a) - 48) true
      else if Str.eqb_ascii a "_" && after_digit then
        digits_value s' acc false
      else None
  end.

(** The number of decimal digits in a string. *)
Fixpoint count_digits (s : string) : Z :=
  match s with
  | EmptyString => 0
  | String a s' => (if is_digit a then 1 else 0) + count_digits s'
  end.

(** [int(s)] for a string. *)
Definition int_of_str (s : string) : result Z :=
  let bad := raise ValueError
               ("invalid literal for int() with base 10: " +:+ str_repr s) in
  if Str.forallb Str.is_ascii_char s then
    let t := Str.lstrip is_space s in
    let t := String.rev (Str.lstrip is_space (String.rev t)) in
    let '(neg, t) :=
      match t with
      | String "-" t' => (true, t')
      | String "+" t' => (false, t')
      | _ => (false, t)
      end in
    match digits_value t 0 false with
    | Some v =>
        if max_str_digits <? count_digits t then
          raise ValueError
            ("Exceeds the limit (4300 digits) for integer string conversion: "
             +:+ "value has " +:+ digits (count_digits t) +:+ " digits; "
             +:+ "use sys.set_int_max_str_digits() to increase the limit")
        else Ok (if neg then - v else v)
    | None => bad
    end
  else
    match int_of_unicode s with
    | Some v => Ok v
    | None => bad
    end.

(** A run of bytes in blocks of [block_size] bytes, the last one
    possibly shorter. *)
Fixpoint blocks (fuel block_size : nat) (body : list byte)
  : list (list byte) :=
  match fuel, body with
  | O, _ | _, [] => []
  | S fuel', _ =>
      take block_size body :: blocks fuel' block_size (drop block_size body)
  end.

(** [response.iter_content(block_size)], a generator: the blocks it
    yields, made of the bytes that the stream hands over, and the
    exception it raises after them when the stream breaks. *)
Definition iter_content (r : response) (block_size : nat)
  : list (list byte) * option exn :=
  (blocks (length (content r)) block_size (content r), stream_error r).

(** [response.content]: the whole body read from the stream; it raises
    when the stream breaks. *)
Definition response_content (r : response) : result (list byte) :=
  match stream_error r with
  | Some e => Err e
  | None => Ok (content r)
  end.

(** The end of a [for] loop over a generator: the exception of the
    generator, if it has one, leaves the loop. *)
Definition end_of_loop (failure : option exn) : result unit :=
  match failure with
  | Some e => Err e
  | None => Ok tt
  end.

(** The loop of [download_image] over the blocks of the body. *)
Fixpoint write_blocks (filepath : string) (total_size : Z)
    (chunks : list (list byte)) (downloaded : Z) : M unit :=
  match chunks with
  | [] => ret tt
  | data :: rest =>
      let downloaded := downloaded + Z.of_nat (length data) in
      file_write filepath data ;;
      do! progress := lift (int_truediv downloaded total_size) in
      set_progress (PFloat progress) ;;
      write_blocks filepath total_size rest downloaded
  end.

(** [open(filepath, "wb")]: the file is created or emptied. *)
Definition open_file (w : world) (filepath : string) : M unit :=
  lift (open_wb w filepath) ;;
  fun s =>
    (Ok tt,
     emit (FileOpen filepath)
       {| session_state := session_state s;
          files := <[filepath := []]> (files s); trace := trace s |}).

(** [download_image(url, output_path)] *)
Definition download_image (w : world) (url output_path : string)
  : M (bool * string) :=
  try_except
    (do! response := lift (requests_get w url) in
     lift (raise_for_status response) ;;
     do! parsed := lift (urlparse url) in
     let filename := basename (path parsed) in
     do! filename :=
       lift (if Str.is_empty filename
             then let! seconds := str_int (unix_time w) in
                  Ok ("image_" +:+ seconds +:+ ".jpg")
             else Ok filename) in
     let filepath := path_join output_path filename in
     do! total_size :=
       lift (match headers response !! "content-length" with
             | Some h => int_of_str h
             | None => Ok 0
             end) in
     let block_size := 1024%nat in
     open_file w filepath ;;
     (if total_size =? 0 then
        do! body := lift (response_content response) in
        file_write filepath body
      else
        let '(chunks, failure) := iter_content response block_size in
        write_blocks filepath total_size chunks 0 ;;
        lift (end_of_loop failure)) ;;
     ret (true, "Successfully downloaded: " +:+ filename))
    (fun e => ret (false, "Error downloading image: " +:+ exn_msg e)).

(** The three outcomes of the dispatch in [main]. *)
Inductive kind := Video | Image | Unsupported.

(** The [if is_video_url(url): ... elif is_image_url(url): ... else: ...]
    chain that [main] enters for a non-empty URL. *)
Definition classify (url : string) : result kind :=
  let! video := is_video_url url in
  if video then Ok Video
  else
    let! image := is_image_url url in
    if image then Ok Image else Ok Unsupported.

(** [for path in paths: path.mkdir(parents=True, exist_ok=True)] *)
Fixpoint make_folders (paths : list Path) (t : fs) : result unit * fs :=
  match paths with
  | [] => (Ok tt, t)
  | p :: rest =>
      match mkdir p t with
      | (Ok _, t') => make_folders rest t'
      | (Err e, t') => (Err e, t')
      end
  end.

(** [setup_download_folders()], where [home] is [Path.home()]. *)
Definition setup_download_folders (home : Path) (t : fs)
  : result (string * string) * fs :=
  let downloads_path := ((home ++ ["Downloads"]) ++ ["StreamlitDownloads"])%list in
  let video_path := (downloads_path ++ ["Videos"])%list in
  let image_path := (downloads_path ++ ["Images"])%list in
  match make_folders [downloads_path; video_path; image_path] t with
  | (Ok _, t') => (Ok (path_str video_path, path_str image_path), t')
  | (Err e, t') => (Err e, t')
  end.

(** [bool(v)]: what [not v] negates. *)
Definition truthy (v : pyval) : bool :=
  match v with
  | PNone => false
  | PBool b => b
  | PInt z => negb (z =? 0)
  | PFloat f => negb (float_is_zero f)
  | PStr s => negb (Str.is_empty s)
  end.

(** [x // k] for an [int] literal [k] other than zero. *)
Definition num_floordiv (x : number) (k : Z) : result number :=
  match x with
  | NInt a => Ok (NInt (a / k))
  | NFloat vx =>
      let! wx := int_to_float k in
      let! qr := float_div_mod vx wx in
      Ok (NFloat (fst qr))
  end.

(** [x % k] for an [int] literal [k] other than zero. *)
Definition num_mod (x : number) (k : Z) : result number :=
  match x with
  | NInt a => Ok (NInt (a mod k))
  | NFloat vx =>
      let! wx := int_to_float k in
      Ok (NFloat (float_rem vx wx))
  end.

(** [x > 0] *)
Definition num_positive (x : number) : bool :=
  match x with
  | NInt a => 0 <? a
  | NFloat f => float_lt float_zero f
  end.

(** [format(x, "02d")]: the digits of an [int] with its sign, in two
    characters at least; the limit on the digits of an [int] applies as
    for [str]. *)
Definition format_02d (x : number) : result string :=
  match x with
  | NInt n =>
      let! t := str_int n in
      Ok (if (String.length t <? 2)%nat then "0" +:+ t else t)
  | NFloat _ =>
      raise ValueError "Unknown format code 'd' for object of type 'float'"
  end.

(** [format_duration(seconds)]. The first operation on [seconds], the
    floor division, tells a number (a [bool] counts as an [int]) from the
    values on which it raises [TypeError]; the f-string formats its fields
    from left to right. *)
Definition format_duration (seconds : pyval) : result string :=
  if negb (truthy seconds) then Ok "Unknown duration"
  else
    match as_number seconds with
    | None =>
        raise TypeError
          ("unsupported operand type(s) for //: '" +:+ type_name seconds
           +:+ "' and 'int'")
    | Some x =>
        let! hours := num_floordiv x 3600 in
        let! rest := num_mod x 3600 in
        let! minutes := num_floordiv rest 60 in
        let! seconds := num_mod x 60 in
        if num_positive hours then
          let! h := format_02d hours in
          let! m := format_02d minutes in
          let! s := format_02d seconds in
          Ok (h +:+ ":" +:+ m +:+ ":" +:+ s)
        else
          let! m := format_02d minutes in
          let! s := format_02d seconds in
          Ok (m +:+ ":" +:+ s)
    end.

End CyberSapiens.
End CyberSapiens.

(** ** Vocabulary of the specification *)

Module Spec.
Section Spec.
Context `{Platform}.
Import Urllib CyberSapiens.

(** The host component of a network location, as [urllib] defines
    [hostname]: without user information and port, in lower case. *)
Definition hostname (nl : string) : string :=
  let hostinfo := Str.after_last "@" nl in
  let '(_, have_open_br, bracketed) := Str.partition "[" hostinfo in
  let host :=
    if have_open_br then (Str.partition "]" bracketed).1.1
    else (Str.partition ":" hostinfo).1.1 in
  let '(h, percent, zone) := Str.partition "%" host in
  Str.lower h +:+ (if percent then "%" else "") +:+ zone.

(** Classification as the specification words it: an allowlisted domain
    is looked for in the host component of the URL. *)
Definition classify_by_host (url : string) : result kind :=
  let! parsed := urlparse url in
  if existsb (fun domain => Str.contains domain (hostname (netloc parsed)))
       video_domains
  then Ok Video
  else if existsb (fun ext => Str.endswith ext (Str.lower (path parsed)))
            image_extensions
  then Ok Image
  else Ok Unsupported.

(** [p] occurs inside [s]. *)
Definition substring_of (p s : string) : Prop :=
  exists a b, s = a +:+ p +:+ b.

(** [s] ends with [p]. *)
Definition suffix_of (p s : string) : Prop :=
  exists a, s = a +:+ p.

(** The hook dictionary [d] reports the downloading phase with
    [downloaded] bytes out of [total]. *)
Definition reports (total : Z) (d : gmap string pyval) (downloaded : Z)
  : Prop :=
  d !! "status" = Some (PStr "downloading") /\
  d !! "downloaded_bytes" = Some (PInt downloaded) /\
  d !! "total_bytes" = Some (PInt total).

(** The hook dictionary [d] is a callback of another phase than the
    downloading one, as the callback with the status [finished] that
    ends a download. *)
Definition other_phase (d : gmap string pyval) : Prop :=
  exists v, d !! "status" = Some v /\ eq_str v "downloading" = false.

(** What a callback tells about the bytes: a callback of the downloading
    phase reports a count out of [total], a callback of another phase
    reports nothing. *)
Definition observes (total : Z) (d : gmap string pyval) (o : option Z)
  : Prop :=
  match o with
  | Some downloaded => reports total d downloaded
  | None => other_phase d
  end.

(** The byte counts among what the callbacks told, in order. *)
Definition reported (obs : list (option Z)) : list Z := omap id obs.

(** The way [get_video_info] fills the key [k] of its result [m] from the
    backend's dictionary [info]: the default when the key is absent, the
    value of the key, whatever it is, when it is present. *)
Definition passes_through (info m : gmap string pyval) (k : string)
    (dflt : pyval) : Prop :=
  (info !! k = None -> m !! k = Some dflt) /\
  (forall v, info !! k = Some v -> m !! k = Some v).

(** The events a computation added to the trace. *)
Definition new_events (before after : state) : list event :=
  drop (length (trace before)) (trace after).

(** A list of progress values never decreases. *)
Definition nondecreasing (vs : list pyval) : Prop :=
  forall i j x y,
    (i <= j)%nat -> vs !! i = Some x -> vs !! j = Some y -> py_le x y.

(** Byte counts that never decrease and stay between [0] and [total]. *)
Definition ascending (total : Z) (bytes : list Z) : Prop :=
  forall i j a b,
    (i <= j)%nat -> bytes !! i = Some a -> bytes !! j = Some b ->
    0 <= a /\ a <= b /\ b <= total.

(** The server of [url] does not announce a negative length. *)
Definition length_not_negative (w : world) (url : string) : Prop :=
  forall resp h n,
    requests_get w url = Ok resp ->
    headers resp !! "content-length" = Some h ->
    int_of_str h = Ok n -> 0 <= n.

(** The state after the progress has been assigned each value of [vs]. *)
Definition set_all (vs : list pyval) (s : state) : state :=
  foldl (fun s v => snd (set_progress v s)) s vs.

(** The events of the loop of [download_image]: each block is written,
    then the progress is assigned; the loop ends with the blocks or with
    the first division that raises. *)
Fixpoint block_events (filepath : string) (total_size : Z)
    (chunks : list (list byte)) (downloaded : Z) : list event :=
  match chunks with
  | [] => []
  | data :: rest =>
      let downloaded := downloaded + Z.of_nat (length data) in
      FileWrite filepath data ::
      match int_truediv downloaded total_size with
      | Ok f =>
          SetProgress (PFloat f) ::
          block_events filepath total_size rest downloaded
      | Err _ => []
      end
  end.

(** The state once [open(filepath, "wb")] has succeeded. *)
Definition opened (filepath : string) (s : state) : state :=
  emit (FileOpen filepath)
    {| session_state := session_state s; files := <[filepath := []]> (files s);
       trace := trace s |}.

(** The length the server announces: [int(headers.get("content-length", 0))]. *)
Definition content_length (resp : response) : result Z :=
  match headers resp !! "content-length" with
  | Some h => int_of_str h
  | None => Ok 0
  end.

(** The name [download_image] gives to the file. *)
Definition image_filename (w : world) (parsed : ParseResult)
  : result string :=
  if Str.is_empty (basename (path parsed))
  then let! seconds := str_int (unix_time w) in
       Ok ("image_" +:+ seconds +:+ ".jpg")
  else Ok (basename (path parsed)).

(** The ratios [n / d] that [int / int] rounds to a binary64 number:
    those of magnitude below [2^1024 - 2^970], the midpoint between the
    largest binary64 number and [2^1024]. *)
Definition fits_float (n d : Z) : Prop :=
  Z.abs n < (2 ^ 1024 - 2 ^ 970) * Z.abs d.

(** A string in which none of the characters of [chars] occurs. *)
Definition avoids (chars s : string) : Prop :=
  Str.forallb (fun a => negb (Str.has_char a chars)) s = true.

(** An ASCII character other than the square brackets. *)
Definition plain_char (a : ascii) : bool :=
  Str.is_ascii_char a && negb (Str.has_char a "[]").

(** The characters that end or alter a value inside a URL's query: the
    field and fragment separators, the escapes [+] and [%], and the tab,
    line feed and carriage return that [urlsplit] deletes. *)
Definition query_special : string :=
  "&#+%" +:+ String "009" (String "010" (String "013" "")).

(** A video id that reads back from a query as it was written. *)
Definition plain_id (id : string) : Prop :=
  id <> "" /\ avoids query_special id /\ Str.contains "youtu.be" id = false.

(** The positive ratio [n / d] as a rational number. *)
Definition QR (n d : Z) : Q := (inject_Z n / inject_Z d)%Q.

(** The value a positive ratio rounds to. *)
Definition rounded (n d : Z) : Q :=
  dyadic (fst (round_pos n d)) (snd (round_pos n d)).

(** The mantissa of the rounding, before it is normalised. *)
Definition scaled_rne (n d : Z) : Z :=
  rne (n * 2 ^ Z.max 0 (- ulp_exp n d)) (d * 2 ^ Z.max 0 (ulp_exp n d)).

End Spec.
End Spec.

(** ** Vocabulary of the further properties *)

Module Shapes.
Import Urllib CyberSapiens Spec.

(** The character of a decimal digit. *)
Definition digit_char (d : Z) : ascii := ascii_of_nat (48 + Z.to_nat d).

(** A number below 100 written with two digits. *)
Definition two_digits (n : Z) : string :=
  String (digit_char (n / 10)) (String (digit_char (n mod 10)) "").

(** The hours of a duration: the decimal digits, two at least. *)
Definition hours_text (h : Z) : string :=
  if h <? 10 then "0" +:+ digits h else digits h.

(** A duration of [h] hours, [m] minutes and [s] seconds on the clock:
    the hours are left out when there are none. *)
Definition clock (h m s : Z) : string :=
  if h =? 0 then two_digits m +:+ ":" +:+ two_digits s
  else hours_text h +:+ ":" +:+ two_digits m +:+ ":" +:+ two_digits s.

(** The number a field of the clock stands for. *)
Definition field_value (t : string) : Z :=
  default 0 (digits_value t 0 false).

(** The seconds that a clock text stands for: its fields, separated by
    colons, count in base 60. *)
Definition clock_seconds (text : string) : Z :=
  foldl (fun acc t => 60 * acc + field_value t) 0 (Str.split ":" text).

(** Every file event of [evs] is about the file [name]. *)
Definition only_file (name : string) (evs : list event) : Prop :=
  Forall (fun ev =>
            match ev with
            | FileOpen n | FileWrite n _ => n = name
            | _ => True
            end) evs.

(** The values that a list of query fields gives to the name [k], in
    order. *)
Definition values_of (k : string) (fields : list (string * string))
  : list string :=
  omap (fun nv : string * string =>
          if String.eqb (fst nv) k then Some (snd nv) else None) fields.

(** One step of [parse_qs]: a value is appended to those of its name. *)
Definition add_field (m : gmap string (list string)) (nv : string * string)
  : gmap string (list string) :=
  match m !! fst nv with
  | Some vs => <[fst nv := (vs ++ [snd nv])%list]> m
  | None => <[fst nv := [snd nv]]> m
  end.

(** No regular file stands on the way to [p]: neither [p] nor a
    directory above it is one. *)
Definition free_way (t : fs) (p : Path) : Prop :=
  forall q, q `prefix_of` p -> node_at t q <> Some File.

(** The tab, line feed and carriage return, which [urlsplit] deletes
    from a URL. *)
Definition deleted_chars : string :=
  String "009" (String "010" (String "013" "")).

(** A network location of ASCII characters without brackets, in which
    nothing ends the location or is deleted. *)
Definition plain_netloc (nl : string) : Prop :=
  avoids ("/?#[]" +:+ deleted_chars) nl /\
  Str.forallb Str.is_ascii_char nl = true.

(** The folders of the program under the home directory. *)
Definition downloads_folder (home : Path) : Path :=
  ((home ++ ["Downloads"]) ++ ["StreamlitDownloads"])%list.

Definition videos_folder (home : Path) : Path :=
  (downloads_folder home ++ ["Videos"])%list.

Definition images_folder (home : Path) : Path :=
  (downloads_folder home ++ ["Images"])%list.

(** A regular file stands on the way to [p]. *)
Definition blocked (t : fs) (p : Path) : Prop :=
  exists q, q `prefix_of` p /\ node_at t q = Some File.

(** From [t] to [t'] nothing was removed or changed, and what was added
    are directories on the way to one of [targets]. *)
Definition only_made_dirs (t t' : fs) (targets : list Path) : Prop :=
  t ⊆ t' /\
  forall q n, t' !! q = Some n -> t !! q = None ->
    n = Dir /\ exists p, p ∈ targets /\ q `prefix_of` p.

End Shapes.
Export Shapes.

(** A platform that accepts every host and leaves bytes as they are: the
    instance at which the general results are exercised. *)
Definition lenient : Platform := {|
  bracketed_host_error := fun _ => None;
  nfkc_netloc_ok := fun _ => true;
  decode_utf8_replace := fun s => s;
  float_repr := fun _ => "float";
  str_repr := fun s => "'" +:+ s +:+ "'";
  int_of_unicode := fun _ => None;
|}.

(** ** Concrete worlds, for the examples *)

Module Examples.

(** The state of a session that has just started: [main] has set the
    progress to [0]. *)
Definition fresh_session : state :=
  {| session_state := <["progress" := PInt 0]> ∅; files := ∅; trace := [] |}.

(** A callback of the downloading phase that knows the total size. *)
Definition downloading (downloaded total : Z) : gmap string pyval :=
  <["status" := PStr "downloading"]>
    (<["downloaded_bytes" := PInt downloaded]>
       (<["total_bytes" := PInt total]> ∅)).

(** A callback of the downloading phase without [total_bytes]. *)
Definition downloading_unknown (downloaded : Z) : gmap string pyval :=
  <["status" := PStr "downloading"]>
    (<["downloaded_bytes" := PInt downloaded]> ∅).

(** The callback that ends a download. *)
Definition finished : gmap string pyval := <["status" := PStr "finished"]> ∅.

(** A world whose video backend makes the given callbacks and ends with
    the given outcome, for every URL; its network is down. *)
Definition backend (calls : list (gmap string pyval))
    (out : result (gmap string pyval)) : world :=
  {| extract_info := fun _ _ => {| hook_calls := calls; outcome := out |};
     requests_get := fun _ => Err (Exn OSError "Network is unreachable");
     unix_time := 1700000000;
     open_wb := fun _ => Ok tt |}.

(** A world whose web server answers every URL with [resp]; it has no
    video. *)
Definition server (resp : response) : world :=
  {| extract_info := fun _ _ =>
       {| hook_calls := []; outcome := Err (Exn BackendError "Unsupported URL") |};
     requests_get := fun _ => Ok resp;
     unix_time := 1700000000;
     open_wb := fun _ => Ok tt |}.

(** A response with status 200 and the given headers whose stream hands
    over [body] and ends well. *)
Definition reply (hdrs : gmap string string) (body : list byte) : response :=
  {| status_code := 200; reason := "OK"; final_url := "";
     headers := hdrs; content := body; stream_error := None |}.

(** A body of 2500 bytes. *)
Definition body_2500 : list byte := replicate 2500 x2a.

(** A response whose stream hands over [body] and then breaks with [e]. *)
Definition cut_short (hdrs : gmap string string) (body : list byte) (e : exn)
  : response :=
  {| status_code := 200; reason := "OK"; final_url := "";
     headers := hdrs; content := body; stream_error := Some e |}.

(** The two full blocks that are handed over when a transfer announced
    as 3000 bytes long ends after 2500 bytes. *)
Definition body_2048 : list byte := replicate 2048 x2a.

(** The exception of a transfer that ends 500 bytes early: a
    [ChunkedEncodingError], which is an [OSError]. *)
Definition ends_early : exn :=
  Exn OSError
    "Connection broken: IncompleteRead(2500 bytes read, 500 more expected)".

Definition clip_info : gmap string pyval := <["title" := PStr "clip"]> ∅.

(** What [urlparse] makes of [https://example.org/a/b/photo.png]. *)
Definition photo_url : Urllib.ParseResult :=
  {| Urllib.scheme := "https"; Urllib.netloc := "example.org";
     Urllib.path := "/a/b/photo.png"; Urllib.params := "";
     Urllib.query := ""; Urllib.fragment := "" |}.

(** A callback of the downloading phase whose total size is [None]. *)
Definition downloading_none (downloaded : Z) : gmap string pyval :=
  <["status" := PStr "downloading"]>
    (<["downloaded_bytes" := PInt downloaded]>
       (<["total_bytes" := PNone]> ∅)).

(** The home directory [/home/u]. *)
Definition home_u : Path := ["home"; "u"].

(** A file system in which [/home/u/Downloads] is a regular file. *)
Definition downloads_is_a_file : fs :=
  <[["home"; "u"; "Downloads"] := File]>
    (<[["home"; "u"] := Dir]> (<[["home"] := Dir]> ∅)).

(** What [urlparse] makes of a watch URL with three [v] fields. *)
Definition three_ids : Urllib.ParseResult :=
  {| Urllib.scheme := "https"; Urllib.netloc := "www.youtube.com";
     Urllib.path := "/watch"; Urllib.params := "";
     Urllib.query := "v=&v=abc&v=def"; Urllib.fragment := "" |}.

(** The float [90.5]. *)
Definition ninety_and_a_half : float := Finite false 6368371348078592 (-46).

End Examples.

(** * Properties *)

(** ** Rounding to binary64 *)

Module RoundingFacts.
Import Spec.


Lemma pow2_pos (z : Z) : (0 < 2 ^ z)%Q.
Proof. apply Qpower_0_lt. reflexivity. Qed.

Lemma pow2_add (a b : Z) : (2 ^ (a + b) == 2 ^ a * 2 ^ b)%Q.
Proof. apply Qpower_plus. discriminate. Qed.

Lemma pow2_le (a b : Z) : a <= b -> (2 ^ a <= 2 ^ b)%Q.
Proof. intros H. apply Qpower_le_compat_l; [exact H | discriminate]. Qed.

Lemma pow2_inject (k : Z) : 0 <= k -> (inject_Z (2 ^ k) == 2 ^ k)%Q.
Proof. intros H. rewrite Zpower_Qpower by exact H. reflexivity. Qed.

Lemma pow2_Zpos (k : Z) : 0 <= k -> 0 < 2 ^ k.
Proof. intros H. apply Z.pow_pos_nonneg; lia. Qed.

Lemma inject_Z_pos (z : Z) : 0 < z -> (0 < inject_Z z)%Q.
Proof. intros H. rewrite Zlt_Qlt in H. exact H. Qed.

Lemma Qpos_neq0 (q : Q) : (0 < q)%Q -> ~ (q == 0)%Q.
Proof. intros H E. rewrite E in H. exact (Qlt_irrefl 0 H). Qed.

Lemma QR_mul (n d : Z) : 0 < d -> (QR n d * inject_Z d == inject_Z n)%Q.
Proof.
  intros Hd. unfold QR. field. apply Qpos_neq0, inject_Z_pos, Hd.
Qed.

Lemma QR_le_iff (n d k : Z) : 0 < d -> (inject_Z k <= QR n d)%Q <-> k * d <= n.
Proof.
  intros Hd. pose proof (inject_Z_pos d Hd) as Hq.
  rewrite Zle_Qle, inject_Z_mult, <- (QR_mul n d Hd).
  symmetry. apply Qmult_le_r. exact Hq.
Qed.

Lemma QR_ge_iff (n d k : Z) : 0 < d -> (QR n d <= inject_Z k)%Q <-> n <= k * d.
Proof.
  intros Hd. pose proof (inject_Z_pos d Hd) as Hq.
  rewrite Zle_Qle, inject_Z_mult, <- (QR_mul n d Hd).
  symmetry. apply Qmult_le_r. exact Hq.
Qed.

Lemma QR_scaled (n d u : Z) :
  0 < d ->
  (QR (n * 2 ^ Z.max 0 (- u)) (d * 2 ^ Z.max 0 u) == QR n d * 2 ^ (- u))%Q.
Proof.
  intros Hd. unfold QR. pose proof (inject_Z_pos d Hd) as Hq.
  rewrite !inject_Z_mult, !pow2_inject by lia.
  pose proof (pow2_pos (Z.max 0 u)). pose proof (pow2_pos (Z.max 0 (- u))).
  assert (E : (2 ^ Z.max 0 (- u) == 2 ^ (- u) * 2 ^ Z.max 0 u)%Q).
  { rewrite <- pow2_add. replace (- u + Z.max 0 u) with (Z.max 0 (- u)) by lia.
    reflexivity. }
  rewrite E. field. split; apply Qpos_neq0; assumption.
Qed.

(** rne *)
Lemma rne_bounds (n d : Z) : 0 < d -> n / d <= rne n d <= n / d + 1.
Proof.
  intros Hd. unfold rne.
  destruct (2 * (n mod d) <? d); [lia |].
  destruct (d <? 2 * (n mod d)); [lia |].
  destruct (Z.even (n / d)); lia.
Qed.

Lemma rne_mono (n1 n2 d : Z) : 0 < d -> n1 <= n2 -> rne n1 d <= rne n2 d.
Proof.
  intros Hd Hn.
  pose proof (Z.div_le_mono n1 n2 d Hd Hn) as Hq.
  destruct (Z.eq_dec (n1 / d) (n2 / d)) as [E | NE].
  - pose proof (Z.div_mod n1 d ltac:(lia)). pose proof (Z.div_mod n2 d ltac:(lia)).
    assert (n1 mod d <= n2 mod d) by nia.
    unfold rne. rewrite E.
    destruct (Z.ltb_spec (2 * (n1 mod d)) d), (Z.ltb_spec (2 * (n2 mod d)) d),
      (Z.ltb_spec d (2 * (n1 mod d))), (Z.ltb_spec d (2 * (n2 mod d)));
      destruct (Z.even (n2 / d)); lia.
  - pose proof (rne_bounds n1 d Hd). pose proof (rne_bounds n2 d Hd). lia.
Qed.

Lemma rne_exact (k d : Z) : 0 < d -> rne (k * d) d = k.
Proof.
  intros Hd. unfold rne. rewrite Z.div_mul, Z.mod_mul by lia.
  destruct (Z.ltb_spec (2 * 0) d); lia.
Qed.

Lemma rne_ge_int (n d k : Z) : 0 < d -> k * d <= n -> k <= rne n d.
Proof.
  intros Hd H. rewrite <- (rne_exact k d Hd). apply rne_mono; assumption.
Qed.

Lemma rne_le_int (n d k : Z) : 0 < d -> n <= k * d -> rne n d <= k.
Proof.
  intros Hd H. rewrite <- (rne_exact k d Hd). apply rne_mono; assumption.
Qed.

Lemma QR_lower (n d : Z) (c : Q) :
  0 < d -> (c <= QR n d <-> c * inject_Z d <= inject_Z n)%Q.
Proof.
  intros Hd. rewrite <- (QR_mul n d Hd). symmetry.
  apply Qmult_le_r, inject_Z_pos, Hd.
Qed.

Lemma QR_upper (n d : Z) (c : Q) :
  0 < d -> (QR n d <= c <-> inject_Z n <= c * inject_Z d)%Q.
Proof.
  intros Hd. rewrite <- (QR_mul n d Hd). symmetry.
  apply Qmult_le_r, inject_Z_pos, Hd.
Qed.

Lemma QR_upper_strict (n d : Z) (c : Q) :
  0 < d -> (QR n d < c <-> inject_Z n < c * inject_Z d)%Q.
Proof.
  intros Hd. rewrite <- (QR_mul n d Hd). symmetry.
  apply Qmult_lt_r, inject_Z_pos, Hd.
Qed.

Lemma log2_bounds_Q (n : Z) :
  0 < n -> (2 ^ Z.log2 n <= inject_Z n)%Q /\ (inject_Z n < 2 ^ (Z.log2 n + 1))%Q.
Proof.
  intros Hn. pose proof (Z.log2_spec n Hn) as [L U].
  pose proof (Z.log2_nonneg n).
  rewrite <- !pow2_inject by lia. rewrite <- Zle_Qle, <- Zlt_Qlt.
  replace (Z.log2 n + 1) with (Z.succ (Z.log2 n)) by lia. split; assumption.
Qed.

Lemma flog2_spec (n d : Z) :
  0 < n -> 0 < d ->
  (2 ^ flog2 n d <= QR n d)%Q /\ (QR n d < 2 ^ (flog2 n d + 1))%Q.
Proof.
  intros Hn Hd. unfold flog2.
  set (e0 := Z.log2 n - Z.log2 d).
  pose proof (log2_bounds_Q n Hn) as [Ln Un].
  pose proof (log2_bounds_Q d Hd) as [Ld Ud].
  pose proof (inject_Z_pos d Hd) as Dpos.
  pose proof (pow2_Zpos (Z.max 0 e0) ltac:(lia)) as Bpos.
  assert (Hs := QR_scaled n d e0 Hd).
  destruct (Z.ltb_spec (n * 2 ^ Z.max 0 (- e0)) (d * 2 ^ Z.max 0 e0)) as [T | T].
  - assert (S1 : (QR n d * 2 ^ (- e0) < 1)%Q).
    { rewrite <- Hs. apply QR_upper_strict; [lia |].
      rewrite Qmult_1_l, <- Zlt_Qlt. exact T. }
    split.
    + apply QR_lower; [exact Hd |].
      apply Qle_trans with (2 ^ (e0 - 1) * 2 ^ (Z.log2 d + 1))%Q.
      * apply Qmult_le_l; [apply pow2_pos | apply Qlt_le_weak, Ud].
      * rewrite <- pow2_add. replace (e0 - 1 + (Z.log2 d + 1)) with (Z.log2 n) by lia.
        exact Ln.
    + replace (e0 - 1 + 1) with e0 by lia.
      apply (Qmult_lt_r _ _ (2 ^ (- e0))); [apply pow2_pos |].
      rewrite <- pow2_add. replace (e0 + - e0) with 0 by lia. exact S1.
  - assert (S1 : (1 <= QR n d * 2 ^ (- e0))%Q).
    { rewrite <- Hs. apply QR_lower; [lia |].
      rewrite Qmult_1_l, <- Zle_Qle. exact T. }
    split.
    + apply (Qmult_le_r _ _ (2 ^ (- e0))); [apply pow2_pos |].
      rewrite <- pow2_add. replace (e0 + - e0) with 0 by lia. exact S1.
    + apply QR_upper_strict; [exact Hd |].
      apply Qlt_le_trans with (2 ^ (Z.log2 n + 1))%Q; [exact Un |].
      replace (Z.log2 n + 1) with (e0 + 1 + Z.log2 d) by lia.
      rewrite pow2_add. apply Qmult_le_l; [apply pow2_pos | exact Ld].
Qed.

Lemma flog2_mono (n1 n2 d : Z) :
  0 < n1 -> n1 <= n2 -> 0 < d -> flog2 n1 d <= flog2 n2 d.
Proof.
  intros H1 H12 Hd.
  destruct (flog2_spec n1 d H1 Hd) as [L1 _].
  destruct (flog2_spec n2 d ltac:(lia) Hd) as [_ U2].
  assert (LE : (QR n1 d <= QR n2 d)%Q).
  { apply QR_lower; [exact Hd |]. rewrite QR_mul by exact Hd.
    rewrite <- Zle_Qle. exact H12. }
  assert (LT : (2 ^ flog2 n1 d < 2 ^ (flog2 n2 d + 1))%Q).
  { eapply Qle_lt_trans; [exact L1 |]. eapply Qle_lt_trans; [exact LE | exact U2]. }
  apply Qpower_lt_compat_l_inv in LT; [lia | reflexivity].
Qed.

Lemma rounded_eq (n d : Z) :
  (rounded n d == inject_Z (scaled_rne n d) * 2 ^ ulp_exp n d)%Q.
Proof.
  unfold rounded, round_pos, scaled_rne.
  set (u := ulp_exp n d).
  set (m := rne _ _).
  destruct (Z.eqb_spec m (2 ^ 53)) as [E | _].
  - cbn [fst snd]. unfold dyadic. rewrite E, pow2_add.
    change (inject_Z (2 ^ 53)) with (inject_Z (2 ^ 52) * 2 ^ 1)%Q. ring.
  - destruct (Z.eqb_spec m 0) as [E | _]; cbn [fst snd]; unfold dyadic.
    + rewrite E. ring.
    + reflexivity.
Qed.

Lemma scaled_den_pos (d u : Z) : 0 < d -> 0 < d * 2 ^ Z.max 0 u.
Proof. intros Hd. pose proof (pow2_Zpos (Z.max 0 u) ltac:(lia)). nia. Qed.

Lemma scaled_rne_nonneg (n d : Z) : 0 <= n -> 0 < d -> 0 <= scaled_rne n d.
Proof.
  intros Hn Hd. unfold scaled_rne. apply (rne_ge_int _ _ 0).
  - apply scaled_den_pos, Hd.
  - pose proof (pow2_Zpos (Z.max 0 (- ulp_exp n d)) ltac:(lia)). nia.
Qed.

Lemma ulp_exp_mono (n1 n2 d : Z) :
  0 < n1 -> n1 <= n2 -> 0 < d -> ulp_exp n1 d <= ulp_exp n2 d.
Proof.
  intros. unfold ulp_exp. pose proof (flog2_mono n1 n2 d). lia.
Qed.

Lemma rounded_mono (n1 n2 d : Z) :
  0 < n1 -> n1 <= n2 -> 0 < d -> (rounded n1 d <= rounded n2 d)%Q.
Proof.
  intros H1 H12 Hd. rewrite !rounded_eq.
  pose proof (ulp_exp_mono n1 n2 d H1 H12 Hd) as Hu.
  destruct (Z.eq_dec (ulp_exp n1 d) (ulp_exp n2 d)) as [E | NE].
  - unfold scaled_rne. rewrite E.
    apply Qmult_le_compat_r; [| apply Qlt_le_weak, pow2_pos].
    rewrite <- Zle_Qle. apply rne_mono; [apply scaled_den_pos, Hd |].
    pose proof (pow2_Zpos (Z.max 0 (- ulp_exp n2 d)) ltac:(lia)). nia.
  - set (u1 := ulp_exp n1 d) in *. set (u2 := ulp_exp n2 d) in *.
    set (e1 := flog2 n1 d). set (e2 := flog2 n2 d).
    assert (Hu1 : e1 - 52 <= u1) by (unfold u1, ulp_exp, e1; lia).
    assert (Hu2 : u2 = e2 - 52) by (unfold u1, u2, ulp_exp, e2 in *; lia).
    destruct (flog2_spec n1 d H1 Hd) as [_ U1]. fold e1 in U1.
    destruct (flog2_spec n2 d ltac:(lia) Hd) as [L2 _]. fold e2 in L2.
    apply Qle_trans with (2 ^ e2)%Q.
    + (* the smaller ratio rounds to at most 2^e2 *)
      apply Qle_trans with (inject_Z (2 ^ (e2 - u1)) * 2 ^ u1)%Q.
      * apply Qmult_le_compat_r; [| apply Qlt_le_weak, pow2_pos].
        rewrite <- Zle_Qle. unfold scaled_rne. fold u1.
        apply rne_le_int; [apply scaled_den_pos, Hd |].
        apply QR_ge_iff; [apply scaled_den_pos, Hd |].
        rewrite QR_scaled by exact Hd. rewrite pow2_inject by lia.
        replace (e2 - u1) with (e2 + - u1) by lia. rewrite pow2_add.
        apply Qmult_le_compat_r; [| apply Qlt_le_weak, pow2_pos].
        apply Qlt_le_weak. eapply Qlt_le_trans; [exact U1 |].
        apply pow2_le. lia.
      * rewrite pow2_inject by lia. rewrite <- pow2_add.
        replace (e2 - u1 + u1) with e2 by lia. apply Qle_refl.
    + (* the larger ratio rounds to at least 2^e2 *)
      apply Qle_trans with (inject_Z (2 ^ 52) * 2 ^ u2)%Q.
      * rewrite pow2_inject by lia. rewrite <- pow2_add.
        replace (52 + u2) with e2 by lia. apply Qle_refl.
      * apply Qmult_le_compat_r; [| apply Qlt_le_weak, pow2_pos].
        rewrite <- Zle_Qle. unfold scaled_rne. fold u2.
        apply rne_ge_int; [apply scaled_den_pos, Hd |].
        apply QR_le_iff; [apply scaled_den_pos, Hd |].
        rewrite QR_scaled by exact Hd. rewrite pow2_inject by lia.
        replace 52 with (e2 + - u2) by lia. rewrite pow2_add.
        apply Qmult_le_compat_r; [exact L2 | apply Qlt_le_weak, pow2_pos].
Qed.



Lemma rounded_nonneg (n d : Z) : 0 <= n -> 0 < d -> (0 <= rounded n d)%Q.
Proof.
  intros Hn Hd. rewrite rounded_eq.
  apply Qmult_le_0_compat; [| apply Qlt_le_weak, pow2_pos].
  change 0%Q with (inject_Z 0). rewrite <- Zle_Qle.
  apply scaled_rne_nonneg; assumption.
Qed.

Lemma flog2_self (n : Z) : 0 < n -> flog2 n n = 0.
Proof.
  intros Hn. unfold flog2. rewrite Z.sub_diag.
  change (Z.max 0 (- 0)) with 0. change (Z.max 0 0) with 0.
  rewrite Z.ltb_irrefl. reflexivity.
Qed.

(** A nonzero integer divided by itself rounds to [1.0]. *)
Lemma round_pos_self (n : Z) : 0 < n -> round_pos n n = (2 ^ 52, -52).
Proof.
  intros Hn. unfold round_pos, ulp_exp. rewrite flog2_self by exact Hn.
  change (Z.max (0 - 52) (-1074)) with (-52).
  change (Z.max 0 (- -52)) with 52. change (Z.max 0 (-52)) with 0.
  rewrite Z.pow_0_r, Z.mul_1_r.
  replace (n * 2 ^ 52) with (2 ^ 52 * n) by lia.
  rewrite rne_exact by exact Hn. reflexivity.
Qed.

Lemma round_ratio_self (b : Z) : b <> 0 -> round_ratio b b = Some float_one.
Proof.
  intros Hb. unfold round_ratio, round_magnitude.
  destruct (Z.eqb_spec (Z.abs b) 0) as [E | _]; [lia |].
  rewrite round_pos_self by lia. cbn [too_large snd fst].
  change (971 <? -52) with false. cbv iota.
  now rewrite xorb_nilpotent.
Qed.

Lemma flog2_upper (n d k : Z) :
  0 < n -> 0 < d -> n < 2 ^ k * d -> 0 <= k -> flog2 n d < k.
Proof.
  intros Hn Hd Hlt Hk.
  destruct (flog2_spec n d Hn Hd) as [L _].
  assert (U : (QR n d < 2 ^ k)%Q).
  { apply QR_upper_strict; [exact Hd |].
    rewrite <- pow2_inject by exact Hk.
    rewrite <- inject_Z_mult, <- Zlt_Qlt. exact Hlt. }
  assert (LT : (2 ^ flog2 n d < 2 ^ k)%Q) by (eapply Qle_lt_trans; eassumption).
  apply Qpower_lt_compat_l_inv in LT; [exact LT | reflexivity].
Qed.

Lemma rne_lt_half (n d k : Z) :
  0 < d -> 2 * n < (2 * k - 1) * d -> rne n d <= k - 1.
Proof.
  intros Hd H.
  pose proof (Z.div_mod n d ltac:(lia)) as E.
  pose proof (Z.mod_pos_bound n d Hd) as B.
  assert (n / d <= k - 1) by nia.
  destruct (Z.eq_dec (n / d) (k - 1)) as [Eq | Ne].
  - unfold rne. destruct (Z.ltb_spec (2 * (n mod d)) d); [lia | nia].
  - pose proof (rne_bounds n d Hd). lia.
Qed.

(** Ratios below [2^1024 - 2^970] round inside the binary64 range. *)
Lemma round_pos_fits (n d : Z) :
  0 < n -> 0 < d -> n < (2 ^ 1024 - 2 ^ 970) * d ->
  too_large (round_pos n d) = false.
Proof.
  intros Hn Hd Hlt.
  assert (He : flog2 n d < 1024).
  { apply flog2_upper; lia. }
  unfold too_large, round_pos.
  destruct (Z.eq_dec (ulp_exp n d) 971) as [E | NE].
  - rewrite E. change (Z.max 0 (- 971)) with 0. change (Z.max 0 971) with 971.
    rewrite Z.pow_0_r, Z.mul_1_r.
    assert (M : rne n (d * 2 ^ 971) <= 2 ^ 53 - 1).
    { apply rne_lt_half.
      - pose proof (pow2_Zpos 971 ltac:(lia)). nia.
      - assert (C : 2 * (2 ^ 1024 - 2 ^ 970) = (2 * 2 ^ 53 - 1) * 2 ^ 971)
          by reflexivity.
        replace ((2 * 2 ^ 53 - 1) * (d * 2 ^ 971))
          with (2 * ((2 ^ 1024 - 2 ^ 970) * d)); [lia |].
        rewrite Z.mul_assoc, C. ring. }
    destruct (Z.eqb_spec (rne n (d * 2 ^ 971)) (2 ^ 53)) as [E2 | _].
    + exfalso. rewrite E2 in M. revert M. apply Z.lt_nge. reflexivity.
    + destruct (Z.eqb_spec (rne n (d * 2 ^ 971)) 0); cbn [snd]; reflexivity.
  - assert (ulp_exp n d <= 970) by (unfold ulp_exp in *; lia).
    destruct (_ =? 2 ^ 53); [| destruct (_ =? 0)]; cbn [snd];
      apply Z.ltb_ge; lia.
Qed.

Lemma rne_ge_half (n d k : Z) :
  0 < d -> Z.even k = true -> (2 * k - 1) * d <= 2 * n -> k <= rne n d.
Proof.
  intros Hd Hk H.
  pose proof (Z.div_mod n d ltac:(lia)) as E.
  pose proof (Z.mod_pos_bound n d Hd) as B.
  assert (k - 1 <= n / d) by nia.
  destruct (Z.eq_dec (n / d) (k - 1)) as [Eq | Ne].
  - unfold rne. rewrite Eq.
    destruct (Z.ltb_spec (2 * (n mod d)) d); [nia |].
    destruct (Z.ltb_spec d (2 * (n mod d))); [lia |].
    replace (k - 1) with (Z.pred k) by lia.
    rewrite Z.even_pred, <- Z.negb_even, Hk. cbn. lia.
  - pose proof (rne_bounds n d Hd). lia.
Qed.

Lemma flog2_lower (n d k : Z) :
  0 < n -> 0 < d -> 2 ^ k * d <= n -> 0 <= k -> k <= flog2 n d.
Proof.
  intros Hn Hd Hle Hk.
  destruct (flog2_spec n d Hn Hd) as [_ U].
  assert (L : (2 ^ k <= QR n d)%Q).
  { apply QR_lower; [exact Hd |].
    rewrite <- pow2_inject by exact Hk.
    rewrite <- inject_Z_mult, <- Zle_Qle. exact Hle. }
  assert (LT : (2 ^ k < 2 ^ (flog2 n d + 1))%Q) by (eapply Qle_lt_trans; eassumption).
  apply Qpower_lt_compat_l_inv in LT; [lia | reflexivity].
Qed.

Lemma scaled_rne_normal (n d : Z) :
  0 < n -> 0 < d -> -1074 <= flog2 n d - 52 ->
  2 ^ 52 <= scaled_rne n d <= 2 ^ 53.
Proof.
  intros Hn Hd Hnorm. unfold scaled_rne.
  assert (Hu : ulp_exp n d = flog2 n d - 52) by (unfold ulp_exp; lia).
  destruct (flog2_spec n d Hn Hd) as [L U]. rewrite Hu.
  set (e := flog2 n d) in *. split.
  - apply rne_ge_int; [apply scaled_den_pos, Hd |].
    apply QR_le_iff; [apply scaled_den_pos, Hd |].
    rewrite QR_scaled by exact Hd.
    change (inject_Z (2 ^ 52)) with (2 ^ 52)%Q.
    replace 52 with (e + - (e - 52)) at 1 by lia. rewrite pow2_add.
    apply Qmult_le_compat_r; [exact L | apply Qlt_le_weak, pow2_pos].
  - apply rne_le_int; [apply scaled_den_pos, Hd |].
    apply QR_ge_iff; [apply scaled_den_pos, Hd |].
    rewrite QR_scaled by exact Hd.
    change (inject_Z (2 ^ 53)) with (2 ^ 53)%Q.
    replace 53 with (e + 1 + - (e - 52)) at 1 by lia. rewrite pow2_add.
    apply Qmult_le_compat_r; [apply Qlt_le_weak, U | apply Qlt_le_weak, pow2_pos].
Qed.

(** Ratios from [2^1024 - 2^970] on round beyond the binary64 range. *)
Lemma round_pos_overflows (n d : Z) :
  0 < n -> 0 < d -> (2 ^ 1024 - 2 ^ 970) * d <= n ->
  too_large (round_pos n d) = true.
Proof.
  intros Hn Hd Hge.
  assert (He : 1023 <= flog2 n d) by (apply flog2_lower; lia).
  pose proof (scaled_rne_normal n d Hn Hd ltac:(lia)) as [M1 M2].
  assert (Hu : ulp_exp n d = flog2 n d - 52) by (unfold ulp_exp; lia).
  unfold too_large, round_pos. fold (scaled_rne n d).
  destruct (Z.eqb_spec (scaled_rne n d) (2 ^ 53)) as [E | NE].
  - cbn [snd]. apply Z.ltb_lt. lia.
  - destruct (Z.eqb_spec (scaled_rne n d) 0) as [E0 | _].
    + rewrite E0 in M1. exfalso. revert M1. apply Z.lt_nge. reflexivity.
    + cbn [snd]. apply Z.ltb_lt.
      destruct (Z.eq_dec (ulp_exp n d) 971) as [E1 | NE1]; [| lia].
      exfalso. apply NE. apply Z.le_antisymm; [exact M2 |].
      unfold scaled_rne. rewrite E1.
      change (Z.max 0 (- 971)) with 0. change (Z.max 0 971) with 971.
      rewrite Z.pow_0_r, Z.mul_1_r.
      apply rne_ge_half; [| reflexivity |].
      * pose proof (pow2_Zpos 971 ltac:(lia)). nia.
      * assert (C : (2 * 2 ^ 53 - 1) * 2 ^ 971 = 2 * (2 ^ 1024 - 2 ^ 970))
          by reflexivity.
        replace ((2 * 2 ^ 53 - 1) * (d * 2 ^ 971))
          with (2 * ((2 ^ 1024 - 2 ^ 970) * d)); [lia |].
        rewrite Z.mul_assoc, <- C. ring.
Qed.

(** The value of a float that [int / int] returned. *)
Lemma round_ratio_pos_value (n d : Z) (s : bool) (m e : Z) :
  0 < n -> 0 < d -> round_ratio n d = Some (Finite s m e) ->
  finite_value s m e = rounded n d.
Proof.
  intros Hn Hd. unfold round_ratio, round_magnitude, rounded.
  rewrite (Z.abs_eq n), (Z.abs_eq d) by lia.
  destruct (Z.eqb_spec n 0); [lia |].
  destruct (too_large _); [discriminate |].
  destruct (round_pos n d) as [m' e']. intros [= <- <- <-].
  destruct (Z.ltb_spec n 0); [lia |]. destruct (Z.ltb_spec d 0); [lia |].
  reflexivity.
Qed.

(** Correctly rounded division is monotone in its numerator. *)
Lemma round_ratio_zero (d : Z) :
  0 < d -> round_ratio 0 d = Some (Finite false 0 0).
Proof.
  intros Hd. unfold round_ratio. cbn.
  destruct (Z.ltb_spec d 0); [lia | reflexivity].
Qed.

Lemma round_ratio_mono (n1 n2 d : Z) (s1 s2 : bool) (m1 e1 m2 e2 : Z) :
  0 <= n1 -> n1 <= n2 -> 0 < d ->
  round_ratio n1 d = Some (Finite s1 m1 e1) ->
  round_ratio n2 d = Some (Finite s2 m2 e2) ->
  (finite_value s1 m1 e1 <= finite_value s2 m2 e2)%Q.
Proof.
  intros H1 H12 Hd R1 R2.
  destruct (Z.eq_dec n2 0) as [Z2 | NZ2].
  - assert (n1 = n2) by lia. subst n1. rewrite R1 in R2.
    injection R2 as -> -> ->. apply Qle_refl.
  - rewrite (round_ratio_pos_value n2 d s2 m2 e2) by (assumption || lia).
    destruct (Z.eq_dec n1 0) as [Z1 | NZ1].
    + subst n1. rewrite (round_ratio_zero d Hd) in R1.
      injection R1 as <- <- <-.
      apply (rounded_nonneg n2 d); lia.
    + rewrite (round_ratio_pos_value n1 d s1 m1 e1) by (assumption || lia).
      apply rounded_mono; lia.
Qed.

(** A part of a positive whole always has a quotient. *)
Lemma round_ratio_fraction (a t : Z) :
  0 <= a <= t -> 0 < t -> exists f, round_ratio a t = Some f.
Proof.
  intros Ha Ht. unfold round_ratio, round_magnitude.
  rewrite (Z.abs_eq a), (Z.abs_eq t) by lia.
  destruct (Z.eqb_spec a 0); [eauto |].
  rewrite round_pos_fits; [destruct (round_pos a t); eauto | lia | lia |].
  assert (1 < 2 ^ 1024 - 2 ^ 970) by reflexivity. nia.
Qed.

End RoundingFacts.

(** ** Strings *)

Module StrFacts.
Import Spec.

Lemma sapp_nil (t : string) : "" +:+ t = t.
Proof. reflexivity. Qed.

Lemma sapp_cons (a : ascii) (s t : string) :
  String a s +:+ t = String a (s +:+ t).
Proof. reflexivity. Qed.

Lemma sapp_empty_r (s : string) : s +:+ "" = s.
Proof.
  induction s as [| a s IH]; [reflexivity |]. now rewrite sapp_cons, IH.
Qed.

Lemma sapp_assoc (a b c : string) : (a +:+ b) +:+ c = a +:+ (b +:+ c).
Proof.
  induction a as [| x a IH]; [reflexivity |]. now rewrite !sapp_cons, IH.
Qed.

(** Concatenations with a known head compute by rewriting. *)
Ltac push_app := rewrite ?sapp_cons, ?sapp_nil.

Lemma eqb_ascii_true (a b : ascii) : Str.eqb_ascii a b = true <-> a = b.
Proof. apply Ascii.eqb_eq. Qed.

Lemma eqb_ascii_false (a b : ascii) : Str.eqb_ascii a b = false <-> a <> b.
Proof. apply Ascii.eqb_neq. Qed.

Lemma startswith_spec (p s : string) :
  Str.startswith p s = true <-> exists b, s = p +:+ b.
Proof.
  revert s. induction p as [| x p IH]; intros s; cbn.
  - split; [eauto | reflexivity].
  - destruct s as [| y s].
    + split; [discriminate | intros [b Hb]; discriminate].
    + rewrite andb_true_iff, eqb_ascii_true, IH. split.
      * intros [-> [b ->]]. eauto.
      * intros [b [= -> ->]]. eauto.
Qed.

Lemma contains_spec (p s : string) :
  Str.contains p s = true <-> substring_of p s.
Proof.
  unfold substring_of. induction s as [| y s IH].
  - cbn. rewrite orb_false_r, startswith_spec. split.
    + intros [b Hb]. exists "", b. exact Hb.
    + intros [[| ? a] [b Hb]]; [eauto | discriminate].
  - cbn [Str.contains]. rewrite orb_true_iff, startswith_spec, IH. split.
    + intros [[b Hb] | [a [b Hb]]].
      * exists "", b. exact Hb.
      * exists (String y a), b. rewrite sapp_cons. now rewrite Hb.
    + intros [[| x a] [b Hb]].
      * left. eauto.
      * right. injection Hb as -> ->. eauto.
Qed.

Lemma endswith_spec (p s : string) :
  Str.endswith p s = true <-> suffix_of p s.
Proof.
  unfold suffix_of. induction s as [| y s IH].
  - cbn. rewrite orb_false_r, String.eqb_eq. split.
    + intros ->. exists "". reflexivity.
    + intros [[| ? a] Ha]; [exact (eq_sym Ha) | discriminate].
  - cbn [Str.endswith]. rewrite orb_true_iff, String.eqb_eq, IH. split.
    + intros [-> | [a ->]].
      * exists "". reflexivity.
      * exists (String y a). reflexivity.
    + intros [[| x a] Ha].
      * left. exact (eq_sym Ha).
      * right. injection Ha as -> ->. eauto.
Qed.

(** *** Splitting at a character *)

Lemma split_nonempty (c : ascii) (s : string) : Str.split c s <> [].
Proof.
  induction s as [| a s IH]; cbn; [discriminate |].
  destruct (Str.eqb_ascii a c); [discriminate |].
  destruct (Str.split c s); discriminate.
Qed.

Lemma split_whole (c : ascii) (s : string) :
  Str.has_char c s = false -> Str.split c s = [s].
Proof.
  induction s as [| a s IH]; cbn; [reflexivity |].
  intros [Ha Hs]%orb_false_iff. rewrite Ha, (IH Hs). reflexivity.
Qed.

Lemma split_app_sep (c : ascii) (a b : string) :
  Str.has_char c a = false ->
  Str.split c (a +:+ String c b) = a :: Str.split c b.
Proof.
  induction a as [| x a IH]; push_app; cbn.
  - intros _. unfold Str.eqb_ascii. now rewrite Ascii.eqb_refl.
  - intros [Hx Ha]%orb_false_iff. rewrite Hx, (IH Ha). reflexivity.
Qed.

Lemma split_single (c : ascii) (s w : string) :
  Str.split c s = [w] -> Str.has_char c s = false.
Proof.
  revert w. induction s as [| a s IH]; intros w; cbn; [reflexivity |].
  destruct (Str.eqb_ascii a c) eqn:E.
  - intros [= _ S]. now apply split_nonempty in S.
  - destruct (Str.split c s) as [| v vs] eqn:S.
    + now apply split_nonempty in S.
    + intros [= _ ->]. exact (IH v eq_refl).
Qed.

Lemma last_cons_nonempty (x : string) (l : list string) :
  l <> [] -> Str.last_item (x :: l) = Str.last_item l.
Proof. destruct l; [contradiction | reflexivity]. Qed.

Lemma last_split_no_sep (c : ascii) (s : string) :
  Str.has_char c (Str.last_item (Str.split c s)) = false.
Proof.
  induction s as [| a s IH]; cbn [Str.split]; [reflexivity |].
  destruct (Str.eqb_ascii a c) eqn:E.
  - rewrite last_cons_nonempty by apply split_nonempty. exact IH.
  - destruct (Str.split c s) as [| w ws] eqn:S.
    + now apply split_nonempty in S.
    + destruct ws as [| w' ws].
      * cbn in *. now rewrite E, IH.
      * exact IH.
Qed.

Lemma last_split_decomp (c : ascii) (s : string) :
  Str.has_char c s = true ->
  exists p, s = p +:+ String c (Str.last_item (Str.split c s)).
Proof.
  induction s as [| a s IH]; cbn [Str.has_char Str.split]; [discriminate |].
  destruct (Str.eqb_ascii a c) eqn:E.
  - intros _. apply eqb_ascii_true in E. subst a.
    rewrite last_cons_nonempty by apply split_nonempty.
    destruct (Str.has_char c s) eqn:Hs.
    + destruct (IH eq_refl) as [p Hp]. exists (String c p).
      rewrite sapp_cons. now rewrite <- Hp.
    + rewrite (split_whole c s Hs). exists "". reflexivity.
  - cbn [orb]. intros Hs. destruct (IH Hs) as [p Hp].
    destruct (Str.split c s) as [| w ws] eqn:S.
    + now apply split_nonempty in S.
    + destruct ws as [| w' ws].
      * (* a single piece would mean no separator *)
        apply split_single in S. congruence.
      * exists (String a p). rewrite sapp_cons. rewrite Hp at 1. reflexivity.
Qed.

Lemma partition_none (c : ascii) (s : string) :
  Str.has_char c s = false -> Str.partition c s = (s, false, "").
Proof.
  induction s as [| a s IH]; cbn; [reflexivity |].
  intros [Ha Hs]%orb_false_iff. now rewrite Ha, (IH Hs).
Qed.

Lemma remove_char_none (c : ascii) (s : string) :
  Str.has_char c s = false -> Str.remove_char c s = s.
Proof.
  induction s as [| a s IH]; cbn; [reflexivity |].
  intros [Ha Hs]%orb_false_iff. now rewrite Ha, (IH Hs).
Qed.

Lemma replace_char_none (c d : ascii) (s : string) :
  Str.has_char c s = false -> Str.replace_char c d s = s.
Proof.
  induction s as [| a s IH]; cbn; [reflexivity |].
  intros [Ha Hs]%orb_false_iff. now rewrite Ha, (IH Hs).
Qed.

Lemma has_char_app (c : ascii) (a b : string) :
  Str.has_char c (a +:+ b) = Str.has_char c a || Str.has_char c b.
Proof.
  induction a as [| x a IH]; push_app; cbn; [reflexivity |].
  now rewrite IH, orb_assoc.
Qed.

Lemma partition_app (c : ascii) (a b : string) :
  Str.has_char c a = false ->
  Str.partition c (a +:+ String c b) = (a, true, b).
Proof.
  induction a as [| x a IH]; push_app; cbn.
  - intros _. unfold Str.eqb_ascii. now rewrite Ascii.eqb_refl.
  - intros [Hx Ha]%orb_false_iff. now rewrite Hx, (IH Ha).
Qed.

Lemma remove_char_app (c : ascii) (a b : string) :
  Str.remove_char c (a +:+ b) = Str.remove_char c a +:+ Str.remove_char c b.
Proof.
  induction a as [| x a IH]; push_app; cbn; [reflexivity |].
  destruct (Str.eqb_ascii x c); now rewrite IH.
Qed.

Lemma lstrip_head (P : ascii -> bool) (a : ascii) (s : string) :
  P a = false -> Str.lstrip P (String a s) = String a s.
Proof. intros Hp. cbn. now rewrite Hp. Qed.

(** *** Searching across a separator that the pattern does not contain *)

Lemma startswith_app_sep (c : ascii) (p a b : string) :
  Str.has_char c p = false ->
  Str.startswith p (a +:+ String c b) = Str.startswith p a.
Proof.
  revert p. induction a as [| y a IH]; intros [| x p]; push_app; cbn;
    try reflexivity.
  - intros [Hx _]%orb_false_iff. now rewrite Hx.
  - intros [_ Hp]%orb_false_iff. now rewrite (IH p Hp).
Qed.

Lemma contains_app_sep (c : ascii) (p a b : string) :
  Str.has_char c p = false ->
  Str.contains p (a +:+ String c b) = Str.contains p a || Str.contains p b.
Proof.
  intros Hp. induction a as [| y a IH].
  - rewrite sapp_nil. cbn [Str.contains].
    rewrite <- (sapp_nil (String c b)), (startswith_app_sep c p "" b Hp).
    cbn. now rewrite orb_false_r.
  - rewrite sapp_cons. cbn [Str.contains].
    rewrite <- sapp_cons, (startswith_app_sep c p (String y a) b Hp), IH.
    now rewrite orb_assoc.
Qed.

(** *** Characters a string avoids *)

Lemma avoids_has_char (chars s : string) (c : ascii) :
  avoids chars s -> Str.has_char c chars = true -> Str.has_char c s = false.
Proof.
  unfold avoids. intros Hs Hc. induction s as [| a s IH]; [reflexivity |].
  cbn in *. apply andb_true_iff in Hs as [Ha Hs]. rewrite (IH Hs), orb_false_r.
  apply eqb_ascii_false. intros ->. rewrite Hc in Ha. discriminate.
Qed.

End StrFacts.

(** ** The program *)

Module Facts.
Import Spec Urllib CyberSapiens RoundingFacts StrFacts.
Local Open Scope io_scope.

Lemma new_events_emit (ev : event) (s : state) : new_events s (emit ev s) = [ev].
Proof.
  unfold new_events, emit. cbn [trace].
  rewrite drop_app_length. reflexivity.
Qed.

(** *** Metadata *)

Lemma get_video_info_failure (w : world) (url : string) (s : state) (e : exn) :
  outcome (extract_info w url false) = Err e ->
  get_video_info w url s =
    (Ok None, emit (StError ("Error fetching video info: " +:+ exn_msg e)) s).
Proof.
  intros He. unfold get_video_info, try_except, bindM, lift.
  rewrite He. reflexivity.
Qed.

(** C7: whatever exception the extraction backend raises during a
    metadata fetch, [get_video_info] catches it: it returns normally, its
    result is [None] (no metadata, not even partial), and its only effect
    is one [st.error] message made of a fixed prefix and the text of the
    exception. *)
Theorem C7_fetch_failure_is_caught
    (w : world) (url : string) (s : state) (e : exn) :
  outcome (extract_info w url false) = Err e ->
  let r := get_video_info w url s in
  fst r = Ok None /\
  new_events s (snd r) =
    [StError ("Error fetching video info: " +:+ exn_msg e)] /\
  session_state (snd r) = session_state s /\
  files (snd r) = files s.
Proof.
  intros He r. subst r. rewrite (get_video_info_failure w url s e He).
  cbn [fst snd]. rewrite new_events_emit. repeat split.
Qed.

Lemma get_video_info_success
    (w : world) (url : string) (s : state) (info : gmap string pyval) :
  outcome (extract_info w url false) = Ok info ->
  exists m,
    get_video_info w url s = (Ok (Some m), s) /\
    m !! "title" = Some (dict_get info "title" (PStr "Unknown Title")) /\
    m !! "description" =
      Some (dict_get info "description" (PStr "No description available")) /\
    m !! "uploader" = Some (dict_get info "uploader" (PStr "Unknown uploader")) /\
    m !! "view_count" = Some (dict_get info "view_count" (PInt 0)).
Proof.
  intros Hi. eexists. split.
  - unfold get_video_info, try_except, bindM, lift, ret. rewrite Hi. reflexivity.
  - repeat split; simplify_map_eq; reflexivity.
Qed.

Lemma dict_get_passes (info m : gmap string pyval) (k : string) (dflt : pyval) :
  m !! k = Some (dict_get info k dflt) -> passes_through info m k dflt.
Proof.
  unfold passes_through, dict_get. intros Hm. split.
  - intros Hk. now rewrite Hm, Hk.
  - intros v Hk. now rewrite Hm, Hk.
Qed.

(** C9: in the metadata that [get_video_info] returns, each documented
    default (title, description, uploader, view count) stands in only for
    a key that is absent from the backend's dictionary; a key that is
    present passes its value through unchanged, [None] included. *)
Theorem C9_defaults_only_for_absent_keys
    (w : world) (url : string) (s : state) (info : gmap string pyval) :
  outcome (extract_info w url false) = Ok info ->
  exists m,
    get_video_info w url s = (Ok (Some m), s) /\
    passes_through info m "title" (PStr "Unknown Title") /\
    passes_through info m "description" (PStr "No description available") /\
    passes_through info m "uploader" (PStr "Unknown uploader") /\
    passes_through info m "view_count" (PInt 0) /\
    (forall k, info !! k = Some PNone ->
       k ∈ ["title"; "description"; "uploader"; "view_count"] ->
       m !! k = Some PNone).
Proof.
  intros Hi.
  destruct (get_video_info_success w url s info Hi)
    as (m & Hm & Ht & Hd & Hu & Hv).
  exists m. split; [exact Hm |].
  pose proof (dict_get_passes _ _ _ _ Ht) as Pt.
  pose proof (dict_get_passes _ _ _ _ Hd) as Pd.
  pose proof (dict_get_passes _ _ _ _ Hu) as Pu.
  pose proof (dict_get_passes _ _ _ _ Hv) as Pv.
  repeat split; try (apply Pt || apply Pd || apply Pu || apply Pv).
  intros k Hk Hin.
  repeat (apply elem_of_cons in Hin as [-> | Hin]);
    [apply Pt | apply Pd | apply Pu | apply Pv | inversion Hin]; exact Hk.
Qed.

(** *** The progress hook *)

Lemma progress_hook_other_phase (d : gmap string pyval) (s : state) (v : pyval) :
  d !! "status" = Some v -> eq_str v "downloading" = false ->
  progress_hook d s = (Ok tt, s).
Proof.
  intros Hs Hv. unfold progress_hook, bindM, lift, getitem.
  rewrite Hs, Hv. reflexivity.
Qed.

Lemma has_key_true (d : gmap string pyval) (k : string) (v : pyval) :
  d !! k = Some v -> has_key d k = true.
Proof. intros Hk. unfold has_key. rewrite Hk. reflexivity. Qed.

Lemma has_key_false (d : gmap string pyval) (k : string) :
  d !! k = None -> has_key d k = false.
Proof. intros Hk. unfold has_key. rewrite Hk. reflexivity. Qed.

Lemma progress_hook_known_total
    (d : gmap string pyval) (s : state) (a b p : pyval) :
  d !! "status" = Some (PStr "downloading") ->
  d !! "downloaded_bytes" = Some a ->
  d !! "total_bytes" = Some b ->
  py_truediv a b = Ok p ->
  progress_hook d s = set_progress p s.
Proof.
  intros Hs Ha Hb Hp. unfold progress_hook, bindM, lift, getitem.
  rewrite Hs. cbn [eq_str]. rewrite String.eqb_refl.
  rewrite (has_key_true _ _ _ Hb), Ha, Hb. cbn [Py.bind]. rewrite Hp.
  reflexivity.
Qed.

Lemma progress_hook_unknown_total (d : gmap string pyval) (s : state) :
  d !! "status" = Some (PStr "downloading") ->
  d !! "total_bytes" = None ->
  progress_hook d s = set_progress (PInt 0) s.
Proof.
  intros Hs Hb. unfold progress_hook, bindM, lift, getitem.
  rewrite Hs. cbn [eq_str]. rewrite String.eqb_refl.
  rewrite (has_key_false _ _ Hb). reflexivity.
Qed.

(** C1, as the code has it: the hook of [download_video] touches the
    progress only for a callback in the downloading phase; when that
    callback carries [total_bytes], the progress becomes
    [downloaded_bytes / total_bytes]; when it does not, the progress is
    set to [0] (it is not left at its prior value). *)
Theorem C1_progress_hook_cases (d : gmap string pyval) (s : state) :
  (forall v, d !! "status" = Some v -> eq_str v "downloading" = false ->
     progress_hook d s = (Ok tt, s)) /\
  (forall a b p,
     d !! "status" = Some (PStr "downloading") ->
     d !! "downloaded_bytes" = Some a -> d !! "total_bytes" = Some b ->
     py_truediv a b = Ok p ->
     progress_hook d s = set_progress p s /\
     session_state (snd (progress_hook d s)) !! "progress" = Some p) /\
  (d !! "status" = Some (PStr "downloading") -> d !! "total_bytes" = None ->
     progress_hook d s = set_progress (PInt 0) s /\
     session_state (snd (progress_hook d s)) !! "progress" = Some (PInt 0)).
Proof.
  split; [| split].
  - intros v. apply progress_hook_other_phase.
  - intros a b p Hs Ha Hb Hp.
    rewrite (progress_hook_known_total d s a b p Hs Ha Hb Hp).
    split; [reflexivity |]. cbn. apply lookup_insert_eq.
  - intros Hs Hb. rewrite (progress_hook_unknown_total d s Hs Hb).
    split; [reflexivity |]. cbn. apply lookup_insert_eq.
Qed.

End Facts.

Module FormatFacts.
Import Spec Urllib CyberSapiens RoundingFacts StrFacts.

(** *** View counts *)

Lemma int_truediv_fits (n d : Z) :
  0 < n -> 0 < d -> fits_float n d -> exists x, int_truediv n d = Ok x.
Proof.
  intros Hn Hd Hf. unfold fits_float in Hf.
  rewrite (Z.abs_eq n), (Z.abs_eq d) in Hf by lia.
  unfold int_truediv, round_ratio, round_magnitude.
  rewrite (Z.abs_eq n), (Z.abs_eq d) by lia.
  destruct (Z.eqb_spec d 0); [lia |]. destruct (Z.eqb_spec n 0); [lia |].
  rewrite (round_pos_fits n d Hn Hd Hf). destruct (round_pos n d). eauto.
Qed.

Lemma int_truediv_overflow (n d : Z) :
  0 < n -> 0 < d -> ~ fits_float n d ->
  int_truediv n d =
    raise OverflowError "integer division result too large for a float".
Proof.
  intros Hn Hd Hf. unfold fits_float in Hf.
  rewrite (Z.abs_eq n), (Z.abs_eq d) in Hf by lia.
  unfold int_truediv, round_ratio, round_magnitude.
  rewrite (Z.abs_eq n), (Z.abs_eq d) by lia.
  destruct (Z.eqb_spec d 0); [lia |]. destruct (Z.eqb_spec n 0); [lia |].
  rewrite (round_pos_overflows n d Hn Hd); [reflexivity | lia].
Qed.

Lemma digit_limit_large : 1000 < 10 ^ max_str_digits.
Proof. reflexivity. Qed.

Lemma format_views_suffix (n d : Z) (suffix : string) :
  0 < n -> 0 < d -> fits_float n d ->
  exists x, int_truediv n d = Ok x /\
    (let! y := int_truediv n d in Ok (format_1f y +:+ suffix))
    = Ok (format_1f x +:+ suffix).
Proof.
  intros Hn Hd Hf. destruct (int_truediv_fits n d Hn Hd Hf) as [x Hx].
  exists x. rewrite Hx. split; reflexivity.
Qed.

(** C8, as the code has it: [format_views] answers ["No views"] for
    [None] and for zero, the decimal digits of a count below 1,000, and
    above that the count divided by 1,000, 1,000,000 or 1,000,000,000,
    printed with one decimal and the suffix K, M or B; the last case holds
    while the quotient still is a binary64 number, that is for counts
    below [10^9 * (2^1024 - 2^970)]; from that count on the division
    raises [OverflowError]. (At the other end, [str] refuses a negative
    count of more than 4300 digits.) The four examples of the
    specification follow. *)
Theorem C8_format_views_cases (n : Z) :
  format_views None = Ok "No views" /\
  format_views (Some 0) = Ok "No views" /\
  (n <> 0 -> n < 1000 -> - 10 ^ max_str_digits < n ->
     format_views (Some n) = Ok (digits n)) /\
  (n <= - 10 ^ max_str_digits -> format_views (Some n) = str_int n) /\
  (1000 <= n < 1000000 ->
     exists x, int_truediv n 1000 = Ok x /\
       format_views (Some n) = Ok (format_1f x +:+ "K")) /\
  (1000000 <= n < 1000000000 ->
     exists x, int_truediv n 1000000 = Ok x /\
       format_views (Some n) = Ok (format_1f x +:+ "M")) /\
  (1000000000 <= n -> fits_float n 1000000000 ->
     exists x, int_truediv n 1000000000 = Ok x /\
       format_views (Some n) = Ok (format_1f x +:+ "B")) /\
  (1000000000 <= n -> ~ fits_float n 1000000000 ->
     format_views (Some n) =
       raise OverflowError "integer division result too large for a float") /\
  format_views (Some 999) = Ok "999" /\
  format_views (Some 1500) = Ok "1.5K" /\
  format_views (Some 2300000) = Ok "2.3M" /\
  format_views (Some 4000000000) = Ok "4.0B".
Proof.
  split; [reflexivity |]. split; [reflexivity |].
  split; [| split; [| split; [| split; [| split; [| split]]]]].
  - intros Hz Hn Hl. unfold format_views, str_int.
    pose proof digit_limit_large as HL.
    set (L := 10 ^ max_str_digits) in *.
    destruct (Z.eqb_spec n 0); [contradiction |].
    destruct (Z.ltb_spec n 1000); [| lia].
    destruct (Z.leb_spec L (Z.abs n)); [lia | reflexivity].
  - intros Hn. unfold format_views.
    pose proof digit_limit_large as HL.
    set (L := 10 ^ max_str_digits) in *.
    destruct (Z.eqb_spec n 0); [lia |].
    destruct (Z.ltb_spec n 1000); [reflexivity | lia].
  - intros Hn. unfold format_views.
    destruct (Z.eqb_spec n 0); [lia |].
    destruct (Z.ltb_spec n 1000); [lia |].
    destruct (Z.ltb_spec n 1000000); [| lia].
    apply format_views_suffix; unfold fits_float; lia.
  - intros Hn. unfold format_views.
    destruct (Z.eqb_spec n 0); [lia |].
    destruct (Z.ltb_spec n 1000); [lia |].
    destruct (Z.ltb_spec n 1000000); [lia |].
    destruct (Z.ltb_spec n 1000000000); [| lia].
    apply format_views_suffix; unfold fits_float; lia.
  - intros Hn Hf. unfold format_views.
    destruct (Z.eqb_spec n 0); [lia |].
    destruct (Z.ltb_spec n 1000); [lia |].
    destruct (Z.ltb_spec n 1000000); [lia |].
    destruct (Z.ltb_spec n 1000000000); [lia |].
    apply format_views_suffix; [lia | lia | exact Hf].
  - intros Hn Hf. unfold format_views.
    destruct (Z.eqb_spec n 0); [lia |].
    destruct (Z.ltb_spec n 1000); [lia |].
    destruct (Z.ltb_spec n 1000000); [lia |].
    destruct (Z.ltb_spec n 1000000000); [lia |].
    rewrite int_truediv_overflow; [reflexivity | lia | lia | exact Hf].
  - repeat split; vm_compute; reflexivity.
Qed.

End FormatFacts.

Module IdFacts.
Section IdFacts.
Context `{Platform}.
Import Spec Urllib CyberSapiens RoundingFacts StrFacts.

(** *** Video ids *)

Lemma short_link_branch (url : string) :
  Str.contains "youtu.be" url = true ->
  get_youtube_id url = Ok (Some (Str.last_item (Str.split "/" url))).
Proof. intros Hc. unfold get_youtube_id. now rewrite Hc. Qed.

(** C10: every string that contains ["youtu.be"] anywhere goes through
    the short-link branch of [get_youtube_id]: the result is never [None],
    it is the text after the last ['/'] of the string (all of the string
    when it has no ['/']), possibly empty. *)
Theorem C10_short_link_never_none (url : string) :
  Str.contains "youtu.be" url = true ->
  exists s,
    get_youtube_id url = Ok (Some s) /\
    Str.has_char "/" s = false /\
    (Str.has_char "/" url = true -> exists p, url = p +:+ "/" +:+ s) /\
    (Str.has_char "/" url = false -> s = url).
Proof.
  intros Hc. exists (Str.last_item (Str.split "/" url)).
  split; [apply short_link_branch, Hc |].
  split; [apply last_split_no_sep |]. split.
  - intros Hs. exact (last_split_decomp "/" url Hs).
  - intros Hs. now rewrite (split_whole "/" url Hs).
Qed.

Lemma short_link_id (id : string) :
  Str.has_char "/" id = false ->
  get_youtube_id ("https://youtu.be/" +:+ id) = Ok (Some id).
Proof.
  intros Hid. rewrite short_link_branch.
  - change ("https://youtu.be/" +:+ id)
      with ("https:" +:+ String "/" ("" +:+ String "/" ("youtu.be" +:+ String "/" id))).
    rewrite !split_app_sep by reflexivity.
    rewrite (split_whole "/" id Hid). reflexivity.
  - apply contains_spec. exists "https://", ("/" +:+ id). reflexivity.
Qed.

Lemma plain_id_has_char (id : string) (c : ascii) :
  plain_id id -> Str.has_char c query_special = true ->
  Str.has_char c id = false.
Proof. intros (_ & Ha & _). now apply avoids_has_char. Qed.

Lemma span_until_app (P : ascii -> bool) (a : string) (c : ascii) (t : string) :
  Str.forallb (fun x => negb (P x)) a = true -> P c = true ->
  span_until P (a +:+ String c t) = (a, String c t).
Proof.
  intros Ha Hc. induction a as [| x a IH]; push_app; cbn.
  - now rewrite Hc.
  - cbn in Ha. apply andb_true_iff in Ha as [Hx Ha].
    apply negb_true_iff in Hx. now rewrite Hx, (IH Ha).
Qed.

Lemma split_scheme_https (t : string) :
  split_scheme ("https" +:+ String ":" t) = ("https", t).
Proof.
  unfold split_scheme. rewrite partition_app by reflexivity. reflexivity.
Qed.

Lemma split_netloc_plain (nl : string) (c : ascii) (t : string) :
  Str.forallb (fun x => negb (Str.has_char x "/?#")) nl = true ->
  Str.has_char c "/?#" = true ->
  Str.has_char "[" nl = false -> Str.has_char "]" nl = false ->
  split_netloc (String "/" (String "/" (nl +:+ String c t)))
  = Ok (nl, String c t).
Proof.
  intros Hnl Hc Ho Hcl. unfold split_netloc.
  rewrite (span_until_app _ nl c t Hnl Hc), Ho, Hcl. reflexivity.
Qed.

Lemma canonical_url_parse (id : string) :
  plain_id id ->
  urlparse ("https://www.youtube.com/watch?v=" +:+ id +:+ "&other=1")
  = Ok {| scheme := "https"; netloc := "www.youtube.com"; path := "/watch";
          params := ""; query := "v=" +:+ id +:+ "&other=1"; fragment := "" |}.
Proof.
  intros Hid.
  set (rest := id +:+ "&other=1").
  assert (R : forall c, Str.has_char c query_special = true ->
                        Str.has_char c "&other=1" = false ->
                        Str.has_char c rest = false).
  { intros c Hc Hc'. unfold rest.
    now rewrite has_char_app, (plain_id_has_char id c Hid Hc), Hc'. }
  unfold urlparse, urlsplit. cbv zeta.
  rewrite sapp_cons, lstrip_head by reflexivity.
  rewrite <- sapp_cons.
  rewrite !remove_char_app.
  rewrite !(remove_char_none _ rest) by (apply R; reflexivity).
  change (Str.remove_char "010" (Str.remove_char "013"
            (Str.remove_char "009" "https://www.youtube.com/watch?v=")) +:+ rest)
    with ("https" +:+ String ":" (String "/" (String "/"
            ("www.youtube.com" +:+ String "/" ("watch?v=" +:+ rest))))).
  rewrite split_scheme_https.
  rewrite split_netloc_plain by reflexivity.
  cbv beta iota. cbn [Py.bind].
  change (String "/" ("watch?v=" +:+ rest)) with ("/watch?v=" +:+ rest).
  rewrite (partition_none "#") by (rewrite has_char_app, R; reflexivity).
  change ("/watch?v=" +:+ rest) with ("/watch" +:+ String "?" ("v=" +:+ rest)).
  rewrite partition_app by reflexivity.
  reflexivity.
Qed.

Lemma unquote_plain (s : string) : Str.has_char "%" s = false -> unquote s = s.
Proof. intros Hs. unfold unquote. now rewrite Hs. Qed.

Lemma parse_field_plain (name value : string) :
  Str.has_char "=" name = false -> value <> "" ->
  Str.has_char "+" name = false -> Str.has_char "%" name = false ->
  Str.has_char "+" value = false -> Str.has_char "%" value = false ->
  parse_field (name +:+ String "=" value) = Some (name, value).
Proof.
  intros He Hv Hpn Hqn Hpv Hqv. unfold parse_field.
  rewrite partition_app by exact He.
  destruct value as [| a v]; [contradiction |]. cbn [Str.is_empty negb andb].
  rewrite !replace_char_none by assumption.
  now rewrite !unquote_plain by assumption.
Qed.

Lemma canonical_query (id : string) :
  plain_id id ->
  parse_qs ("v=" +:+ id +:+ "&other=1") !! "v" = Some [id].
Proof.
  intros Hid. pose proof Hid as (Hne & _ & _).
  unfold parse_qs, parse_qsl.
  change (Str.is_empty ("v=" +:+ id +:+ "&other=1")) with false. cbv iota.
  change ("v=" +:+ id +:+ "&other=1")
    with (("v=" +:+ id) +:+ String "&" "other=1").
  rewrite split_app_sep
    by (rewrite has_char_app, (plain_id_has_char id "&" Hid); reflexivity).
  change ("v=" +:+ id) with ("v" +:+ String "=" id).
  rewrite (split_whole "&" "other=1") by reflexivity.
  cbn [omap list_omap].
  rewrite (parse_field_plain "v" id)
    by (try reflexivity; try exact Hne;
        apply (plain_id_has_char _ _ Hid); reflexivity).
  change (parse_field "other=1") with (Some ("other", "1")).
  cbn [List.fold_left fst snd].
  rewrite lookup_empty, lookup_insert_ne by discriminate.
  rewrite lookup_empty, lookup_insert_ne by discriminate.
  apply lookup_insert_eq.
Qed.

Lemma canonical_not_short (id : string) :
  plain_id id ->
  Str.contains "youtu.be"
    ("https://www.youtube.com/watch?v=" +:+ id +:+ "&other=1") = false.
Proof.
  intros (_ & _ & Hc).
  change ("https://www.youtube.com/watch?v=" +:+ id +:+ "&other=1")
    with ("https://www.youtube.com/watch?v"
            +:+ String "=" (id +:+ String "&" "other=1")).
  rewrite !contains_app_sep by reflexivity. now rewrite Hc.
Qed.

Lemma canonical_id (id : string) :
  plain_id id ->
  get_youtube_id ("https://www.youtube.com/watch?v=" +:+ id +:+ "&other=1")
  = Ok (Some id).
Proof.
  intros Hid. unfold get_youtube_id.
  rewrite (canonical_not_short id Hid).
  assert (C : Str.contains "youtube.com"
                ("https://www.youtube.com/watch?v=" +:+ id +:+ "&other=1") = true).
  { apply contains_spec.
    exists "https://www.", ("/watch?v=" +:+ id +:+ "&other=1"). reflexivity. }
  rewrite C, (canonical_url_parse id Hid). cbn [Py.bind query].
  now rewrite (canonical_query id Hid).
Qed.

Lemma no_v_parameter (url : string) (parsed : ParseResult) :
  Str.contains "youtu.be" url = false ->
  Str.contains "youtube.com" url = true ->
  urlparse url = Ok parsed ->
  parse_qs (query parsed) !! "v" = None ->
  get_youtube_id url = Ok None.
Proof.
  intros Hs Hc Hp Hv. unfold get_youtube_id.
  now rewrite Hs, Hc, Hp; cbn [Py.bind]; rewrite Hv.
Qed.

(** C5, as the code has it: for every id without ['/'],
    [get_youtube_id] returns the id of the short link
    [https://youtu.be/{id}]; for every non-empty id that has none of the
    characters [& # + %], tab, line feed, carriage return and does not
    contain ["youtu.be"], it returns the id of the canonical URL
    [https://www.youtube.com/watch?v={id}&other=1]; and for a
    [youtube.com] URL whose query has no [v] parameter it returns
    [None]. *)
Theorem C5_extract_video_id :
  (forall id, Str.has_char "/" id = false ->
     get_youtube_id ("https://youtu.be/" +:+ id) = Ok (Some id)) /\
  (forall id, plain_id id ->
     get_youtube_id ("https://www.youtube.com/watch?v=" +:+ id +:+ "&other=1")
     = Ok (Some id)) /\
  (forall url parsed,
     Str.contains "youtu.be" url = false ->
     Str.contains "youtube.com" url = true ->
     urlparse url = Ok parsed ->
     parse_qs (query parsed) !! "v" = None ->
     get_youtube_id url = Ok None) /\
  get_youtube_id "https://www.youtube.com/watch?other=1" = Ok None.
Proof.
  split; [exact short_link_id |]. split; [exact canonical_id |].
  split; [exact no_v_parameter |]. reflexivity.
Qed.

End IdFacts.
End IdFacts.

Module ClassifyFacts.
Section ClassifyFacts.
Context `{Platform}.
Import Spec Urllib CyberSapiens RoundingFacts StrFacts.

(** *** Properties of all characters of a string *)

Lemma forallb_impl (P Q : ascii -> bool) (s : string) :
  (forall a, P a = true -> Q a = true) ->
  Str.forallb P s = true -> Str.forallb Q s = true.
Proof.
  intros HPQ. induction s as [| a s IH]; cbn; [reflexivity |].
  intros [Ha Hs]%andb_true_iff. now rewrite (HPQ a Ha), (IH Hs).
Qed.

Lemma forallb_no_char (P : ascii -> bool) (s : string) (c : ascii) :
  Str.forallb P s = true -> P c = false -> Str.has_char c s = false.
Proof.
  intros Hs Hc. induction s as [| a s IH]; [reflexivity |].
  cbn in *. apply andb_true_iff in Hs as [Ha Hs]. rewrite (IH Hs), orb_false_r.
  apply eqb_ascii_false. intros ->. congruence.
Qed.

Lemma forallb_lstrip (P Q : ascii -> bool) (s : string) :
  Str.forallb P s = true -> Str.forallb P (Str.lstrip Q s) = true.
Proof.
  induction s as [| a s IH]; cbn; [reflexivity |].
  intros Hs. destruct (Q a); [| exact Hs].
  apply andb_true_iff in Hs as [_ Hs]. exact (IH Hs).
Qed.

Lemma forallb_remove_char (P : ascii -> bool) (c : ascii) (s : string) :
  Str.forallb P s = true -> Str.forallb P (Str.remove_char c s) = true.
Proof.
  induction s as [| a s IH]; cbn; [reflexivity |].
  intros [Ha Hs]%andb_true_iff.
  destruct (Str.eqb_ascii a c); cbn; [| rewrite Ha]; exact (IH Hs).
Qed.

Lemma forallb_partition (P : ascii -> bool) (c : ascii) (s : string) :
  Str.forallb P s = true ->
  Str.forallb P (Str.partition c s).1.1 = true /\
  Str.forallb P (Str.partition c s).2 = true.
Proof.
  induction s as [| a s IH]; cbn; [split; reflexivity |].
  intros [Ha Hs]%andb_true_iff.
  destruct (Str.eqb_ascii a c); cbn; [split; [reflexivity | exact Hs] |].
  destruct (IH Hs) as [Hh Ht].
  destruct (Str.partition c s) as [[h f] t]. cbn in *. now rewrite Ha, Hh, Ht.
Qed.

Lemma forallb_span_until (P Q : ascii -> bool) (s : string) :
  Str.forallb P s = true ->
  Str.forallb P (span_until Q s).1 = true /\
  Str.forallb P (span_until Q s).2 = true.
Proof.
  induction s as [| a s IH]; cbn; [split; reflexivity |].
  intros Hs. destruct (Q a); cbn; [split; [reflexivity | exact Hs] |].
  apply andb_true_iff in Hs as [Ha Hs]. destruct (IH Hs) as [Hh Ht].
  destruct (span_until Q s) as [h t]. cbn in *. now rewrite Ha, Hh, Ht.
Qed.

Lemma forallb_split_scheme (P : ascii -> bool) (s : string) :
  Str.forallb P s = true -> Str.forallb P (split_scheme s).2 = true.
Proof.
  intros Hs. unfold split_scheme.
  destruct (forallb_partition P ":" s Hs) as [_ Ht].
  destruct (Str.partition ":" s) as [[h f] t]. cbn in Ht.
  destruct h as [| a h]; [exact Hs |].
  destruct (_ && _); [exact Ht | exact Hs].
Qed.

(** *** Parsing plain URLs *)

Lemma split_netloc_cases (url : string) :
  split_netloc url = Ok ("", url) \/
  exists rest, url = String "/" (String "/" rest).
Proof.
  destruct url as [| a [| b rest]]; [now left | |].
  - left. destruct a as [[] [] [] [] [] [] [] []]; reflexivity.
  - destruct a as [[] [] [] [] [] [] [] []]; try (left; reflexivity).
    destruct b as [[] [] [] [] [] [] [] []]; try (left; reflexivity).
    right. eauto.
Qed.

Lemma split_netloc_plain_chars (url : string) :
  Str.forallb plain_char url = true ->
  exists nl rest,
    split_netloc url = Ok (nl, rest) /\ Str.forallb plain_char nl = true.
Proof.
  intros Hu. destruct (split_netloc_cases url) as [E | [rest ->]].
  - rewrite E. eauto.
  - assert (Hr : Str.forallb plain_char rest = true).
    { cbn in Hu. apply andb_true_iff in Hu as [_ Hu].
      now apply andb_true_iff in Hu as [_ Hu]. }
    destruct (forallb_span_until plain_char
                (fun a => Str.has_char a "/?#") rest Hr) as [Hnl _].
    unfold split_netloc.
    destruct (span_until _ rest) as [nl url'] eqn:S. cbn in Hnl.
    assert (Ho : Str.has_char "[" nl = false)
      by (apply (forallb_no_char plain_char); [exact Hnl | reflexivity]).
    assert (Hc : Str.has_char "]" nl = false)
      by (apply (forallb_no_char plain_char); [exact Hnl | reflexivity]).
    rewrite Ho, Hc. cbn. eauto.
Qed.

Lemma checknetloc_ascii (nl : string) :
  Str.forallb Str.is_ascii_char nl = true -> checknetloc nl = Ok tt.
Proof.
  intros Hn. unfold checknetloc. rewrite Hn, orb_true_r. reflexivity.
Qed.

Lemma urlsplit_plain (url : string) :
  Str.forallb plain_char url = true -> exists parts, urlsplit url = Ok parts.
Proof.
  intros Hu. unfold urlsplit. cbv zeta.
  set (u := Str.remove_char _ _).
  assert (Hp : Str.forallb plain_char u = true).
  { unfold u. now repeat apply forallb_remove_char; apply forallb_lstrip. }
  pose proof (forallb_split_scheme plain_char u Hp) as Hs.
  destruct (split_scheme u) as [sch url1]. cbn in Hs.
  destruct (split_netloc_plain_chars url1 Hs) as (nl & rest & -> & Hnl).
  cbn [Py.bind].
  destruct (Str.partition "#" rest) as [[url2 ?] frag].
  destruct (Str.partition "?" url2) as [[url3 ?] qry].
  rewrite checknetloc_ascii; [cbn; eauto |].
  revert Hnl. apply forallb_impl. intros a Ha.
  now apply andb_true_iff in Ha as [Ha _].
Qed.

Lemma urlparse_plain (url : string) :
  Str.forallb plain_char url = true -> exists p, urlparse url = Ok p.
Proof.
  intros Hu. destruct (urlsplit_plain url Hu) as [[[[[sch nl] u] qry] frag] E].
  unfold urlparse. rewrite E. cbn [Py.bind].
  destruct (if (_ && _) then _ else _) as [u' prm]. eauto.
Qed.

(** *** Classification *)

Lemma classify_parsed (url : string) (p : ParseResult) :
  urlparse url = Ok p ->
  classify url =
    Ok (if existsb (fun domain => Str.contains domain (netloc p)) video_domains
        then Video
        else if existsb (fun ext => Str.endswith ext (Str.lower (path p)))
                  image_extensions
        then Image else Unsupported).
Proof.
  intros Hp. unfold classify, is_video_url, is_image_url. rewrite Hp.
  cbn [Py.bind]. destruct (existsb _ video_domains); [reflexivity |].
  destruct (existsb _ image_extensions); reflexivity.
Qed.

Lemma classify_unparsed (url : string) (e : exn) :
  urlparse url = Err e ->
  is_video_url url = Err e /\ is_image_url url = Err e /\ classify url = Err e.
Proof.
  intros Hp. unfold classify, is_video_url, is_image_url. rewrite Hp.
  repeat split.
Qed.

(** C3, as the code has it: classification maps a URL to exactly one of
    Video, Image and Unsupported whenever [urlparse] accepts the URL, which
    it does for every ASCII string without square brackets; when
    [urlparse] raises, [is_video_url], [is_image_url] and the
    classification raise the same exception. *)
Theorem C3_classify_total_on_parsed_urls (url : string) :
  (forall p, urlparse url = Ok p ->
     exists k, classify url = Ok k /\ forall k', classify url = Ok k' -> k' = k) /\
  (Str.forallb plain_char url = true -> exists k, classify url = Ok k) /\
  (forall e, urlparse url = Err e ->
     is_video_url url = Err e /\ is_image_url url = Err e /\
     classify url = Err e).
Proof.
  split; [| split].
  - intros p Hp. rewrite (classify_parsed url p Hp). eexists. split; [reflexivity |].
    now intros k' [= <-].
  - intros Hu. destruct (urlparse_plain url Hu) as [p Hp].
    rewrite (classify_parsed url p Hp). eauto.
  - apply classify_unparsed.
Qed.

Lemma existsb_elem (f : string -> bool) (l : list string) :
  existsb f l = true <-> exists x, x ∈ l /\ f x = true.
Proof.
  rewrite existsb_exists. split; intros (x & Hx & Hf); exists x; split;
    try exact Hf; now apply list_elem_of_In.
Qed.

(** C4, as the code has it: a URL that [urlparse] accepts is a Video when
    an allowlisted domain occurs in its network location (the whole
    authority: user information, host and port); failing that it is an
    Image when its path, put in lower case, ends with an allowlisted
    extension; and it is Unsupported otherwise. *)
Theorem C4_classify_by_netloc_then_extension (url : string) (p : ParseResult) :
  urlparse url = Ok p ->
  let video :=
    exists domain, domain ∈ video_domains /\ substring_of domain (netloc p) in
  let image :=
    exists ext, ext ∈ image_extensions /\ suffix_of ext (Str.lower (path p)) in
  (classify url = Ok Video <-> video) /\
  (classify url = Ok Image <-> ~ video /\ image) /\
  (classify url = Ok Unsupported <-> ~ video /\ ~ image).
Proof.
  intros Hp video image. rewrite (classify_parsed url p Hp).
  assert (V : existsb (fun d => Str.contains d (netloc p)) video_domains = true
              <-> video).
  { rewrite existsb_elem. unfold video.
    split; intros (d & Hd & Hc); exists d; split; try exact Hd;
      now apply contains_spec. }
  assert (I : existsb (fun x => Str.endswith x (Str.lower (path p)))
                image_extensions = true <-> image).
  { rewrite existsb_elem. unfold image.
    split; intros (x & Hx & Hc); exists x; split; try exact Hx;
      now apply endswith_spec. }
  destruct (existsb _ video_domains); [| destruct (existsb _ image_extensions)].
  - assert (video) by now apply V.
    repeat split; try discriminate; try tauto.
  - assert (~ video) by (intros Hv; apply V in Hv; discriminate).
    assert (image) by now apply I.
    repeat split; try discriminate; try tauto.
  - assert (~ video) by (intros Hv; apply V in Hv; discriminate).
    assert (~ image) by (intros Hi; apply I in Hi; discriminate).
    repeat split; try discriminate; try tauto.
Qed.

End ClassifyFacts.
End ClassifyFacts.

Module VideoFacts.
Section VideoFacts.
Context `{Platform}.
Import Spec Urllib CyberSapiens RoundingFacts StrFacts Facts.
Local Open Scope io_scope.

(** *** Traces *)

Lemma new_events_app (s s' : state) (es : list event) :
  trace s' = (trace s ++ es)%list -> new_events s s' = es.
Proof. intros E. unfold new_events. rewrite E. apply drop_app_length. Qed.

Lemma set_all_snoc (vs : list pyval) (v : pyval) (s : state) :
  set_all (vs ++ [v]) s = snd (set_progress v (set_all vs s)).
Proof. unfold set_all. now rewrite foldl_app. Qed.

Lemma set_all_trace (vs : list pyval) (s : state) :
  trace (set_all vs s) = (trace s ++ List.map SetProgress vs)%list.
Proof.
  revert s. induction vs as [| v vs IH]; intros s.
  - cbn. now rewrite List.app_nil_r.
  - change (set_all (v :: vs) s) with (set_all vs (snd (set_progress v s))).
    rewrite IH. cbn. now rewrite <- List.app_assoc.
Qed.

Lemma set_all_files (vs : list pyval) (s : state) :
  files (set_all vs s) = files s.
Proof.
  revert s. induction vs as [| v vs IH]; intros s; [reflexivity |].
  change (set_all (v :: vs) s) with (set_all vs (snd (set_progress v s))).
  now rewrite IH.
Qed.

Lemma set_all_last (vs : list pyval) (v : pyval) (s : state) :
  last vs = Some v -> session_state (set_all vs s) !! "progress" = Some v.
Proof.
  destruct vs as [| x vs] using rev_ind; [discriminate |].
  rewrite last_snoc. intros [= ->]. rewrite set_all_snoc. cbn.
  apply lookup_insert_eq.
Qed.

Lemma progress_values_set (vs : list pyval) :
  progress_values (List.map SetProgress vs) = vs.
Proof.
  unfold progress_values.
  induction vs as [| v vs IH]; cbn; [reflexivity | now f_equal].
Qed.

(** *** The hooks under a well-behaved backend *)

Lemma int_truediv_finite (a b : Z) (f : float) :
  int_truediv a b = Ok f ->
  exists s m e, f = Finite s m e /\ round_ratio a b = Some (Finite s m e).
Proof.
  unfold int_truediv. destruct (b =? 0); [discriminate |].
  destruct (round_ratio a b) as [g |] eqn:R; [| discriminate].
  intros [= <-]. unfold round_ratio in *.
  destruct (round_magnitude _ _) as [[m e] |]; [| discriminate].
  injection R as <-. eauto.
Qed.

Lemma int_truediv_fraction (a t : Z) :
  0 <= a <= t -> 0 < t -> exists f, int_truediv a t = Ok f.
Proof.
  intros Ha Ht. destruct (round_ratio_fraction a t Ha Ht) as (g & R).
  unfold int_truediv. destruct (Z.eqb_spec t 0); [lia |]. rewrite R. eauto.
Qed.

Lemma run_hooks_reports (t : Z) (calls : list (gmap string pyval))
    (obs : list (option Z)) :
  0 < t -> Forall2 (observes t) calls obs ->
  Forall (fun a => 0 <= a <= t) (reported obs) ->
  exists fs,
    Forall2 (fun a f => int_truediv a t = Ok f) (reported obs) fs /\
    forall s, run_hooks calls s = (Ok tt, set_all (List.map PFloat fs) s).
Proof.
  intros Ht HR. induction HR as [| d o calls obs Ho HR IH]; intros HB.
  - exists []. split; [constructor | reflexivity].
  - destruct o as [a |].
    + destruct Ho as (Hs & Ha & Hb).
      change (reported (Some a :: obs)) with (a :: reported obs) in *.
      apply Forall_cons in HB as [Ha0 HB].
      destruct (IH HB) as (fs & Hfs & Hrun).
      destruct (int_truediv_fraction a t Ha0 Ht) as [f Hf].
      exists (f :: fs). split; [now constructor |].
      intros s. cbn [run_hooks]. unfold bindM at 1.
      rewrite (progress_hook_known_total d s (PInt a) (PInt t) (PFloat f)
                 Hs Ha Hb).
      * cbn [set_progress]. rewrite Hrun. reflexivity.
      * cbn. now rewrite Hf.
    + destruct Ho as (v & Hs & Hv).
      change (reported (None :: obs)) with (reported obs) in *.
      destruct (IH HB) as (fs & Hfs & Hrun).
      exists fs. split; [exact Hfs |].
      intros s. cbn [run_hooks]. unfold bindM at 1.
      rewrite (progress_hook_other_phase d s v Hs Hv). apply Hrun.
Qed.

Lemma ascending_in_range (t : Z) (bytes : list Z) :
  ascending t bytes -> Forall (fun a => 0 <= a <= t) bytes.
Proof.
  intros Ha. apply Forall_lookup. intros i a Hi.
  destruct (Ha i i a a (le_n i) Hi Hi) as (? & ? & ?). lia.
Qed.

Lemma py_le_rounded (a b t : Z) (f g : float) :
  0 <= a -> a <= b -> 0 < t ->
  int_truediv a t = Ok f -> int_truediv b t = Ok g ->
  py_le (PFloat f) (PFloat g).
Proof.
  intros Ha Hab Ht Hf Hg.
  destruct (int_truediv_finite a t f Hf) as (s1 & m1 & e1 & -> & R1).
  destruct (int_truediv_finite b t g Hg) as (s2 & m2 & e2 & -> & R2).
  unfold py_le. cbn [to_Q].
  exact (round_ratio_mono a b t s1 s2 m1 e1 m2 e2 Ha Hab Ht R1 R2).
Qed.

Lemma py_le_zero_rounded (b t : Z) (g : float) :
  0 <= b -> 0 < t -> int_truediv b t = Ok g -> py_le (PInt 0) (PFloat g).
Proof.
  intros Hb Ht Hg.
  destruct (int_truediv_finite b t g Hg) as (s2 & m2 & e2 & -> & R2).
  unfold py_le. cbn [to_Q].
  pose proof (round_ratio_mono 0 b t false s2 0 0 m2 e2 (Z.le_refl 0) Hb Ht
                (round_ratio_zero t Ht) R2) as L.
  eapply Qle_trans; [| exact L]. discriminate.
Qed.

Lemma nondecreasing_video (t : Z) (bytes : list Z) (fs : list float) :
  0 < t -> ascending t bytes ->
  Forall2 (fun a f => int_truediv a t = Ok f) bytes fs ->
  nondecreasing (PInt 0 :: List.map PFloat fs).
Proof.
  intros Ht Ha Hfs i j x y Hij Hx Hy.
  destruct j as [| j].
  - assert (i = 0%nat) by lia. subst i. cbn in Hx, Hy.
    injection Hx as <-. injection Hy as <-. unfold py_le. cbn. discriminate.
  - cbn in Hy. apply list_lookup_fmap_Some_1 in Hy as (g & -> & Hg).
    destruct (Forall2_lookup_r _ _ _ _ _ Hfs Hg) as (b & Hb & Rb).
    destruct (Ha j j b b (le_n j) Hb Hb) as (Hb0 & _ & _).
    destruct i as [| i].
    + cbn in Hx. injection Hx as <-. exact (py_le_zero_rounded b t g Hb0 Ht Rb).
    + cbn in Hx. apply list_lookup_fmap_Some_1 in Hx as (f & -> & Hf).
      destruct (Forall2_lookup_r _ _ _ _ _ Hfs Hf) as (a & Hal & Ra).
      destruct (Ha i j a b ltac:(lia) Hal Hb) as (Ha0 & Hab & _).
      exact (py_le_rounded a b t f g Ha0 Hab Ht Ra Rb).
Qed.

Lemma download_video_state (w : world) (url output_path : string) (s : state)
    (t : Z) (obs : list (option Z)) :
  0 < t ->
  Forall2 (observes t) (hook_calls (extract_info w url true)) obs ->
  ascending t (reported obs) ->
  exists fs,
    Forall2 (fun a f => int_truediv a t = Ok f) (reported obs) fs /\
    snd (download_video w url output_path s)
      = set_all (PInt 0 :: List.map PFloat fs) s /\
    forall info title text,
      outcome (extract_info w url true) = Ok info ->
      info !! "title" = Some title -> py_str title = Ok text ->
      fst (download_video w url output_path s)
        = Ok (true, "Successfully downloaded: " +:+ text).
Proof.
  intros Ht HR Ha.
  destruct (run_hooks_reports t _ obs Ht HR (ascending_in_range t _ Ha))
    as (fs & Hfs & Hrun).
  exists fs. split; [exact Hfs |].
  unfold download_video, try_except, bindM.
  cbn [set_progress]. rewrite Hrun. unfold lift, getitem. split.
  - destruct (outcome (extract_info w url true)) as [info | e];
      [destruct (info !! "title") as [title |];
       [destruct (py_str title) |] |]; reflexivity.
  - intros info title text Ho Hti Hte. rewrite Ho, Hti. cbn. rewrite Hte.
    reflexivity.
Qed.

End VideoFacts.
End VideoFacts.

Module ImageFacts.
Section ImageFacts.
Context `{Platform}.
Import Spec Urllib CyberSapiens RoundingFacts StrFacts Facts VideoFacts.
Local Open Scope io_scope.

(** *** The blocks of a body *)

Lemma blocks_concat (fuel bs : nat) (body : list byte) :
  (0 < bs)%nat -> (length body <= fuel)%nat ->
  concat (blocks fuel bs body) = body.
Proof.
  intros Hbs. revert body. induction fuel as [| fuel IH]; intros body Hl.
  - destruct body; [reflexivity | cbn in Hl; lia].
  - destruct body as [| x body]; [reflexivity |].
    cbn [blocks concat]. rewrite IH.
    + apply take_drop.
    + rewrite length_drop. cbn [length] in *. lia.
Qed.


(** *** The loop of [download_image] *)

Lemma write_blocks_trace (filepath : string) (n : Z)
    (chunks : list (list byte)) (d : Z) (s : state) :
  trace (snd (write_blocks filepath n chunks d s))
  = (trace s ++ block_events filepath n chunks d)%list.
Proof.
  revert d s. induction chunks as [| c chunks IH]; intros d s.
  - cbn. now rewrite List.app_nil_r.
  - cbn [write_blocks block_events]. unfold bindM, lift. cbn [file_write].
    destruct (int_truediv (d + Z.of_nat (length c)) n) as [f | e].
    + cbn [set_progress]. rewrite IH. cbn [trace emit].
      rewrite <- !List.app_assoc. reflexivity.
    + cbn [snd trace emit]. reflexivity.
Qed.

Lemma progress_sorted_cons (x : pyval) (l : list pyval) :
  py_le x x -> (forall y, y ∈ l -> py_le x y) -> nondecreasing l ->
  nondecreasing (x :: l).
Proof.
  intros Hx Hl Hs i j a b Hij Ha Hb.
  destruct i as [| i], j as [| j]; cbn in Ha, Hb; try lia.
  - injection Ha as <-. injection Hb as <-. exact Hx.
  - injection Ha as <-. apply Hl. eapply list_elem_of_lookup_2, Hb.
  - apply (Hs i j a b); [lia | assumption | assumption].
Qed.

Lemma nondecreasing_nil : nondecreasing [].
Proof. intros i j x y _ Hx. discriminate. Qed.

Lemma block_progress_from (filepath : string) (n : Z)
    (chunks : list (list byte)) (d : Z) (v : pyval) :
  v ∈ progress_values (block_events filepath n chunks d) ->
  exists d' f, d <= d' /\ int_truediv d' n = Ok f /\ v = PFloat f.
Proof.
  revert d. induction chunks as [| c chunks IH]; intros d.
  - cbn. intros Hv. inversion Hv.
  - cbn [block_events]. unfold progress_values. cbn [omap list_omap].
    destruct (int_truediv (d + Z.of_nat (length c)) n) as [f | e] eqn:E.
    + cbn [omap list_omap]. intros [-> | Hv]%elem_of_cons.
      * exists (d + Z.of_nat (length c)), f. repeat split; [lia | exact E].
      * destruct (IH _ Hv) as (d' & g & Hd & Hg & ->).
        exists d', g. repeat split; [lia | exact Hg].
    + cbn. intros Hv. inversion Hv.
Qed.

Lemma block_progress_sorted (filepath : string) (n : Z)
    (chunks : list (list byte)) (d : Z) :
  0 < n -> 0 <= d ->
  nondecreasing (progress_values (block_events filepath n chunks d)).
Proof.
  intros Hn. revert d. induction chunks as [| c chunks IH]; intros d Hd.
  - apply nondecreasing_nil.
  - cbn [block_events]. unfold progress_values. cbn [omap list_omap].
    destruct (int_truediv (d + Z.of_nat (length c)) n) as [f | e] eqn:E;
      [| apply nondecreasing_nil].
    cbn [omap list_omap]. apply progress_sorted_cons.
    + eapply py_le_rounded; [| | exact Hn | exact E | exact E]; lia.
    + intros y Hy. destruct (block_progress_from _ _ _ _ _ Hy) as (d' & g & Hd' & Hg & ->).
      eapply py_le_rounded; [| exact Hd' | exact Hn | exact E | exact Hg]. lia.
    + apply IH. lia.
Qed.

(** *** [download_image] as a whole *)

Lemma download_image_run (w : world) (url output_path : string) (s : state)
    (resp : response) (p : ParseResult) (filename : string) (total : Z) :
  requests_get w url = Ok resp -> raise_for_status resp = Ok tt ->
  urlparse url = Ok p -> image_filename w p = Ok filename ->
  content_length resp = Ok total ->
  let filepath := path_join output_path filename in
  open_wb w filepath = Ok tt ->
  download_image w url output_path s =
    if total =? 0 then
      match stream_error resp with
      | None =>
          (Ok (true, "Successfully downloaded: " +:+ filename),
           snd (file_write filepath (content resp) (opened filepath s)))
      | Some e =>
          (Ok (false, "Error downloading image: " +:+ exn_msg e),
           opened filepath s)
      end
    else
      match write_blocks filepath total (fst (iter_content resp 1024)) 0
              (opened filepath s) with
      | (Ok _, s2) =>
          match stream_error resp with
          | None => (Ok (true, "Successfully downloaded: " +:+ filename), s2)
          | Some e =>
              (Ok (false, "Error downloading image: " +:+ exn_msg e), s2)
          end
      | (Err e, s2) =>
          (Ok (false, "Error downloading image: " +:+ exn_msg e), s2)
      end.
Proof.
  intros Hg Hst Hp Hf Hc filepath Ho.
  unfold download_image, try_except, bindM, lift, open_file, bindM, lift.
  rewrite Hg, Hst, Hp. fold (image_filename w p). rewrite Hf.
  fold filepath. unfold content_length in Hc. rewrite Hc, Ho.
  fold (opened filepath s).
  destruct (total =? 0).
  - unfold response_content. destruct (stream_error resp); reflexivity.
  - unfold iter_content, end_of_loop. cbn [fst].
    destruct (write_blocks _ _ _ _ _) as [[[] | e] s2];
      [destruct (stream_error resp) |]; reflexivity.
Qed.

Lemma download_image_progress_values
    (w : world) (url output_path : string) (s : state) :
  exists es,
    trace (snd (download_image w url output_path s)) = (trace s ++ es)%list /\
    (progress_values es = [] \/
     exists resp total filepath,
       requests_get w url = Ok resp /\ content_length resp = Ok total /\
       total <> 0 /\
       progress_values es =
         progress_values
           (block_events filepath total (fst (iter_content resp 1024)) 0)).
Proof.
  unfold download_image, try_except, bindM, lift, open_file, bindM, lift.
  destruct (requests_get w url) as [resp | e] eqn:Hg;
    [| exists []; rewrite List.app_nil_r; split; [reflexivity | now left]].
  destruct (raise_for_status resp) as [[] | e];
    [| exists []; rewrite List.app_nil_r; split; [reflexivity | now left]].
  destruct (urlparse url) as [p | e];
    [| exists []; rewrite List.app_nil_r; split; [reflexivity | now left]].
  fold (image_filename w p).
  destruct (image_filename w p) as [filename | e];
    [| exists []; rewrite List.app_nil_r; split; [reflexivity | now left]].
  fold (content_length resp).
  destruct (content_length resp) as [total | e] eqn:Hc;
    [| exists []; rewrite List.app_nil_r; split; [reflexivity | now left]].
  set (filepath := path_join output_path filename).
  destruct (open_wb w filepath) as [[] | e];
    [| exists []; rewrite List.app_nil_r; split; [reflexivity | now left]].
  fold (opened filepath s).
  destruct (Z.eqb_spec total 0) as [E | NE].
  - unfold response_content. destruct (stream_error resp) as [e |].
    + exists [FileOpen filepath]. split; [reflexivity | now left].
    + exists [FileOpen filepath; FileWrite filepath (content resp)].
      split; [| now left]. cbn. now rewrite <- List.app_assoc.
  - exists (FileOpen filepath
            :: block_events filepath total (fst (iter_content resp 1024)) 0).
    pose proof (write_blocks_trace filepath total
                  (fst (iter_content resp 1024)) 0 (opened filepath s)) as T.
    change (trace (opened filepath s)) with (trace s ++ [FileOpen filepath])%list
      in T.
    rewrite <- List.app_assoc in T. cbn [app] in T.
    unfold iter_content, end_of_loop in *. cbn [fst] in *.
    destruct (write_blocks _ _ _ _ _) as [[[] | e] s2]; cbn [snd] in T;
      [destruct (stream_error resp) | ];
      (split; [exact T |]);
      right; exists resp, total, filepath; repeat split;
      reflexivity || assumption.
Qed.

Lemma content_length_sign (w : world) (url : string) (resp : response) (n : Z) :
  length_not_negative w url -> requests_get w url = Ok resp ->
  content_length resp = Ok n -> 0 <= n.
Proof.
  intros Hl Hg Hc. unfold content_length in Hc.
  destruct (headers resp !! "content-length") as [h |] eqn:Hh.
  - exact (Hl resp h n Hg Hh Hc).
  - injection Hc as <-. lia.
Qed.

Lemma download_image_sorted (w : world) (url output_path : string) (s : state) :
  length_not_negative w url ->
  nondecreasing
    (progress_values (new_events s (snd (download_image w url output_path s)))).
Proof.
  intros Hl.
  destruct (download_image_progress_values w url output_path s)
    as (es & T & [E | (resp & total & filepath & Hg & Hc & Hn & E)]);
    rewrite (new_events_app _ _ es T), E.
  - apply nondecreasing_nil.
  - apply block_progress_sorted; [| lia].
    pose proof (content_length_sign w url resp total Hl Hg Hc). lia.
Qed.

(** *** The loop when every division has a quotient *)

Lemma int_truediv_part (a b : Z) :
  0 <= a -> b <> 0 -> fits_float a b -> exists f, int_truediv a b = Ok f.
Proof.
  intros Ha Hb Hf. unfold fits_float in Hf.
  unfold int_truediv, round_ratio, round_magnitude.
  destruct (Z.eqb_spec b 0); [contradiction |].
  destruct (Z.eqb_spec (Z.abs a) 0); [eauto |].
  rewrite round_pos_fits; [| lia | lia | exact Hf].
  destruct (round_pos _ _). eauto.
Qed.

Lemma concat_take_length (chunks : list (list byte)) (k : nat) :
  (length (concat (take k chunks)) <= length (concat chunks))%nat.
Proof.
  rewrite <- (take_drop k chunks) at 2. rewrite concat_app, length_app. lia.
Qed.


Lemma write_blocks_ok (filepath : string) (n : Z)
    (chunks : list (list byte)) (d : Z) (s : state) (old : list byte) :
  (forall k c, chunks !! k = Some c ->
     exists f, int_truediv
                 (d + Z.of_nat (length (concat (take (S k) chunks)))) n = Ok f) ->
  files s !! filepath = Some old ->
  fst (write_blocks filepath n chunks d s) = Ok tt /\
  files (snd (write_blocks filepath n chunks d s)) !! filepath
    = Some (old ++ concat chunks)%list.
Proof.
  revert d s old. induction chunks as [| c0 chunks IH]; intros d s old Hq Hold.
  - cbn. rewrite List.app_nil_r. split; [reflexivity | exact Hold].
  - destruct (Hq 0%nat c0 eq_refl) as [f0 Hf0].
    cbn [take concat] in Hf0. rewrite List.app_nil_r in Hf0.
    assert (Hq' : forall k c, chunks !! k = Some c ->
              exists f, int_truediv
                (d + Z.of_nat (length c0)
                 + Z.of_nat (length (concat (take (S k) chunks)))) n = Ok f).
    { intros k c Hk. destruct (Hq (S k) c Hk) as [f Hf]. exists f.
      rewrite <- Hf. f_equal. cbn [take concat]. rewrite length_app. lia. }
    cbn [write_blocks]. unfold bindM, lift. cbn [file_write]. rewrite Hf0.
    cbn [set_progress].
    match goal with |- context [write_blocks _ _ _ _ ?s1] =>
      destruct (IH (d + Z.of_nat (length c0)) s1 (old ++ c0)%list Hq') as [R F]
    end.
    + cbn. rewrite Hold. cbn. apply lookup_insert_eq.
    + split; [exact R |]. rewrite F. cbn [concat].
      now rewrite List.app_assoc.
Qed.

Lemma progress_untouched_by_writes (filepath : string) (data : list byte)
    (s : state) :
  session_state (snd (file_write filepath data (opened filepath s)))
  = session_state s.
Proof. reflexivity. Qed.

Lemma int_truediv_self (t : Z) : t <> 0 -> int_truediv t t = Ok float_one.
Proof.
  intros Ht. unfold int_truediv. destruct (Z.eqb_spec t 0); [contradiction |].
  now rewrite round_ratio_self.
Qed.

Lemma video_values (w : world) (url output_path : string) (s : state)
    (t : Z) (obs : list (option Z)) :
  0 < t ->
  Forall2 (observes t) (hook_calls (extract_info w url true)) obs ->
  ascending t (reported obs) ->
  exists fs,
    Forall2 (fun a f => int_truediv a t = Ok f) (reported obs) fs /\
    snd (download_video w url output_path s)
      = set_all (PInt 0 :: List.map PFloat fs) s /\
    progress_values (new_events s (snd (download_video w url output_path s)))
      = PInt 0 :: List.map PFloat fs.
Proof.
  intros Ht HR Ha.
  destruct (download_video_state w url output_path s t obs Ht HR Ha)
    as (fs & Hfs & Hs & _).
  exists fs. split; [exact Hfs |]. split; [exact Hs |].
  rewrite Hs, (new_events_app s _ _ (set_all_trace _ s)).
  apply progress_values_set.
Qed.

(** C2, as the code has it: the progress assigned during a download
    mirrors what the backend or the server reports. During a video
    download each of whose callbacks is either of another phase than the
    downloading one (as the [finished] callback that ends a download) or
    a downloading callback that reports a byte count, the counts never
    decreasing between 0 and a fixed positive [total_bytes], the progress
    values never decrease; and when the last count reported is all the
    bytes and the download succeeds the progress ends at exactly [1.0].
    During an image download the progress values never decrease as long
    as the announced length is not negative. *)
Theorem C2_progress_follows_the_reports :
  (forall (w : world) (url output_path : string) (s : state)
          (t : Z) (obs : list (option Z)),
     0 < t ->
     Forall2 (observes t) (hook_calls (extract_info w url true)) obs ->
     ascending t (reported obs) ->
     let r := download_video w url output_path s in
     nondecreasing (progress_values (new_events s (snd r))) /\
     (forall info title text,
        outcome (extract_info w url true) = Ok info ->
        info !! "title" = Some title -> py_str title = Ok text ->
        last (reported obs) = Some t ->
        fst r = Ok (true, "Successfully downloaded: " +:+ text) /\
        last (progress_values (new_events s (snd r)))
          = Some (PFloat float_one) /\
        session_state (snd r) !! "progress" = Some (PFloat float_one))) /\
  (forall (w : world) (url output_path : string) (s : state),
     length_not_negative w url ->
     nondecreasing
       (progress_values
          (new_events s (snd (download_image w url output_path s))))).
Proof.
  split; [| exact download_image_sorted].
  intros w url output_path s t obs Ht HR Ha r. subst r.
  destruct (video_values w url output_path s t obs Ht HR Ha)
    as (fs & Hfs & Hs & Hv).
  rewrite Hv. split; [exact (nondecreasing_video t _ fs Ht Ha Hfs) |].
  intros info title text Ho Hti Hte Hl.
  destruct (download_video_state w url output_path s t obs Ht HR Ha)
    as (fs' & _ & _ & Hr).
  split; [exact (Hr info title text Ho Hti Hte) |].
  assert (L : last (List.map PFloat fs) = Some (PFloat float_one)).
  { rewrite last_lookup in Hl.
    destruct (Forall2_lookup_l _ _ _ _ _ Hfs Hl) as (f & Hf & Rf).
    rewrite (int_truediv_self t) in Rf by lia. injection Rf as <-.
    change (List.map PFloat fs) with (PFloat <$> fs).
    rewrite fmap_last, last_lookup.
    rewrite <- (Forall2_length _ _ _ Hfs), Hf. reflexivity. }
  assert (L' : last (PInt 0 :: List.map PFloat fs) = Some (PFloat float_one)).
  { rewrite last_cons, L. reflexivity. }
  split; [exact L' |]. rewrite Hs. now apply set_all_last.
Qed.



End ImageFacts.
End ImageFacts.

(** ** The claims at concrete inputs *)

Module Checks.
Import Spec Urllib CyberSapiens Examples.
Import Facts FormatFacts IdFacts ClassifyFacts VideoFacts ImageFacts.

Lemma ascending_pair (t a b : Z) : 0 <= a <= b -> b <= t -> ascending t [a; b].
Proof.
  intros Hab Hb i j x y Hij Hx Hy.
  destruct i as [| [| i]], j as [| [| j]]; cbn in Hx, Hy;
    try discriminate; try lia;
    injection Hx as <-; injection Hy as <-; lia.
Qed.

Lemma unbalanced_bracket_raises `{Platform} :
  urlparse "http://[" = raise ValueError "Invalid IPv6 URL".
Proof. reflexivity. Qed.

(** C1 fails as stated: after a callback that set the progress to [0.5],
    a downloading callback without [total_bytes] does not leave the
    progress at that value but sets it to [0]. *)
Lemma C1_unknown_total_resets_progress :
  let s := snd (progress_hook (downloading 350 700) fresh_session) in
  let d := downloading_unknown 700 in
  d !! "status" = Some (PStr "downloading") /\
  d !! "total_bytes" = None /\
  session_state s !! "progress" = Some (PFloat (Finite false 4503599627370496 (-53))) /\
  session_state (snd (progress_hook d s)) !! "progress" = Some (PInt 0) /\
  session_state (snd (progress_hook d s)) !! "progress"
    <> session_state s !! "progress".
Proof. repeat split; try (vm_compute; reflexivity). vm_compute. discriminate. Qed.

Lemma C1_witness :
  progress_hook finished fresh_session = (Ok tt, fresh_session) /\
  session_state (snd (progress_hook (downloading 350 700) fresh_session))
    !! "progress" = Some (PFloat (Finite false 4503599627370496 (-53))) /\
  session_state (snd (progress_hook (downloading_unknown 700) fresh_session))
    !! "progress" = Some (PInt 0).
Proof.
  split; [| split].
  - apply (proj1 (C1_progress_hook_cases finished fresh_session)
             (PStr "finished")); reflexivity.
  - apply (proj1 (proj2 (C1_progress_hook_cases (downloading 350 700)
                           fresh_session)) (PInt 350) (PInt 700));
      vm_compute; reflexivity.
  - apply (proj2 (proj2 (C1_progress_hook_cases (downloading_unknown 700)
                           fresh_session))); vm_compute; reflexivity.
Defined.

(** C2 fails as stated: a backend that reports 500 and then 200 bytes out
    of 1000, both within range, and then succeeds, makes the progress go
    from [0.5] down to [0.2], where it stays. *)
Lemma C2_progress_can_decrease :
  let w := backend [downloading 500 1000; downloading 200 1000] (Ok clip_info) in
  let r := download_video (H:=lenient) w "https://youtu.be/x" "Videos"
             fresh_session in
  let vs := progress_values (new_events fresh_session (snd r)) in
  fst r = Ok (true, "Successfully downloaded: clip") /\
  vs = [PInt 0; PFloat (Finite false 4503599627370496 (-53));
        PFloat (Finite false 7205759403792794 (-55))] /\
  ~ nondecreasing vs /\
  last vs <> Some (PFloat float_one).
Proof.
  split; [vm_compute; reflexivity |]. split; [vm_compute; reflexivity |]. split.
  - intros Hn.
    specialize (Hn 1%nat 2%nat _ _ ltac:(lia) eq_refl eq_refl).
    vm_compute in Hn. exact (Hn eq_refl).
  - vm_compute. discriminate.
Qed.

Lemma C2_witness :
  let w := backend [downloading 250 1000; downloading 1000 1000; finished]
             (Ok clip_info) in
  let r := download_video (H:=lenient) w "https://youtu.be/x" "Videos"
             fresh_session in
  nondecreasing (progress_values (new_events fresh_session (snd r))) /\
  fst r = Ok (true, "Successfully downloaded: clip") /\
  session_state (snd r) !! "progress" = Some (PFloat float_one).
Proof.
  intros w r.
  destruct (proj1 (@C2_progress_follows_the_reports lenient) w
              "https://youtu.be/x" "Videos" fresh_session 1000
              [Some 250; Some 1000; None])
    as [Hs Hl].
  - lia.
  - repeat constructor. exists (PStr "finished"). split; reflexivity.
  - apply ascending_pair; lia.
  - split; [exact Hs |].
    destruct (Hl clip_info (PStr "clip") "clip") as (R & _ & P);
      try reflexivity.
    split; [exact R | exact P].
Defined.

(** C3 fails as stated: on a URL whose authority has an unbalanced square
    bracket, [urlparse] raises [ValueError] and so do both classifiers. *)
Lemma C3_classification_can_raise :
  is_video_url (H:=lenient) "http://[" = raise ValueError "Invalid IPv6 URL" /\
  is_image_url (H:=lenient) "http://[" = raise ValueError "Invalid IPv6 URL" /\
  classify (H:=lenient) "http://[" = raise ValueError "Invalid IPv6 URL".
Proof. repeat split. Qed.

Lemma C3_witness :
  exists k, classify (H:=lenient) "https://example.org/a/b/photo.png" = Ok k.
Proof.
  apply (proj1 (proj2 (@C3_classify_total_on_parsed_urls lenient
                         "https://example.org/a/b/photo.png"))).
  vm_compute. reflexivity.
Defined.

(** C4 fails as stated: an allowlisted domain in the user information of
    a URL makes it a Video, although the host, [example.org], contains no
    allowlisted domain. *)
Lemma C4_userinfo_is_searched :
  let url := "https://youtube.com@example.org/" in
  urlparse (H:=lenient) url
    = Ok {| scheme := "https"; netloc := "youtube.com@example.org";
            path := "/"; params := ""; query := ""; fragment := "" |} /\
  hostname "youtube.com@example.org" = "example.org" /\
  classify (H:=lenient) url = Ok Video /\
  classify_by_host (H:=lenient) url = Ok Unsupported.
Proof. repeat split. Qed.

Lemma C4_witness :
  classify (H:=lenient) "https://player.vimeo.com/video/1" = Ok Video.
Proof.
  apply (proj1 (@C4_classify_by_netloc_then_extension lenient
                  "https://player.vimeo.com/video/1"
                  {| scheme := "https"; netloc := "player.vimeo.com";
                     path := "/video/1"; params := ""; query := "";
                     fragment := "" |} eq_refl)).
  exists "vimeo.com". split.
  - apply list_elem_of_In. cbn. tauto.
  - exists "player.", "". reflexivity.
Defined.

(** C5 fails as stated: for the id [a/b] the short link yields [b]; for
    the id [a+b] the canonical URL yields [a b]. *)
Lemma C5_id_is_not_always_returned :
  get_youtube_id (H:=lenient) ("https://youtu.be/" +:+ "a/b") = Ok (Some "b") /\
  get_youtube_id (H:=lenient)
    ("https://www.youtube.com/watch?v=" +:+ "a+b" +:+ "&other=1")
  = Ok (Some "a b").
Proof. split; reflexivity. Qed.

Lemma C5_witness :
  get_youtube_id (H:=lenient) "https://youtu.be/dQw4w9WgXcQ"
  = Ok (Some "dQw4w9WgXcQ") /\
  get_youtube_id (H:=lenient)
    "https://www.youtube.com/watch?v=dQw4w9WgXcQ&other=1"
  = Ok (Some "dQw4w9WgXcQ").
Proof.
  split.
  - apply (proj1 (@C5_extract_video_id lenient) "dQw4w9WgXcQ"). reflexivity.
  - apply (proj1 (proj2 (@C5_extract_video_id lenient)) "dQw4w9WgXcQ").
    split; [discriminate | split; reflexivity].
Defined.



Lemma C7_witness :
  let w := backend [] (raise BackendError "Unsupported URL") in
  let r := get_video_info w "https://vimeo.com/1" fresh_session in
  fst r = Ok None /\
  new_events fresh_session (snd r)
    = [StError "Error fetching video info: Unsupported URL"].
Proof.
  intros w r.
  destruct (C7_fetch_failure_is_caught w "https://vimeo.com/1" fresh_session
              (Exn BackendError "Unsupported URL") eq_refl) as (R & E & _).
  split; [exact R | exact E].
Defined.

(** C8 fails as stated: for a count of [10^9 * 2^1024] the division by
    1,000,000,000 has no binary64 result and [format_views] raises
    [OverflowError] instead of answering with a B suffix. *)
Lemma C8_huge_count_overflows :
  1000000000 <= 1000000000 * 2 ^ 1024 /\
  format_views (Some (1000000000 * 2 ^ 1024))
  = raise OverflowError "integer division result too large for a float".
Proof. split; [discriminate | vm_compute; reflexivity]. Qed.

Lemma C8_witness :
  format_views (Some 12) = Ok "12" /\
  (exists x, int_truediv 1234567 1000000 = Ok x /\
     format_views (Some 1234567) = Ok (format_1f x +:+ "M")) /\
  (exists x, int_truediv 4000000000 1000000000 = Ok x /\
     format_views (Some 4000000000) = Ok (format_1f x +:+ "B")).
Proof.
  split; [| split].
  - destruct (C8_format_views_cases 12) as (_ & _ & Small & _).
    apply Small; [lia | lia | reflexivity].
  - destruct (C8_format_views_cases 1234567) as (_ & _ & _ & _ & _ & M & _).
    apply M. lia.
  - destruct (C8_format_views_cases 4000000000)
      as (_ & _ & _ & _ & _ & _ & B & _).
    apply B; [lia | reflexivity].
Defined.

Lemma C9_witness :
  let w := backend [] (Ok (<["title" := PNone]> ∅)) in
  exists m,
    get_video_info w "https://vimeo.com/1" fresh_session
      = (Ok (Some m), fresh_session) /\
    m !! "title" = Some PNone /\
    m !! "uploader" = Some (PStr "Unknown uploader").
Proof.
  intros w.
  destruct (C9_defaults_only_for_absent_keys w "https://vimeo.com/1"
              fresh_session (<["title" := PNone]> ∅) eq_refl)
    as (m & Hm & _ & _ & Pu & _ & Hnone).
  exists m. split; [exact Hm |]. split.
  - apply Hnone; [reflexivity |]. apply list_elem_of_In. cbn. tauto.
  - apply (proj1 Pu). reflexivity.
Defined.

Lemma C10_witness :
  exists s,
    get_youtube_id (H:=lenient) "https://example.org/?next=youtu.be" = Ok (Some s) /\
    Str.has_char "/" s = false.
Proof.
  destruct (@C10_short_link_never_none lenient
              "https://example.org/?next=youtu.be" eq_refl)
    as (s & Hs & Hc & _).
  exists s. split; [exact Hs | exact Hc].
Defined.

End Checks.

(** * Further properties of the program *)

(** ** Durations *)

Module DurationFacts.
Import Urllib CyberSapiens Spec StrFacts.
Section DurationFacts.
Context `{Platform}.

Lemma range_check (f : Z -> bool) (a len : Z) :
  List.forallb f (seqZ a len) = true ->
  forall n, a <= n < a + len -> f n = true.
Proof.
  intros F n Hn. rewrite List.forallb_forall in F. apply F.
  apply list_elem_of_In, elem_of_seqZ. lia.
Qed.

Lemma str_int_small (n : Z) :
  Z.abs n < 10 ^ max_str_digits -> str_int n = Ok (digits n).
Proof.
  intros Hn. unfold str_int. set (L := 10 ^ max_str_digits) in *.
  destruct (Z.leb_spec L (Z.abs n)); [lia | reflexivity].
Qed.

Lemma format_02d_small (n : Z) :
  Z.abs n < 10 ^ max_str_digits ->
  format_02d (NInt n) =
    Ok (if (String.length (digits n) <? 2)%nat then "0" +:+ digits n
        else digits n).
Proof. intros Hn. unfold format_02d. now rewrite (str_int_small n Hn). Qed.

Lemma format_02d_two_digits (n : Z) :
  0 <= n < 100 -> format_02d (NInt n) = Ok (two_digits n).
Proof.
  intros Hn. rewrite format_02d_small
    by (pose proof FormatFacts.digit_limit_large; lia).
  f_equal.
  pose proof (range_check
    (fun n => String.eqb
       (if (String.length (digits n) <? 2)%nat then "0" +:+ digits n
        else digits n) (two_digits n)) 0 100) as R.
  specialize (R ltac:(vm_compute; reflexivity) n ltac:(lia)).
  now apply String.eqb_eq in R.
Qed.

(** *** Decimal digits *)

Lemma uint_chars (d : Decimal.uint) :
  Str.forallb is_digit (NilEmpty.string_of_uint d) = true.
Proof. induction d; cbn [NilEmpty.string_of_uint Str.forallb]; auto. Qed.

Lemma digits_pos (p : positive) :
  digits (Z.pos p) = NilEmpty.string_of_uint (Pos.to_uint p).
Proof.
  unfold digits. cbn [Z.to_int NilZero.string_of_int].
  pose proof (Unsigned.to_uint_nonnil p).
  destruct (Pos.to_uint p); [contradiction | reflexivity ..].
Qed.

Lemma digits_chars (n : Z) : 0 < n -> Str.forallb is_digit (digits n) = true.
Proof.
  intros Hn. destruct n as [| p | p]; try lia.
  rewrite digits_pos. apply uint_chars.
Qed.

Lemma digits_value_acc (d : Decimal.uint) (acc : positive) :
  digits_value (NilEmpty.string_of_uint d) (Z.pos acc) true
  = Some (Z.pos (Pos.of_uint_acc d acc)).
Proof.
  revert acc. induction d; intros acc;
    cbn [NilEmpty.string_of_uint digits_value Pos.of_uint_acc];
    [reflexivity | ..];
    match goal with
    | |- context [is_digit ?c] => change (is_digit c) with true; cbv iota
    end;
    match goal with
    | |- context [Z.of_nat (nat_of_ascii ?c)] =>
        let k := eval vm_compute in (Z.of_nat (nat_of_ascii c)) in
        change (Z.of_nat (nat_of_ascii c)) with k
    end;
    match goal with
    | |- digits_value _ ?v true = Some (Z.pos (Pos.of_uint_acc _ ?q)) =>
        replace v with (Z.pos q) by lia
    end; apply IHd.
Qed.

Lemma digits_value_uint (d : Decimal.uint) (after_digit : bool) :
  after_digit = true \/ d <> Decimal.Nil ->
  digits_value (NilEmpty.string_of_uint d) 0 after_digit
  = Some (Z.of_N (Pos.of_uint d)).
Proof.
  revert after_digit. induction d; intros b Hb;
    cbn [NilEmpty.string_of_uint digits_value Pos.of_uint].
  - destruct Hb as [-> | Hb]; [reflexivity | contradiction].
  - change (is_digit "0") with true. cbv iota.
    change (10 * 0 + Z.of_nat (nat_of_ascii "0") - 48) with 0.
    apply IHd. now left.
  - change (is_digit "1") with true. cbv iota. apply (digits_value_acc d 1).
  - change (is_digit "2") with true. cbv iota. apply (digits_value_acc d 2).
  - change (is_digit "3") with true. cbv iota. apply (digits_value_acc d 3).
  - change (is_digit "4") with true. cbv iota. apply (digits_value_acc d 4).
  - change (is_digit "5") with true. cbv iota. apply (digits_value_acc d 5).
  - change (is_digit "6") with true. cbv iota. apply (digits_value_acc d 6).
  - change (is_digit "7") with true. cbv iota. apply (digits_value_acc d 7).
  - change (is_digit "8") with true. cbv iota. apply (digits_value_acc d 8).
  - change (is_digit "9") with true. cbv iota. apply (digits_value_acc d 9).
Qed.

(** Reading the digits of a positive number gives the number back. *)
Lemma digits_value_digits (n : Z) (after_digit : bool) :
  0 < n -> digits_value (digits n) 0 after_digit = Some n.
Proof.
  intros Hn. destruct n as [| p | p]; try lia.
  rewrite digits_pos, digits_value_uint
    by (right; apply Unsigned.to_uint_nonnil).
  now rewrite DecimalPos.Unsigned.of_to.
Qed.

Lemma digits_length (n : Z) : 10 <= n -> (2 <= String.length (digits n))%nat.
Proof.
  intros Hn. pose proof (digits_value_digits n false ltac:(lia)) as V.
  pose proof (digits_chars n ltac:(lia)) as C.
  destruct (digits n) as [| a [| b t]]; cbn [String.length]; [| | lia].
  - discriminate.
  - exfalso. cbn in V, C. rewrite andb_true_r in C. rewrite C in V.
    injection V as V. unfold is_digit in C.
    apply andb_true_iff in C as [_ C%Nat.leb_le]. lia.
Qed.

(** *** Durations *)

Lemma format_duration_int (s : Z) :
  s <> 0 ->
  format_duration (PInt s) =
    if 0 <? s / 3600 then
      let! h := format_02d (NInt (s / 3600)) in
      let! m := format_02d (NInt (s mod 3600 / 60)) in
      let! sec := format_02d (NInt (s mod 60)) in
      Ok (h +:+ ":" +:+ m +:+ ":" +:+ sec)
    else
      let! m := format_02d (NInt (s mod 3600 / 60)) in
      let! sec := format_02d (NInt (s mod 60)) in
      Ok (m +:+ ":" +:+ sec).
Proof.
  intros Hs. unfold format_duration. cbn [truthy as_number].
  destruct (Z.eqb_spec s 0); [contradiction |]. reflexivity.
Qed.

Lemma format_02d_hours (h : Z) :
  0 < h < 10 ^ max_str_digits -> format_02d (NInt h) = Ok (hours_text h).
Proof.
  intros Hh. rewrite format_02d_small by lia. f_equal. unfold hours_text.
  destruct (Z.ltb_spec h 10).
  - pose proof (range_check
      (fun h => (String.length (digits h) <? 2)%nat) 1 9) as R.
    now rewrite (R ltac:(vm_compute; reflexivity) h ltac:(lia)).
  - pose proof (digits_length h ltac:(lia)).
    destruct (Nat.ltb_spec (String.length (digits h)) 2); [lia | reflexivity].
Qed.

Lemma clock_fields (s : Z) :
  0 <= s mod 3600 / 60 < 60 /\ 0 <= s mod 60 < 60 /\
  s = 3600 * (s / 3600) + 60 * (s mod 3600 / 60) + s mod 60.
Proof.
  pose proof (Z.mod_pos_bound s 3600 ltac:(lia)).
  pose proof (Z.mod_pos_bound s 60 ltac:(lia)).
  pose proof (Z.div_mod s 3600 ltac:(lia)).
  pose proof (Z.div_mod (s mod 3600) 60 ltac:(lia)).
  assert (s mod 3600 mod 60 = s mod 60).
  { apply Z.mod_mod_divide. exists 60. lia. }
  assert (0 <= s mod 3600 / 60 < 60).
  { split; [apply Z.div_pos; lia |]. apply Z.div_lt_upper_bound; lia. }
  lia.
Qed.

Lemma format_duration_positive (s : Z) :
  0 < s -> s / 3600 < 10 ^ max_str_digits ->
  format_duration (PInt s)
  = Ok (clock (s / 3600) (s mod 3600 / 60) (s mod 60)).
Proof.
  intros Hs Hh. rewrite format_duration_int by lia.
  destruct (clock_fields s) as (Hm & Hsec & Hsum).
  assert (0 <= s / 3600) by (apply Z.div_pos; lia).
  rewrite (format_02d_two_digits (s mod 3600 / 60)),
    (format_02d_two_digits (s mod 60)) by lia.
  unfold clock.
  destruct (Z.ltb_spec 0 (s / 3600)) as [Hpos |].
  - rewrite (format_02d_hours (s / 3600) (conj Hpos Hh)).
    destruct (Z.eqb_spec (s / 3600) 0); [lia | reflexivity].
  - destruct (Z.eqb_spec (s / 3600) 0); [reflexivity | lia].
Qed.

Lemma format_duration_too_long (s : Z) :
  0 < s -> 10 ^ max_str_digits <= s / 3600 ->
  format_duration (PInt s) = str_int (s / 3600) /\
  exists e, str_int (s / 3600) = Err e /\ exn_cls e = ValueError.
Proof.
  intros Hs Hh. rewrite format_duration_int by lia.
  pose proof FormatFacts.digit_limit_large as HL.
  set (L := 10 ^ max_str_digits) in *.
  destruct (Z.ltb_spec 0 (s / 3600)); [| lia].
  unfold format_02d, str_int. fold L.
  destruct (Z.leb_spec L (Z.abs (s / 3600))); [| lia].
  split; [reflexivity |]. eexists. split; reflexivity.
Qed.

(** X1: a positive whole number of seconds is displayed on the clock.
    With [h] hours, [m] minutes and [sec] seconds ([m] and [sec] below
    60), [format_duration] returns [MM:SS] when there are no hours and
    [HH:MM:SS] otherwise, each field with two digits (the hours with more
    when they need them); only hours of more than 4300 digits are
    refused, by the limit on integer conversions. *)
Theorem X1_format_duration_clock (s : Z) :
  0 < s ->
  (s / 3600 < 10 ^ max_str_digits ->
   exists h m sec,
     s = 3600 * h + 60 * m + sec /\ 0 <= h /\ 0 <= m < 60 /\ 0 <= sec < 60 /\
     format_duration (PInt s) = Ok (clock h m sec)) /\
  (10 ^ max_str_digits <= s / 3600 ->
   format_duration (PInt s) = str_int (s / 3600) /\
   exists e, str_int (s / 3600) = Err e /\ exn_cls e = ValueError).
Proof.
  intros Hs. split; [| now apply format_duration_too_long].
  intros Hh. exists (s / 3600), (s mod 3600 / 60), (s mod 60).
  destruct (clock_fields s) as (Hm & Hsec & Hsum).
  assert (0 <= s / 3600) by (apply Z.div_pos; lia).
  repeat (split; [lia |]). now apply format_duration_positive.
Qed.

(** X2: a negative number of seconds loses its sign and its hours. The
    floor division makes the hours negative, so the short form is chosen,
    and the remainders are those of Python, between 0 and 59: the text is
    the [MM:SS] of the duration counted modulo one hour. Minus one second
    reads [59:59]. *)
Theorem X2_format_duration_negative (s : Z) :
  s < 0 ->
  format_duration (PInt s)
  = Ok (two_digits ((s mod 3600) / 60) +:+ ":" +:+ two_digits (s mod 60)) /\
  (s mod 3600 <> 0 -> format_duration (PInt s) = format_duration (PInt (s mod 3600))).
Proof.
  intros Hs. rewrite format_duration_int by lia.
  destruct (clock_fields s) as (Hm & Hsec & Hsum).
  assert (Hh : s / 3600 < 0) by (apply Z.div_lt_upper_bound; lia).
  destruct (Z.ltb_spec 0 (s / 3600)); [lia |].
  rewrite !format_02d_two_digits by lia. split; [reflexivity |].
  intros Hr. rewrite format_duration_int by exact Hr.
  pose proof (Z.mod_pos_bound s 3600 ltac:(lia)).
  rewrite (Z.div_small (s mod 3600) 3600) by lia. cbn [Z.ltb Z.compare].
  rewrite (Z.mod_mod s 3600) by lia.
  rewrite (Z.mod_mod_divide s 3600 60) by (exists 60; lia).
  now rewrite !format_02d_two_digits by lia.
Qed.

Lemma float_truediv_ok (x : float) (negative : bool) (m e : Z) :
  m <> 0 -> exists q, float_truediv x (Finite negative m e) = Ok q.
Proof.
  intros Hm. destruct m as [| p | p]; [contradiction | ..];
    destruct x as [s1 m1 e1 | s1 |]; cbn [float_truediv]; eauto;
    match goal with |- context [round_magnitude ?n ?d] =>
      destruct (round_magnitude n d) as [[] |] end; eauto.
Qed.

Lemma float_div_mod_ok (vx : float) (negative : bool) (m e : Z) :
  m <> 0 -> exists qr, float_div_mod vx (Finite negative m e) = Ok qr.
Proof.
  intros Hm. unfold float_div_mod.
  destruct (float_truediv_ok (float_sub vx (fmod vx (Finite negative m e)))
              negative m e Hm) as [d ->].
  cbn [Py.bind].
  destruct (float_truediv_ok vx negative m e Hm) as [q ->].
  repeat match goal with
  | |- context [if ?b then _ else _] => destruct b
  end; cbn [Py.bind]; eauto.
Qed.

(** X3: a duration that is no whole number is not displayed. For a
    [float] other than zero (the durations that the backend reports with
    a fraction, infinities and not-a-number among them) the hours, minutes
    and seconds are floats and the format code [d] refuses the first of
    them: [format_duration] raises [ValueError]. A non-empty string fails
    at the first floor division with [TypeError]. *)
Theorem X3_format_duration_not_integral :
  (forall f, float_is_zero f = false ->
     format_duration (PFloat f)
     = raise ValueError "Unknown format code 'd' for object of type 'float'") /\
  (forall t, t <> "" ->
     format_duration (PStr t)
     = raise TypeError "unsupported operand type(s) for //: 'str' and 'int'").
Proof.
  split.
  - intros f Hf. unfold format_duration. cbn [truthy as_number]. rewrite Hf.
    cbn [negb]. unfold num_floordiv at 1, num_mod at 1.
    change (int_to_float 3600)
      with (Ok (A := float) (Finite false 7916483719987200 (-41))).
    cbn [Py.bind].
    destruct (float_div_mod_ok f false 7916483719987200 (-41) ltac:(lia))
      as [[h r] ->].
    cbn [Py.bind fst]. unfold num_floordiv, num_mod.
    change (int_to_float 60)
      with (Ok (A := float) (Finite false 8444249301319680 (-47))).
    cbn [Py.bind].
    destruct (float_div_mod_ok
                (float_rem f (Finite false 7916483719987200 (-41)))
                false 8444249301319680 (-47) ltac:(lia)) as [[mi r'] ->].
    cbn [Py.bind fst]. destruct (num_positive (NFloat h)); reflexivity.
  - intros t Ht. unfold format_duration. cbn [truthy as_number].
    destruct t; [contradiction | reflexivity].
Qed.

(** *** Reading the clock back *)

Lemma two_digits_no_colon (n : Z) :
  0 <= n < 100 -> Str.has_char ":" (two_digits n) = false.
Proof.
  intros Hn.
  pose proof (range_check
    (fun n => negb (Str.has_char ":" (two_digits n))) 0 100) as R.
  specialize (R ltac:(vm_compute; reflexivity) n ltac:(lia)).
  now apply negb_true_iff in R.
Qed.

Lemma two_digits_value (n : Z) :
  0 <= n < 100 -> field_value (two_digits n) = n.
Proof.
  intros Hn.
  pose proof (range_check
    (fun n => field_value (two_digits n) =? n) 0 100) as R.
  specialize (R ltac:(vm_compute; reflexivity) n ltac:(lia)).
  now apply Z.eqb_eq in R.
Qed.

Lemma hours_text_no_colon (h : Z) :
  0 < h -> Str.has_char ":" (hours_text h) = false.
Proof.
  intros Hh. unfold hours_text.
  assert (D : Str.has_char ":" (digits h) = false)
    by (apply (ClassifyFacts.forallb_no_char is_digit);
        [now apply digits_chars | reflexivity]).
  destruct (h <? 10); [| exact D]. push_app. cbn [Str.has_char].
  now rewrite D.
Qed.

Lemma hours_text_value (h : Z) : 0 < h -> field_value (hours_text h) = h.
Proof.
  intros Hh. unfold hours_text, field_value.
  destruct (h <? 10).
  - push_app. cbn [digits_value]. change (is_digit "0") with true. cbv iota.
    change (10 * 0 + Z.of_nat (nat_of_ascii "0") - 48) with 0.
    now rewrite digits_value_digits.
  - now rewrite digits_value_digits.
Qed.

Lemma clock_seconds_clock (h m sec : Z) :
  0 <= h -> 0 <= m < 60 -> 0 <= sec < 60 ->
  clock_seconds (clock h m sec) = 3600 * h + 60 * m + sec.
Proof.
  intros Hh Hm Hsec. unfold clock, clock_seconds.
  destruct (Z.eqb_spec h 0) as [-> | Hh0].
  - change (":" +:+ two_digits sec) with (String ":" (two_digits sec)).
    rewrite split_app_sep by (apply two_digits_no_colon; lia).
    rewrite split_whole by (apply two_digits_no_colon; lia).
    cbn [foldl]. rewrite !two_digits_value by lia. lia.
  - change (":" +:+ two_digits m +:+ ":" +:+ two_digits sec)
      with (String ":" (two_digits m +:+ String ":" (two_digits sec))).
    rewrite split_app_sep by (apply hours_text_no_colon; lia).
    rewrite split_app_sep by (apply two_digits_no_colon; lia).
    rewrite split_whole by (apply two_digits_no_colon; lia).
    cbn [foldl]. rewrite !two_digits_value, hours_text_value by lia. lia.
Qed.

(** X4: the display of a positive whole duration can be read back. The
    fields of the text, counted in base 60, give the number of seconds
    again, so two positive durations with the same text are the same
    duration. (Negative durations share their text with positive ones.) *)
Theorem X4_format_duration_read_back (a b : Z) (text : string) :
  0 < a -> format_duration (PInt a) = Ok text ->
  clock_seconds text = a /\
  (0 < b -> format_duration (PInt b) = Ok text -> a = b).
Proof.
  assert (R : forall s t, 0 < s -> format_duration (PInt s) = Ok t ->
                clock_seconds t = s).
  { intros s t Hs Ht.
    destruct (Z.lt_ge_cases (s / 3600) (10 ^ max_str_digits)) as [Hh | Hh].
    - rewrite (format_duration_positive s Hs Hh) in Ht. injection Ht as <-.
      destruct (clock_fields s) as (Hm & Hsec & Hsum).
      assert (0 <= s / 3600) by (apply Z.div_pos; lia).
      rewrite clock_seconds_clock; lia.
    - destruct (format_duration_too_long s Hs Hh) as (E & e & Ee & _).
      congruence. }
  intros Ha Hta. split; [now apply R |].
  intros Hb Htb. rewrite <- (R a text Ha Hta). now apply R.
Qed.

End DurationFacts.
End DurationFacts.

(** ** View counts at the edge of a unit *)

Module ViewsFacts.
Import Urllib CyberSapiens Spec StrFacts.
Import DurationFacts.

Import RoundingFacts.

(** The quotients of a run of counts that all round to the same
    one-decimal text: it is enough that the two ends of the run do. *)
Lemma format_quotient_between (n d lo hi u t : Z) :
  0 < lo -> lo <= n <= hi -> 0 < d ->
  flog2 lo d - 52 = u -> flog2 hi d - 52 = u -> -1074 <= u <= 0 ->
  0 < rne (lo * 2 ^ (- u)) d -> rne (hi * 2 ^ (- u)) d < 2 ^ 53 ->
  rne (10 * rne (lo * 2 ^ (- u)) d) (2 ^ (- u)) = t ->
  rne (10 * rne (hi * 2 ^ (- u)) d) (2 ^ (- u)) = t ->
  exists x, int_truediv n d = Ok x /\
    format_1f x = digits (t / 10) +:+ "." +:+ digits (t mod 10).
Proof.
  intros Hlo Hn Hd Flo Fhi Hu Mlo Mhi Tlo Thi.
  assert (Fn : flog2 n d - 52 = u).
  { pose proof (flog2_mono lo n d Hlo ltac:(lia) Hd).
    pose proof (flog2_mono n hi d ltac:(lia) ltac:(lia) Hd). lia. }
  assert (P : 0 < 2 ^ (- u)) by (apply Z.pow_pos_nonneg; lia).
  set (m := rne (n * 2 ^ (- u)) d).
  assert (Mn : rne (lo * 2 ^ (- u)) d <= m <= rne (hi * 2 ^ (- u)) d).
  { split; apply rne_mono; try exact Hd; nia. }
  assert (R : round_pos n d = (m, u)).
  { unfold round_pos, ulp_exp. rewrite Fn.
    rewrite (Z.max_l u (-1074)) by lia.
    rewrite (Z.max_l 0 u), (Z.max_r 0 (- u)) by lia.
    rewrite Z.pow_0_r, Z.mul_1_r. fold m.
    destruct (Z.eqb_spec m (2 ^ 53)); [lia |].
    destruct (Z.eqb_spec m 0); [lia | reflexivity]. }
  exists (Finite false m u). split.
  - unfold int_truediv, round_ratio, round_magnitude.
    rewrite (Z.abs_eq n), (Z.abs_eq d) by lia.
    destruct (Z.eqb_spec d 0); [lia |]. destruct (Z.eqb_spec n 0); [lia |].
    rewrite R. unfold too_large. cbn [snd].
    destruct (Z.ltb_spec 971 u); [lia |].
    destruct (Z.ltb_spec n 0); [lia |]. destruct (Z.ltb_spec d 0); [lia |].
    reflexivity.
  - unfold format_1f.
    rewrite (Z.max_l 0 u), (Z.max_r 0 (- u)) by lia.
    rewrite Z.pow_0_r, Z.mul_1_r.
    assert (T : rne (10 * m) (2 ^ (- u)) = t).
    { pose proof (rne_mono (10 * rne (lo * 2 ^ (- u)) d) (10 * m) (2 ^ (- u))
                    P ltac:(lia)).
      pose proof (rne_mono (10 * m) (10 * rne (hi * 2 ^ (- u)) d) (2 ^ (- u))
                    P ltac:(lia)).
      lia. }
    now rewrite T.
Qed.

(** X5: just below a million and just below a billion the one-decimal
    rounding reaches a thousand of the smaller unit: the last 50 counts
    before 1,000,000 read [1000.0K] and the last 50,000 before
    1,000,000,000 read [1000.0M], while the counts just before them still
    read [999.9K] and [999.9M]. *)
Theorem X5_format_views_thousand_of_a_unit (n : Z) :
  (999950 <= n < 1000000 -> format_views (Some n) = Ok "1000.0K") /\
  (999950000 <= n < 1000000000 -> format_views (Some n) = Ok "1000.0M") /\
  format_views (Some 999949) = Ok "999.9K" /\
  format_views (Some 999949999) = Ok "999.9M".
Proof.
  split; [| split; [| split; vm_compute; reflexivity]].
  - intros Hn. unfold format_views.
    destruct (Z.eqb_spec n 0); [lia |].
    destruct (Z.ltb_spec n 1000); [lia |].
    destruct (Z.ltb_spec n 1000000); [| lia].
    destruct (format_quotient_between n 1000 999950 999999 (-43) 10000)
      as (x & Hx & Hf); try lia; try reflexivity.
    rewrite Hx. cbn [Py.bind]. rewrite Hf. reflexivity.
  - intros Hn. unfold format_views.
    destruct (Z.eqb_spec n 0); [lia |].
    destruct (Z.ltb_spec n 1000); [lia |].
    destruct (Z.ltb_spec n 1000000); [lia |].
    destruct (Z.ltb_spec n 1000000000); [| lia].
    destruct (format_quotient_between n 1000000 999950000 999999999 (-43) 10000)
      as (x & Hx & Hf); try lia; try reflexivity.
    rewrite Hx. cbn [Py.bind]. rewrite Hf. reflexivity.
Qed.

End ViewsFacts.

(** ** The backend: metadata and video downloads *)

Module BackendFacts.
Import Urllib CyberSapiens Spec StrFacts.
Section BackendFacts.
Context `{Platform}.
Import Facts VideoFacts.
Local Open Scope io_scope.

(** *** Metadata of a successful fetch *)

(** X6: when the backend answers, [get_video_info] returns a dictionary
    with exactly six keys, whatever else the backend's dictionary holds;
    [thumbnail] and [duration] are [None] when the backend leaves them
    out and its own values otherwise; nothing else happens (no message,
    the state is as before). *)
Theorem X6_get_video_info_success
    (w : world) (url : string) (s : state) (info : gmap string pyval) :
  outcome (extract_info w url false) = Ok info ->
  exists m,
    get_video_info w url s = (Ok (Some m), s) /\
    dom m = ({["title"; "thumbnail"; "duration"; "description"; "uploader";
               "view_count"]} : gset string) /\
    m !! "thumbnail" = Some (default PNone (info !! "thumbnail")) /\
    m !! "duration" = Some (default PNone (info !! "duration")).
Proof.
  intros Hi. eexists. split; [| split; [| split]].
  - unfold get_video_info, try_except, bindM, lift, ret. rewrite Hi. reflexivity.
  - rewrite !dom_insert_L, dom_empty_L. set_solver.
  - simplify_map_eq. reflexivity.
  - simplify_map_eq. reflexivity.
Qed.

(** *** Callbacks that raise *)

Lemma progress_hook_shape (d : gmap string pyval) (s : state) :
  (exists e, progress_hook d s = (Err e, s)) \/
  progress_hook d s = (Ok tt, s) \/
  exists v, progress_hook d s = set_progress v s.
Proof.
  unfold progress_hook, bindM, lift.
  destruct (getitem d "status") as [status | e]; [| left; eauto].
  destruct (eq_str status "downloading"); [| right; left; reflexivity].
  destruct (if has_key d "total_bytes" then _ else _) as [p | e];
    [right; right; eauto | left; eauto].
Qed.

Lemma progress_hook_error (d : gmap string pyval) (s : state) (e : exn) :
  fst (progress_hook d s) = Err e -> progress_hook d s = (Err e, s).
Proof.
  destruct (progress_hook_shape d s) as [[e' E] | [E | [v E]]]; rewrite E;
    cbn; congruence.
Qed.

Lemma run_hooks_app (a b : list (gmap string pyval)) (s : state) :
  run_hooks (a ++ b) s =
    match run_hooks a s with
    | (Ok _, s') => run_hooks b s'
    | (Err e, s') => (Err e, s')
    end.
Proof.
  revert s. induction a as [| d a IH]; intros s; [reflexivity |].
  cbn [app run_hooks]. unfold bindM.
  destruct (progress_hook d s) as [[[] | e] s']; [apply IH | reflexivity].
Qed.

Lemma run_hooks_effect (calls : list (gmap string pyval)) (s : state) :
  exists vs, snd (run_hooks calls s) = set_all vs s.
Proof.
  revert s. induction calls as [| d calls IH]; intros s.
  - exists []. reflexivity.
  - cbn [run_hooks]. unfold bindM.
    destruct (progress_hook_shape d s) as [[e E] | [E | [v E]]]; rewrite E.
    + exists []. reflexivity.
    + apply IH.
    + cbn [set_progress]. destruct (IH (snd (set_progress v s))) as [vs E'].
      exists (v :: vs). exact E'.
Qed.

(** X7: a callback of the downloading phase whose [total_bytes] is
    present but unusable makes the hook raise instead of reporting: with
    [None] (a size that is not known) the division raises [TypeError],
    with [0] it raises [ZeroDivisionError]; the progress keeps its prior
    value. *)
Theorem X7_progress_hook_unusable_total
    (d : gmap string pyval) (s : state) (a : Z) :
  d !! "status" = Some (PStr "downloading") ->
  d !! "downloaded_bytes" = Some (PInt a) ->
  (d !! "total_bytes" = Some PNone ->
   progress_hook d s =
     (raise TypeError
        "unsupported operand type(s) for /: 'int' and 'NoneType'", s)) /\
  (d !! "total_bytes" = Some (PInt 0) ->
   progress_hook d s = (raise ZeroDivisionError "division by zero", s)).
Proof.
  intros Hs Ha. split; intros Hb;
    unfold progress_hook, bindM, lift, getitem;
    rewrite Hs; cbn [eq_str]; rewrite String.eqb_refl;
    rewrite (has_key_true _ _ _ Hb), Ha, Hb; reflexivity.
Qed.

(** X8: an exception raised by the hook ends the download. When the
    callbacks before [d] pass and the hook raises [e] on [d],
    [download_video] returns [False] with the text of [e], and the state
    is the one the earlier callbacks left: the later callbacks and the
    backend's own outcome play no part. *)
Theorem X8_download_video_hook_failure
    (w : world) (url output_path : string) (s s1 : state)
    (pre post : list (gmap string pyval)) (d : gmap string pyval) (e : exn) :
  hook_calls (extract_info w url true) = (pre ++ d :: post)%list ->
  run_hooks pre (snd (set_progress (PInt 0) s)) = (Ok tt, s1) ->
  fst (progress_hook d s1) = Err e ->
  download_video w url output_path s =
    (Ok (false, "Error downloading video: " +:+ exn_msg e), s1).
Proof.
  intros Hc Hpre Hd. unfold download_video, try_except, bindM at 1.
  cbn [set_progress]. unfold bindM at 1.
  rewrite Hc, run_hooks_app. cbn [set_progress snd] in Hpre. rewrite Hpre.
  cbn [run_hooks]. unfold bindM at 1.
  rewrite (progress_hook_error d s1 e Hd). reflexivity.
Qed.

(** X9: failures after the callbacks. When every callback passes and the
    backend then raises [e], [download_video] returns [False] with the
    text of [e]; when the backend returns a dictionary without [title],
    the download it has made is reported as a failure too, with the text
    ['title'] of the [KeyError]. In both cases the progress stays where
    the callbacks left it, and at the [0] of the start when there was no
    callback. *)
Theorem X9_download_video_late_failure
    (w : world) (url output_path : string) (s s1 : state) :
  let run := extract_info w url true in
  run_hooks (hook_calls run) (snd (set_progress (PInt 0) s)) = (Ok tt, s1) ->
  (forall e, outcome run = Err e ->
     download_video w url output_path s =
       (Ok (false, "Error downloading video: " +:+ exn_msg e), s1)) /\
  (forall info, outcome run = Ok info -> info !! "title" = None ->
     download_video w url output_path s =
       (Ok (false, "Error downloading video: 'title'"), s1)) /\
  (hook_calls run = [] -> session_state s1 !! "progress" = Some (PInt 0)).
Proof.
  intros run Hrun. cbn [set_progress snd] in Hrun. split; [| split].
  - intros e He. unfold download_video, try_except, bindM at 1.
    cbn [set_progress]. unfold bindM at 1. fold run. rewrite Hrun.
    unfold bindM, lift. rewrite He. reflexivity.
  - intros info Hi Ht. unfold download_video, try_except, bindM at 1.
    cbn [set_progress]. unfold bindM at 1. fold run. rewrite Hrun.
    unfold bindM, lift, getitem. rewrite Hi, Ht. reflexivity.
  - intros Hc. rewrite Hc in Hrun. injection Hrun as <-.
    cbn. apply lookup_insert_eq.
Qed.

Lemma startswith_app (p t : string) : Str.startswith p (p +:+ t) = true.
Proof.
  induction p as [| a p IH]; [reflexivity |]. push_app.
  cbn [Str.startswith]. unfold Str.eqb_ascii. now rewrite Ascii.eqb_refl.
Qed.

(** X10: [download_video] never raises, whatever the backend and its
    callbacks do. It returns a flag and a message that begins with
    [Successfully downloaded: ] when the flag is true and with
    [Error downloading video: ] when it is false; all it does to the
    state is to assign the progress, the first time with [0]. *)
Theorem X10_download_video_always_returns
    (w : world) (url output_path : string) (s : state) :
  exists (ok : bool) (msg : string) (vs : list pyval),
    download_video w url output_path s
      = (Ok (ok, msg), set_all (PInt 0 :: vs) s) /\
    Str.startswith
      (if ok then "Successfully downloaded: " else "Error downloading video: ")
      msg = true /\
    new_events s (set_all (PInt 0 :: vs) s)
      = List.map SetProgress (PInt 0 :: vs) /\
    files (set_all (PInt 0 :: vs) s) = files s.
Proof.
  unfold download_video, try_except, bindM at 1. cbn [set_progress].
  unfold bindM at 1.
  set (s0 := emit _ _).
  destruct (run_hooks_effect (hook_calls (extract_info w url true)) s0)
    as [vs Hvs].
  assert (E : forall (ok : bool) (msg : string),
    Str.startswith
      (if ok then "Successfully downloaded: " else "Error downloading video: ")
      msg = true ->
    exists (ok' : bool) (msg' : string) (vs' : list pyval),
      ((Ok (ok, msg), set_all vs s0) : result (bool * string) * state)
        = (Ok (ok', msg'), set_all (PInt 0 :: vs') s) /\
      Str.startswith
        (if ok' then "Successfully downloaded: "
         else "Error downloading video: ") msg' = true /\
      new_events s (set_all (PInt 0 :: vs') s)
        = List.map SetProgress (PInt 0 :: vs') /\
      files (set_all (PInt 0 :: vs') s) = files s).
  { intros ok msg Hm. exists ok, msg, vs. split; [reflexivity |].
    split; [exact Hm |]. split.
    - apply new_events_app, set_all_trace.
    - apply set_all_files. }
  destruct (run_hooks _ s0) as [[[] | e] s1]; cbn [snd] in Hvs; subst s1.
  - unfold bindM, lift.
    destruct (outcome (extract_info w url true)) as [info | e];
      [| apply (E false), startswith_app].
    destruct (getitem info "title") as [title | e];
      [| apply (E false), startswith_app].
    destruct (py_str title) as [text | e];
      [apply (E true) | apply (E false)]; apply startswith_app.
  - apply (E false), startswith_app.
Qed.

End BackendFacts.
End BackendFacts.

(** ** Image downloads *)

Module SaveFacts.
Import Urllib CyberSapiens Spec StrFacts.
Section SaveFacts.
Context `{Platform}.
Import Facts VideoFacts ImageFacts DurationFacts.
Local Open Scope io_scope.

(** *** Failures before the file is written *)

Lemma raise_for_status_error (resp : response) :
  400 <= status_code resp < 600 ->
  exists e, raise_for_status resp = Err e /\ exn_cls e = HTTPError.
Proof.
  intros Hc. unfold raise_for_status.
  destruct (Z.leb_spec 400 (status_code resp)); [| lia].
  destruct (Z.ltb_spec (status_code resp) 500); cbn [andb].
  - eexists. split; reflexivity.
  - destruct (Z.leb_spec 500 (status_code resp)); [| lia].
    destruct (Z.ltb_spec (status_code resp) 600); [| lia].
    eexists. split; reflexivity.
Qed.

(** X11: a download that fails before its file is written changes
    nothing. When the request raises, when the server answers with a
    status between 400 and 599, when the announced length is no integer
    or when the file cannot be opened, [download_image] returns [False]
    with the text of the exception and the state is as before: no file
    is created or emptied and the progress is untouched. *)
Theorem X11_download_image_fails_cleanly
    (w : world) (url output_path : string) (s : state) :
  let r := download_image w url output_path s in
  let failed (e : exn) :=
    r = (Ok (false, "Error downloading image: " +:+ exn_msg e), s) in
  (forall e, requests_get w url = Err e -> failed e) /\
  (forall resp, requests_get w url = Ok resp ->
     400 <= status_code resp < 600 ->
     exists e, raise_for_status resp = Err e /\ exn_cls e = HTTPError /\
               failed e) /\
  (forall resp p filename, requests_get w url = Ok resp ->
     raise_for_status resp = Ok tt -> urlparse url = Ok p ->
     image_filename w p = Ok filename ->
     (forall e, content_length resp = Err e -> failed e) /\
     (forall n e, content_length resp = Ok n ->
        open_wb w (path_join output_path filename) = Err e -> failed e)).
Proof.
  intros r failed. subst r failed. cbv beta.
  unfold download_image, try_except, bindM, lift, open_file, bindM, lift.
  split; [| split].
  - intros e ->. reflexivity.
  - intros resp -> Hc. destruct (raise_for_status_error resp Hc) as (e & E & C).
    exists e. rewrite E. repeat split; assumption.
  - intros resp p filename -> -> -> Hf.
    unfold image_filename in Hf. rewrite Hf. split.
    + intros e Hl. unfold content_length in Hl. rewrite Hl. reflexivity.
    + intros n e Hl Ho. unfold content_length in Hl. rewrite Hl, Ho.
      reflexivity.
Qed.

(** *** The name of the file *)

Lemma digits_no_slash (n : Z) : Str.has_char "/" (digits n) = false.
Proof.
  destruct n as [| p | p]; [reflexivity | |].
  - apply (ClassifyFacts.forallb_no_char is_digit); [| reflexivity].
    apply digits_chars. lia.
  - unfold digits. cbn [Z.to_int NilZero.string_of_int Str.has_char].
    change (Str.eqb_ascii "-" "/") with false. cbn [orb].
    pose proof (Unsigned.to_uint_nonnil p).
    assert (E : NilZero.string_of_uint (Pos.to_uint p)
                = NilEmpty.string_of_uint (Pos.to_uint p))
      by (destruct (Pos.to_uint p); [contradiction | reflexivity ..]).
    rewrite E.
    apply (ClassifyFacts.forallb_no_char is_digit);
      [apply uint_chars | reflexivity].
Qed.

Lemma image_filename_plain (w : world) (p : ParseResult) (filename : string) :
  image_filename w p = Ok filename ->
  filename <> "" /\ Str.has_char "/" filename = false.
Proof.
  unfold image_filename, basename, Str.after_last.
  destruct (Str.is_empty _) eqn:E.
  - destruct (str_int (unix_time w)) as [t |] eqn:T; [| discriminate].
    cbn [Py.bind]. intros [= <-]. split; [discriminate |].
    unfold str_int in T. destruct (_ <=? _); [discriminate |].
    injection T as <-.
    rewrite !has_char_app, digits_no_slash. reflexivity.
  - intros [= <-]. split.
    + intros E'. rewrite E' in E. discriminate.
    + apply last_split_no_sep.
Qed.

Lemma no_char_no_prefix (c : ascii) (t : string) :
  Str.has_char c t = false -> Str.startswith (String c "") t = false.
Proof.
  destruct t as [| a t]; [reflexivity |]. cbn.
  intros [Ha _]%orb_false_iff. unfold Str.eqb_ascii in *.
  rewrite Ascii.eqb_sym, Ha. reflexivity.
Qed.

Lemma block_events_only_file (filepath : string) (n : Z)
    (chunks : list (list byte)) (d : Z) :
  only_file filepath (block_events filepath n chunks d).
Proof.
  revert d. induction chunks as [| c chunks IH]; intros d; [constructor |].
  cbn [block_events]. constructor; [reflexivity |].
  destruct (int_truediv _ n); [| constructor].
  constructor; [exact I | apply IH].
Qed.

Lemma download_image_destination
    (w : world) (url output_path : string) (s : state) (msg : string) :
  fst (download_image w url output_path s) = Ok (true, msg) ->
  exists filename rest,
    msg = "Successfully downloaded: " +:+ filename /\
    filename <> "" /\ Str.has_char "/" filename = false /\
    new_events s (snd (download_image w url output_path s))
      = FileOpen (path_join output_path filename) :: rest /\
    only_file (path_join output_path filename) rest /\
    (output_path <> "" -> Str.endswith "/" output_path = false ->
     path_join output_path filename = output_path +:+ "/" +:+ filename).
Proof.
  unfold download_image, try_except, bindM, lift, open_file, bindM, lift.
  destruct (requests_get w url) as [resp | e]; [| discriminate].
  destruct (raise_for_status resp) as [[] | e]; [| discriminate].
  destruct (urlparse url) as [p | e]; [| discriminate].
  fold (image_filename w p).
  destruct (image_filename w p) as [filename | e] eqn:Hf; [| discriminate].
  destruct (image_filename_plain w p filename Hf) as [Hne Hsl].
  fold (content_length resp).
  destruct (content_length resp) as [total | e]; [| discriminate].
  set (filepath := path_join output_path filename).
  destruct (open_wb w filepath) as [[] | e]; [| discriminate].
  fold (opened filepath s).
  assert (J : output_path <> "" -> Str.endswith "/" output_path = false ->
              filepath = output_path +:+ "/" +:+ filename).
  { intros Ho He. unfold filepath, path_join.
    rewrite (no_char_no_prefix "/" filename Hsl), He.
    destruct output_path; [contradiction | reflexivity]. }
  destruct (total =? 0).
  - unfold response_content.
    destruct (stream_error resp) as [e |]; [discriminate |].
    cbn [fst snd]. intros [= <-].
    exists filename, [FileWrite filepath (content resp)].
    repeat split; try assumption.
    + apply new_events_app. cbn. now rewrite <- List.app_assoc.
    + repeat constructor.
  - pose proof (write_blocks_trace filepath total
                  (fst (iter_content resp 1024)) 0 (opened filepath s)) as T.
    change (trace (opened filepath s)) with (trace s ++ [FileOpen filepath])%list
      in T.
    rewrite <- List.app_assoc in T. cbn [app] in T.
    unfold iter_content, end_of_loop in *. cbn [fst] in *.
    destruct (write_blocks _ _ _ _ _) as [[[] | e] s2]; cbn [fst snd] in *;
      [| discriminate].
    destruct (stream_error resp) as [e |]; [discriminate |].
    intros [= <-].
    eexists filename, _.
    repeat split; try assumption.
    + apply new_events_app. exact T.
    + apply block_events_only_file.
Qed.


(** X12: where a downloaded image goes. When [download_image] returns
    [True], its message ends with the name it gave to the file; the name
    is not empty and has no slash, so the file lies directly in the
    folder: in a folder given by a non-empty path without a final slash
    it is [folder/name]. The download opens this file first and touches
    no other. *)
Theorem X12_download_image_destination
    (w : world) (url output_path : string) (s : state) (msg : string) :
  let r := download_image w url output_path s in
  fst r = Ok (true, msg) ->
  exists filename rest,
    msg = "Successfully downloaded: " +:+ filename /\
    filename <> "" /\ Str.has_char "/" filename = false /\
    new_events s (snd r) = FileOpen (path_join output_path filename) :: rest /\
    only_file (path_join output_path filename) rest /\
    (output_path <> "" -> Str.endswith "/" output_path = false ->
     path_join output_path filename = output_path +:+ "/" +:+ filename).
Proof.
  intros r Hr. subst r.
  destruct (download_image_destination w url output_path s msg Hr)
    as (filename & rest & Hmsg & Hne & Hsl & Hev & Hof & Hj).
  exists filename, rest. repeat split; assumption.
Qed.

(** *** Where the progress ends *)

Lemma write_blocks_final (filepath : string) (n : Z)
    (chunks : list (list byte)) (d : Z) (s : state) :
  chunks <> [] ->
  (forall k c, chunks !! k = Some c ->
     exists f, int_truediv
                 (d + Z.of_nat (length (concat (take (S k) chunks)))) n = Ok f) ->
  exists f,
    int_truediv (d + Z.of_nat (length (concat chunks))) n = Ok f /\
    session_state (snd (write_blocks filepath n chunks d s)) !! "progress"
      = Some (PFloat f).
Proof.
  revert d s. induction chunks as [| c0 chunks IH]; intros d s Hne Hq;
    [contradiction |].
  destruct (Hq 0%nat c0 eq_refl) as [f0 Hf0].
  cbn [take concat] in Hf0. rewrite List.app_nil_r in Hf0.
  cbn [write_blocks]. unfold bindM, lift. cbn [file_write]. rewrite Hf0.
  cbn [set_progress].
  destruct chunks as [| c1 chunks].
  - exists f0. cbn [concat write_blocks ret snd]. rewrite List.app_nil_r.
    split; [exact Hf0 |]. cbn. apply lookup_insert_eq.
  - match goal with |- context [write_blocks _ _ _ _ ?s1] =>
      destruct (IH (d + Z.of_nat (length c0)) s1 ltac:(discriminate)) as (f & Hf & Hp)
    end.
    + intros k c Hk. destruct (Hq (S k) c Hk) as [f Hf]. exists f.
      rewrite <- Hf. f_equal. cbn [take concat]. rewrite !length_app. lia.
    + exists f. split; [| exact Hp].
      rewrite <- Hf. f_equal. cbn [concat]. rewrite !length_app. lia.
Qed.

(** X13: where the progress of an image download ends. With a positive
    announced length, once the stream has handed over at least one byte
    the progress that [download_image] leaves is the number of bytes
    handed over divided by the announced length, whether the stream ends
    well, and the download succeeds, or breaks, and the download fails
    with the text of the exception: the progress of a failed download
    stays where its last block left it. The progress is exactly [1.0]
    when the bytes handed over are as many as announced, at most [1.0]
    when they are fewer and at least [1.0] when they are more. *)
Theorem X13_download_image_final_progress
    (w : world) (url output_path : string) (s : state)
    (resp : response) (p : ParseResult) (filename : string) (n : Z) :
  requests_get w url = Ok resp -> raise_for_status resp = Ok tt ->
  urlparse url = Ok p -> image_filename w p = Ok filename ->
  open_wb w (path_join output_path filename) = Ok tt ->
  content_length resp = Ok n -> 0 < n -> content resp <> [] ->
  let len := Z.of_nat (length (content resp)) in
  fits_float len n ->
  let r := download_image w url output_path s in
  (stream_error resp = None ->
     fst r = Ok (true, "Successfully downloaded: " +:+ filename)) /\
  (forall e, stream_error resp = Some e ->
     fst r = Ok (false, "Error downloading image: " +:+ exn_msg e)) /\
  exists f,
    int_truediv len n = Ok f /\
    session_state (snd r) !! "progress" = Some (PFloat f) /\
    (len = n -> f = float_one) /\
    (len <= n -> py_le (PFloat f) (PFloat float_one)) /\
    (n <= len -> py_le (PFloat float_one) (PFloat f)).
Proof.
  intros Hg Hst Hp Hfn Ho Hc Hn Hbody len Hfit r. subst r.
  set (chunks := fst (iter_content resp 1024)).
  assert (Hcat : concat chunks = content resp) by (apply blocks_concat; lia).
  assert (Hq : forall k c, chunks !! k = Some c ->
            exists f, int_truediv
              (0 + Z.of_nat (length (concat (take (S k) chunks)))) n = Ok f).
  { intros k c _. apply int_truediv_part; [lia | lia |].
    pose proof (concat_take_length chunks (S k)) as L. rewrite Hcat in L.
    unfold fits_float in *. subst len. lia. }
  assert (Hne : chunks <> []).
  { intros E. rewrite E in Hcat. cbn in Hcat. congruence. }
  rewrite (download_image_run w url output_path s resp p filename n
             Hg Hst Hp Hfn Hc Ho).
  destruct (Z.eqb_spec n 0); [lia |].
  destruct (write_blocks_final (path_join output_path filename) n chunks 0
              (opened (path_join output_path filename) s) Hne Hq)
    as (f & Hf & Hprog).
  destruct (write_blocks_ok (path_join output_path filename) n chunks 0
              (opened (path_join output_path filename) s) [] Hq)
    as [R _]; [cbn; apply lookup_insert_eq |].
  rewrite Hcat, Z.add_0_l in Hf. fold len in Hf.
  fold chunks.
  destruct (write_blocks _ _ _ _ _) as [[[] | e] s2]; cbn [fst snd] in *;
    [| discriminate].
  assert (V : exists f,
            int_truediv len n = Ok f /\
            session_state s2 !! "progress" = Some (PFloat f) /\
            (len = n -> f = float_one) /\
            (len <= n -> py_le (PFloat f) (PFloat float_one)) /\
            (n <= len -> py_le (PFloat float_one) (PFloat f))).
  { exists f. split; [exact Hf |]. split; [exact Hprog |].
    pose proof (int_truediv_self n ltac:(lia)) as H1. repeat split.
    - intros E. rewrite E in Hf. congruence.
    - intros L. apply (py_le_rounded len n n f float_one); try lia; assumption.
    - intros L. apply (py_le_rounded n len n float_one f); try lia; assumption. }
  destruct (stream_error resp) as [e |]; cbn [fst snd].
  - split; [discriminate |]. split; [now intros e' [= <-] | exact V].
  - split; [reflexivity |]. split; [discriminate | exact V].
Qed.

End SaveFacts.
End SaveFacts.

(** ** Video ids from a query *)

Module QueryFacts.
Import Urllib CyberSapiens Spec StrFacts.
Section QueryFacts.
Context `{Platform}.

(** *** The dictionary of a query *)

Lemma add_field_lookup (m : gmap string (list string)) (nv : string * string)
    (k : string) :
  default [] (add_field m nv !! k)
  = (default [] (m !! k) ++ values_of k [nv])%list.
Proof.
  unfold add_field, values_of. cbn [omap list_omap].
  destruct (String.eqb_spec (fst nv) k) as [-> | NE].
  - destruct (m !! k) as [vs |] eqn:E; rewrite lookup_insert_eq; reflexivity.
  - destruct (m !! fst nv); rewrite lookup_insert_ne by exact NE;
      cbn; now rewrite List.app_nil_r.
Qed.

Lemma add_field_nonempty (m : gmap string (list string))
    (nv : string * string) :
  (forall k vs, m !! k = Some vs -> vs <> []) ->
  forall k vs, add_field m nv !! k = Some vs -> vs <> [].
Proof.
  intros Hm k vs. unfold add_field.
  destruct (m !! fst nv) as [ws |] eqn:E;
    (destruct (decide (fst nv = k)) as [<- | NE];
     [rewrite lookup_insert_eq; intros [= <-] |
      rewrite lookup_insert_ne by exact NE; apply Hm]).
  - destruct ws; discriminate.
  - discriminate.
Qed.

Lemma fold_fields (fields : list (string * string))
    (m : gmap string (list string)) :
  (forall k vs, m !! k = Some vs -> vs <> []) ->
  (forall k vs, List.fold_left add_field fields m !! k = Some vs -> vs <> []) /\
  (forall k, default [] (List.fold_left add_field fields m !! k)
             = (default [] (m !! k) ++ values_of k fields)%list).
Proof.
  revert m. induction fields as [| nv fields IH]; intros m Hm.
  - split; [exact Hm |]. intros k. cbn. now rewrite List.app_nil_r.
  - cbn [List.fold_left].
    destruct (IH (add_field m nv) (add_field_nonempty m nv Hm)) as [N L].
    split; [exact N |]. intros k. rewrite L, add_field_lookup.
    rewrite <- List.app_assoc. f_equal. unfold values_of.
    cbn [omap list_omap]. destruct (String.eqb (fst nv) k); reflexivity.
Qed.

(** The values of a name in the dictionary of [parse_qs] are its values
    in the list of [parse_qsl]; a name without values is absent. *)
Lemma parse_qs_lookup (qs k : string) :
  parse_qs qs !! k =
    match values_of k (parse_qsl qs) with
    | [] => None
    | vs => Some vs
    end.
Proof.
  unfold parse_qs. change (List.fold_left _ (parse_qsl qs) ∅)
    with (List.fold_left add_field (parse_qsl qs) ∅).
  destruct (fold_fields (parse_qsl qs) ∅) as [N L];
    [intros k' vs; rewrite lookup_empty; discriminate |].
  specialize (L k). rewrite lookup_empty in L. cbn in L.
  destruct (List.fold_left add_field (parse_qsl qs) ∅ !! k) as [vs |] eqn:E.
  - cbn in L. rewrite <- L. pose proof (N k vs E). destruct vs; congruence.
  - cbn in L. now rewrite <- L.
Qed.

(** X14: which exceptions [get_youtube_id] raises. It raises only for a
    string that contains [youtube.com] and not [youtu.be], and then only
    what [urlparse] raises on it: the index [0] into the values of [v]
    never fails. A string that contains neither is answered with [None]
    without being parsed. *)
Theorem X14_get_youtube_id_errors (url : string) :
  (forall e, get_youtube_id url = Err e <->
     Str.contains "youtu.be" url = false /\
     Str.contains "youtube.com" url = true /\ urlparse url = Err e) /\
  (Str.contains "youtu.be" url = false ->
   Str.contains "youtube.com" url = false -> get_youtube_id url = Ok None).
Proof.
  unfold get_youtube_id.
  destruct (Str.contains "youtu.be" url).
  { split; [| discriminate]. intros e. split; [discriminate |].
    intros (D & _); discriminate. }
  destruct (Str.contains "youtube.com" url).
  2: { split; [| reflexivity]. intros e. split; [discriminate |].
       intros (_ & D & _); discriminate. }
  split; [| discriminate]. intros e.
  destruct (urlparse url) as [parsed | e'].
  - cbn [Py.bind]. rewrite parse_qs_lookup.
    destruct (values_of "v" (parse_qsl (query parsed))); cbn;
      (split; [discriminate | intros (_ & _ & D); discriminate]).
  - cbn [Py.bind]. split.
    + intros [= ->]. repeat split.
    + intros (_ & _ & [= ->]). reflexivity.
Qed.

(** X15: which value of [v] is the id. For a string that contains
    [youtube.com] and not [youtu.be], [get_youtube_id] returns the first
    value that the fields of the query give to [v], and [None] when they
    give none; the fields are those of [parse_qsl], so a [v] without a
    value is passed over. *)
Theorem X15_get_youtube_id_first_value (url : string) (parsed : ParseResult) :
  Str.contains "youtu.be" url = false ->
  Str.contains "youtube.com" url = true ->
  urlparse url = Ok parsed ->
  get_youtube_id url = Ok (head (values_of "v" (parse_qsl (query parsed)))).
Proof.
  intros H1 H2 Hp. unfold get_youtube_id. rewrite H1, H2, Hp.
  cbn [Py.bind]. rewrite parse_qs_lookup.
  destruct (values_of "v" (parse_qsl (query parsed))); reflexivity.
Qed.

End QueryFacts.
End QueryFacts.

(** ** Classification and the end of a URL *)

Module TailFacts.
Import Urllib CyberSapiens Spec StrFacts.
Section TailFacts.
Context `{Platform}.
Import IdFacts ClassifyFacts.

(** *** What follows the path of a URL *)

Lemma partition_app_none (c : ascii) (a b : string) :
  Str.has_char c a = false ->
  Str.partition c (a +:+ b) =
    (a +:+ (Str.partition c b).1.1, (Str.partition c b).1.2,
     (Str.partition c b).2).
Proof.
  induction a as [| x a IH]; push_app.
  - intros _. now destruct (Str.partition c b) as [[] ?].
  - cbn [Str.has_char Str.partition].
    intros [Hx Ha]%orb_false_iff. rewrite Hx, (IH Ha). reflexivity.
Qed.

Lemma remove_char_cons (c a : ascii) (t : string) :
  a <> c -> Str.remove_char c (String a t) = String a (Str.remove_char c t).
Proof.
  intros Ha. cbn. now rewrite (proj2 (eqb_ascii_false a c) Ha).
Qed.

(** The URL [https://nl/p] followed by [tail] is split at the slash
    after the network location; of [tail] remains what [urlsplit] does
    not delete. *)
Lemma split_https (nl p tail : string) :
  plain_netloc nl -> avoids deleted_chars p ->
  urlsplit ("https://" +:+ nl +:+ "/" +:+ p +:+ tail) =
    let tail' := Str.remove_char "010" (Str.remove_char "013"
                   (Str.remove_char "009" tail)) in
    let '(u, _, frag) := Str.partition "#" (String "/" (p +:+ tail')) in
    let '(u, _, qry) := Str.partition "?" u in
    Ok ("https", nl, u, qry, frag).
Proof.
  intros [Hnl Has] Hp.
  assert (N : forall c, Str.has_char c ("/?#[]" +:+ deleted_chars) = true ->
                        Str.has_char c nl = false)
    by (intros c; now apply avoids_has_char).
  assert (P : forall c, Str.has_char c deleted_chars = true ->
                        Str.has_char c p = false)
    by (intros c; now apply avoids_has_char).
  unfold urlsplit. cbv zeta.
  rewrite sapp_cons, lstrip_head by reflexivity. rewrite <- sapp_cons.
  rewrite !remove_char_app.
  rewrite !(remove_char_none _ nl), !(remove_char_none _ p)
    by (apply N || apply P; reflexivity).
  change (Str.remove_char "010" (Str.remove_char "013"
            (Str.remove_char "009" "https://")))
    with "https://".
  change (Str.remove_char "010" (Str.remove_char "013"
            (Str.remove_char "009" "/")))
    with "/".
  set (tail' := Str.remove_char "010" _).
  change ("https://" +:+ nl +:+ "/" +:+ p +:+ tail')
    with ("https" +:+ String ":" (String "/" (String "/"
            (nl +:+ String "/" (p +:+ tail'))))).
  rewrite split_scheme_https.
  rewrite split_netloc_plain;
    [| apply (forallb_impl (fun a => negb (Str.has_char a
                                     ("/?#[]" +:+ deleted_chars))));
       [| exact Hnl]
     | reflexivity | apply N; reflexivity | apply N; reflexivity].
  - cbv beta iota. cbn [Py.bind].
    destruct (Str.partition "#" _) as [[u ?] frag].
    destruct (Str.partition "?" u) as [[u' ?] qry].
    now rewrite checknetloc_ascii.
  - intros a Ha. apply negb_true_iff. apply negb_true_iff in Ha.
    destruct (Str.has_char a "/?#") eqn:E; [| reflexivity].
    rewrite <- Ha. clear Ha.
    destruct a as [[] [] [] [] [] [] [] []]; try discriminate; reflexivity.
Qed.

(** Whatever follows the path from a [?] or a [#] on, the path that
    [urlsplit] finds is the same. *)
Lemma path_https (nl p tail : string) :
  plain_netloc nl -> avoids ("?#" +:+ deleted_chars) p ->
  tail = "" \/ (exists c t, tail = String c t /\ Str.has_char c "?#" = true) ->
  exists qry frag,
    urlsplit ("https://" +:+ nl +:+ "/" +:+ p +:+ tail)
    = Ok ("https", nl, String "/" p, qry, frag).
Proof.
  intros Hnl Hp Ht.
  assert (P : forall c, Str.has_char c ("?#" +:+ deleted_chars) = true ->
                        Str.has_char c p = false)
    by (intros c; now apply avoids_has_char).
  rewrite split_https; [| exact Hnl |].
  2: { revert Hp. unfold avoids. apply forallb_impl. intros a Ha.
       apply negb_true_iff. apply negb_true_iff in Ha.
       destruct (Str.has_char a deleted_chars) eqn:E; [| reflexivity].
       rewrite <- Ha. clear Ha.
       destruct a as [[] [] [] [] [] [] [] []]; try discriminate; reflexivity. }
  cbv zeta.
  destruct Ht as [-> | (c & t & -> & Hc)].
  - cbn [Str.remove_char]. rewrite sapp_empty_r.
    rewrite (partition_none "#") by (cbn; apply P; reflexivity).
    rewrite (partition_none "?") by (cbn; apply P; reflexivity).
    eauto.
  - assert (Hq : c = "?"%char \/ c = "#"%char).
    { destruct c as [[] [] [] [] [] [] [] []]; try discriminate;
        first [now left | now right]. }
    destruct Hq as [-> | ->];
      rewrite !remove_char_cons by (intros [=]);
      set (t' := Str.remove_char "010" _).
    + change (String "/" (p +:+ String "?" t'))
        with (String "/" p +:+ String "?" t').
      replace (String "/" p +:+ String "?" t')
        with ((String "/" p +:+ "?") +:+ t')
        by (now rewrite sapp_assoc).
      rewrite (partition_app_none "#")
        by (rewrite has_char_app; cbn; rewrite P; reflexivity).
      cbv beta iota. rewrite sapp_assoc.
      change ("?" +:+ (Str.partition "#" t').1.1)
        with (String "?" (Str.partition "#" t').1.1).
      rewrite (partition_app "?") by (cbn; apply P; reflexivity).
      eauto.
    + change (String "/" (p +:+ String "#" t'))
        with (String "/" p +:+ String "#" t').
      rewrite (partition_app "#") by (cbn; apply P; reflexivity).
      rewrite (partition_none "?") by (cbn; apply P; reflexivity).
      eauto.
Qed.

(** X20: what follows the path plays no part in the classification. For
    a URL [https://nl/p] with a plain network location, whatever is
    appended from a [?] or a [#] on (a query, a fragment) leaves
    [is_video_url], [is_image_url] and the classification as they are
    without it; the classification never raises on such a URL. *)
Theorem X20_classification_ignores_query_and_fragment
    (nl p t : string) (c : ascii) :
  plain_netloc nl -> avoids ("?#" +:+ deleted_chars) p ->
  Str.has_char c "?#" = true ->
  let url := "https://" +:+ nl +:+ "/" +:+ p in
  (exists k, classify url = Ok k) /\
  is_video_url (url +:+ String c t) = is_video_url url /\
  is_image_url (url +:+ String c t) = is_image_url url /\
  classify (url +:+ String c t) = classify url.
Proof.
  intros Hnl Hp Hc url.
  destruct (path_https nl p "" Hnl Hp (or_introl eq_refl)) as (q0 & f0 & E0).
  rewrite sapp_empty_r in E0.
  destruct (path_https nl p (String c t) Hnl Hp) as (q1 & f1 & E1);
    [right; eauto |].
  assert (A : url +:+ String c t
              = "https://" +:+ nl +:+ "/" +:+ p +:+ String c t)
    by (unfold url; now rewrite !sapp_assoc).
  rewrite A. fold url in E0.
  assert (V : is_video_url ("https://" +:+ nl +:+ "/" +:+ p +:+ String c t)
              = is_video_url url).
  { unfold is_video_url, urlparse. rewrite E0, E1. cbn [Py.bind].
    destruct (if _ && _ then _ else _) as [u prm]. reflexivity. }
  assert (I : is_image_url ("https://" +:+ nl +:+ "/" +:+ p +:+ String c t)
              = is_image_url url).
  { unfold is_image_url, urlparse. rewrite E0, E1. cbn [Py.bind].
    destruct (if _ && _ then _ else _) as [u prm]. reflexivity. }
  split; [| split; [exact V | split; [exact I |]]].
  - unfold classify, is_video_url, is_image_url, urlparse. rewrite E0.
    cbn [Py.bind]. destruct (if _ && _ then _ else _) as [u prm].
    cbn [Py.bind netloc path].
    destruct (existsb _ video_domains); [eauto |].
    destruct (existsb _ image_extensions); eauto.
  - unfold classify. now rewrite V, I.
Qed.

End TailFacts.
End TailFacts.

(** ** The download folders *)

Module FolderFacts.
Import Urllib CyberSapiens Spec StrFacts.
Section FolderFacts.
Context `{Platform}.
Local Open Scope list_scope.

(** *** Path resolution *)

Lemma walk_none (t : fs) (pre rest : Path) :
  walk t pre rest = None <->
  forall q r, rest = (q ++ r)%list -> r <> [] ->
    node_at t (pre ++ q) = Some Dir.
Proof.
  revert pre. induction rest as [| c rest IH]; intros pre; cbn [walk].
  - split; [| reflexivity]. intros _ q r E Hr.
    destruct q; destruct r; try discriminate. contradiction.
  - destruct (node_at t pre) as [[] |] eqn:L.
    + rewrite IH. split.
      * intros Hw q r E Hr. destruct q as [| c' q].
        -- now rewrite List.app_nil_r.
        -- injection E as <- E.
           replace (pre ++ c :: q)%list with ((pre ++ [c]) ++ q)%list
             by now rewrite <- List.app_assoc.
           now apply (Hw q r).
      * intros Hw q r E Hr.
        replace ((pre ++ [c]) ++ q)%list with (pre ++ c :: q)%list
          by now rewrite <- List.app_assoc.
        apply (Hw (c :: q) r); [now rewrite E | exact Hr].
    + split; [discriminate |]. intros Hw.
      specialize (Hw [] (c :: rest) eq_refl ltac:(discriminate)).
      rewrite List.app_nil_r in Hw. congruence.
    + split; [discriminate |]. intros Hw.
      specialize (Hw [] (c :: rest) eq_refl ltac:(discriminate)).
      rewrite List.app_nil_r in Hw. congruence.
Qed.

Lemma walk_error (t : fs) (pre rest : Path) (e : errno) :
  walk t pre rest = Some e ->
  rest <> [] /\
  (e = ENOENT \/
   e = ENOTDIR /\
   exists q r, rest = (q ++ r)%list /\ node_at t (pre ++ q) = Some File).
Proof.
  revert pre. induction rest as [| c rest IH]; intros pre; cbn [walk];
    [discriminate |].
  intros Hw. split; [discriminate |].
  destruct (node_at t pre) as [[] |] eqn:L.
  - destruct (IH _ Hw) as [_ [-> | (-> & q & r & -> & Hq)]]; [now left |].
    right. split; [reflexivity |]. exists (c :: q), r. split; [reflexivity |].
    now rewrite <- List.app_assoc in Hq.
  - injection Hw as <-. right. split; [reflexivity |].
    exists [], (c :: rest). split; [reflexivity |]. now rewrite List.app_nil_r.
  - injection Hw as <-. now left.
Qed.

Lemma walk_free (t : fs) (p : Path) :
  free_way t p -> walk t [] p = None \/ walk t [] p = Some ENOENT.
Proof.
  intros Hf. destruct (walk t [] p) as [e |] eqn:W; [| now left].
  destruct (walk_error t [] p e W) as [_ [-> | (_ & q & r & -> & Hq)]];
    [now right |].
  exfalso. apply (Hf q); [now exists r | exact Hq].
Qed.

Lemma is_dir_spec (t : fs) (p : Path) :
  is_dir t p = true <->
  forall q, q `prefix_of` p -> node_at t q = Some Dir.
Proof.
  unfold is_dir. split.
  - destruct (walk t [] p) eqn:W; [discriminate |].
    destruct (node_at t p) as [[] |] eqn:L; try discriminate.
    intros _ q [r ->]. destruct r as [| c r].
    + now rewrite List.app_nil_r in *.
    + apply (proj1 (walk_none t [] _) W q (c :: r)); [reflexivity | discriminate].
  - intros Hd.
    assert (W : walk t [] p = None).
    { apply walk_none. intros q r -> _. apply Hd. now exists r. }
    rewrite W, (Hd p); reflexivity.
Qed.

(** *** Making a directory and its parents *)

Lemma lookup_cons (t : fs) (p : Path) (c : string) :
  node_at t (p ++ [c]) = t !! (p ++ [c]).
Proof. unfold node_at. destruct (p ++ [c]) eqn:E; [| reflexivity].
  now destruct p. Qed.

Lemma prefix_snoc (q p : Path) (c : string) :
  q `prefix_of` (p ++ [c]) <-> q `prefix_of` p \/ q = p ++ [c].
Proof.
  split.
  - intros [r E]. destruct r as [| x r] using rev_ind.
    + right. now rewrite List.app_nil_r in E.
    + left. rewrite List.app_assoc in E.
      apply app_inj_tail in E as [-> _]. now exists r.
  - intros [[r ->] | ->]; [| reflexivity].
    exists (r ++ [c]). now rewrite List.app_assoc.
Qed.

Lemma not_prefix_longer (p : Path) (c : string) : ~ (p ++ [c]) `prefix_of` p.
Proof.
  intros [r E]. apply (f_equal length) in E.
  rewrite !length_app in E. cbn in E. lia.
Qed.

Lemma made_refl (t : fs) (targets : list Path) : only_made_dirs t t targets.
Proof. split; [reflexivity |]. intros q n Hq Hn. congruence. Qed.

Lemma made_insert (t : fs) (p : Path) :
  t !! p = None -> only_made_dirs t (<[p := Dir]> t) [p].
Proof.
  intros Hp. split; [now apply insert_subseteq |].
  intros q n Hq Hn. destruct (decide (p = q)) as [E | NE].
  - subst q. rewrite lookup_insert_eq in Hq. injection Hq as <-.
    split; [reflexivity |]. exists p. split; [apply list_elem_of_here | reflexivity].
  - rewrite lookup_insert_ne in Hq by exact NE. congruence.
Qed.

Lemma made_trans (t t1 t2 : fs) (a b c : list Path) :
  only_made_dirs t t1 a -> only_made_dirs t1 t2 b ->
  (forall p, p ∈ a \/ p ∈ b -> exists p', p' ∈ c /\ p `prefix_of` p') ->
  only_made_dirs t t2 c.
Proof.
  intros [S1 M1] [S2 M2] Hc. split; [now transitivity t1 |].
  intros q n Hq Hn.
  assert (W : forall p, (p ∈ a \/ p ∈ b) -> q `prefix_of` p ->
               exists p', p' ∈ c /\ q `prefix_of` p').
  { intros p Hp Hqp. destruct (Hc p Hp) as (p' & Hp' & Hpp').
    exists p'. split; [exact Hp' | now transitivity p]. }
  destruct (t1 !! q) as [n' |] eqn:E.
  - pose proof (lookup_weaken _ _ _ _ E S2) as E2.
    assert (n' = n) by congruence. subst n'.
    destruct (M1 q n E Hn) as (-> & p & Hp & Hqp).
    split; [reflexivity |]. apply (W p); [now left | exact Hqp].
  - destruct (M2 q n Hq E) as (-> & p & Hp & Hqp).
    split; [reflexivity |]. apply (W p); [now right | exact Hqp].
Qed.

Lemma is_dir_insert (t : fs) (p : Path) (c : string) :
  is_dir t p = true -> is_dir (<[p ++ [c] := Dir]> t) (p ++ [c]) = true.
Proof.
  rewrite !is_dir_spec. intros Hd q [Hq | ->]%prefix_snoc.
  - destruct q as [| x q]; [reflexivity |]. cbn [node_at].
    rewrite lookup_insert_ne.
    + exact (Hd (x :: q) Hq).
    + intros E. rewrite <- E in Hq. now apply not_prefix_longer in Hq.
  - rewrite lookup_cons. apply lookup_insert_eq.
Qed.

Lemma is_dir_parent (t : fs) (p : Path) (c : string) :
  is_dir t (p ++ [c]) = true -> is_dir t p = true.
Proof.
  rewrite !is_dir_spec. intros Hd q Hq. apply Hd, prefix_snoc. now left.
Qed.

Lemma is_dir_walk (t : fs) (p : Path) (c : string) :
  is_dir t p = true -> walk t [] (p ++ [c]) = None.
Proof.
  rewrite is_dir_spec. intros Hd. apply walk_none. intros q r E Hr.
  apply Hd. cbn [app]. destruct r as [| x r] using rev_ind; [contradiction |].
  rewrite List.app_assoc in E. apply app_inj_tail in E as [-> _]. now exists r.
Qed.

(** Making the last component once its parent is a directory. *)
Lemma mkdir_last (t : fs) (p : Path) (c : string) :
  is_dir t p = true -> t !! (p ++ [c]) <> Some File ->
  exists t',
    os_mkdir (p ++ [c]) t = (if is_dir t (p ++ [c]) then inl EEXIST else inr t')
    /\ (if is_dir t (p ++ [c]) then t' = t else t' = <[p ++ [c] := Dir]> t)
    /\ only_made_dirs t t' [p ++ [c]] /\ is_dir t' (p ++ [c]) = true.
Proof.
  intros Hd Hf. unfold os_mkdir. rewrite (is_dir_walk t p c Hd), lookup_cons.
  unfold is_dir at 1 2. rewrite (is_dir_walk t p c Hd), lookup_cons.
  destruct (t !! (p ++ [c])) as [[] |] eqn:E; [| contradiction |].
  - exists t. split; [reflexivity |]. split; [reflexivity |].
    split; [apply made_refl |].
    unfold is_dir. now rewrite (is_dir_walk t p c Hd), lookup_cons, E.
  - exists (<[p ++ [c] := Dir]> t). split; [reflexivity |].
    split; [reflexivity |]. split; [apply (made_insert t _ E) |].
    now apply is_dir_insert.
Qed.

Lemma mkdir_plain_ok (t : fs) (p : Path) (c : string) :
  is_dir t p = true -> t !! (p ++ [c]) <> Some File ->
  exists t',
    mkdir_plain (p ++ [c]) t = (Ok tt, t') /\
    only_made_dirs t t' [p ++ [c]] /\ is_dir t' (p ++ [c]) = true.
Proof.
  intros Hd Hf. destruct (mkdir_last t p c Hd Hf) as (t' & Ho & Ht & Hm & Hi).
  unfold mkdir_plain. rewrite Ho.
  destruct (is_dir t (p ++ [c])); [subst t' |]; eauto.
Qed.

Lemma free_way_parent (t : fs) (p : Path) (c : string) :
  free_way t (p ++ [c]) -> free_way t p.
Proof. intros Hf q Hq. apply Hf, prefix_snoc. now left. Qed.

Lemma free_way_made (t t' : fs) (targets : list Path) (p : Path) :
  only_made_dirs t t' targets -> free_way t p -> free_way t' p.
Proof.
  intros [Hs Hm] Hf q Hq L. destruct q as [| x q]; [discriminate |].
  cbn [node_at] in L. destruct (t !! (x :: q)) as [n |] eqn:E.
  - pose proof (lookup_weaken _ _ _ _ E Hs). apply (Hf (x :: q) Hq).
    cbn [node_at]. congruence.
  - destruct (Hm _ _ L E) as [D _]. discriminate.
Qed.

Lemma is_dir_weaken (t t' : fs) (p : Path) :
  t ⊆ t' -> is_dir t p = true -> is_dir t' p = true.
Proof.
  rewrite !is_dir_spec. intros Hs Hd q Hq. specialize (Hd q Hq).
  destruct q as [| x q]; [reflexivity |]. cbn [node_at] in *.
  exact (lookup_weaken _ _ _ _ Hd Hs).
Qed.

Lemma made_prefix (t t' : fs) (p p' : Path) :
  only_made_dirs t t' [p] -> p `prefix_of` p' -> only_made_dirs t t' [p'].
Proof.
  intros [Hs Hm] Hp. split; [exact Hs |]. intros q n Hq Hn.
  destruct (Hm q n Hq Hn) as (-> & p0 & ->%list_elem_of_singleton & Hqp).
  split; [reflexivity |]. exists p'. split; [apply list_elem_of_here |].
  now transitivity p.
Qed.

(** Making a directory and its parents succeeds when no regular file
    stands on the way. *)
Lemma mkdir_parents_ok (rp : Path) (t : fs) :
  free_way t (rev rp) ->
  exists t',
    mkdir_parents rp t = (Ok tt, t') /\
    only_made_dirs t t' [rev rp] /\ is_dir t' (rev rp) = true.
Proof.
  revert t. induction rp as [| c rp IH]; intros t Hf.
  - exists t. split; [reflexivity |]. split; [apply made_refl | reflexivity].
  - cbn [rev] in *. set (p := rev rp) in *.
    assert (Hfile : t !! (p ++ [c]) <> Some File).
    { rewrite <- lookup_cons. apply Hf. reflexivity. }
    cbn [mkdir_parents rev]. fold p.
    destruct (walk_free t (p ++ [c]) Hf) as [W | W].
    + assert (Hd : is_dir t p = true).
      { apply is_dir_spec. intros q [r Hq].
        apply (proj1 (walk_none t [] (p ++ [c])) W q (r ++ [c])).
        - rewrite Hq. now rewrite <- List.app_assoc.
        - now destruct r. }
      destruct (mkdir_last t p c Hd Hfile) as (t' & Ho & Ht & Hm & Hi).
      rewrite Ho. destruct (is_dir t (p ++ [c])) eqn:D; [subst t' |]; eauto.
    + unfold os_mkdir at 1. rewrite W.
      destruct (IH t (free_way_parent t p c Hf)) as (t1 & R1 & M1 & D1).
      rewrite R1.
      assert (Hfile1 : t1 !! (p ++ [c]) <> Some File).
      { rewrite <- lookup_cons.
        apply (free_way_made t t1 _ (p ++ [c]) M1 Hf). reflexivity. }
      destruct (mkdir_plain_ok t1 p c D1 Hfile1) as (t2 & R2 & M2 & D2).
      exists t2. split; [exact R2 |]. split; [| exact D2].
      apply (made_trans t t1 t2 [p] [p ++ [c]] [p ++ [c]] M1 M2).
      intros q [->%list_elem_of_singleton | ->%list_elem_of_singleton];
        exists (p ++ [c]); (split; [apply list_elem_of_here |]);
        [now exists [c] | reflexivity].
Qed.

Lemma os_mkdir_made (t t' : fs) (p : Path) :
  os_mkdir p t = inr t' -> only_made_dirs t t' [p].
Proof.
  unfold os_mkdir. destruct (walk t [] p); [discriminate |].
  destruct p as [| x p]; [discriminate |]. cbn [node_at].
  destruct (t !! (x :: p)) eqn:E; [discriminate |].
  intros [= <-]. now apply made_insert.
Qed.

Lemma mkdir_plain_made (t : fs) (p : Path) :
  only_made_dirs t (snd (mkdir_plain p t)) [p].
Proof.
  unfold mkdir_plain. destruct (os_mkdir p t) as [[] | t'] eqn:E; cbn [snd];
    try apply made_refl. now apply os_mkdir_made.
Qed.

(** Whatever its outcome, making a directory and its parents removes and
    changes nothing, and adds only directories on the way. *)
Lemma mkdir_parents_made (rp : Path) (t : fs) :
  only_made_dirs t (snd (mkdir_parents rp t)) [rev rp].
Proof.
  revert t. induction rp as [| c rp IH]; intros t.
  - cbn. apply made_refl.
  - cbn [mkdir_parents rev]. set (p := rev rp) in *.
    destruct (os_mkdir (p ++ [c]) t) as [[] | t'] eqn:E; cbn [snd];
      try apply made_refl; [| now apply os_mkdir_made].
    specialize (IH t). destruct (mkdir_parents rp t) as [[[] | e] t1];
      cbn [snd] in *.
    + apply (made_trans t t1 _ [p] [p ++ [c]] [p ++ [c]] IH
               (mkdir_plain_made t1 (p ++ [c]))).
      intros q [->%list_elem_of_singleton | ->%list_elem_of_singleton];
        exists (p ++ [c]); (split; [apply list_elem_of_here |]);
        [now exists [c] | reflexivity].
    + apply (made_prefix t t1 p); [exact IH | now exists [c]].
Qed.

Lemma blocked_not_dir (t : fs) (p : Path) : blocked t p -> is_dir t p = false.
Proof.
  intros (q & Hq & L). destruct (is_dir t p) eqn:D; [| reflexivity].
  rewrite is_dir_spec in D. rewrite (D q Hq) in L. discriminate.
Qed.

Lemma blocked_made (t t' : fs) (targets : list Path) (p : Path) :
  only_made_dirs t t' targets -> blocked t p -> blocked t' p.
Proof.
  intros [Hs _] (q & Hq & L). exists q. split; [exact Hq |].
  destruct q as [| x q]; [discriminate |]. cbn [node_at] in *.
  exact (lookup_weaken _ _ _ _ L Hs).
Qed.

Lemma os_mkdir_blocked (t t' : fs) (p : Path) :
  blocked t p -> os_mkdir p t <> inr t'.
Proof.
  intros (q & [r ->] & Lq). unfold os_mkdir.
  destruct (walk t [] (q ++ r)) eqn:W; [discriminate |].
  destruct r as [| x r].
  - rewrite List.app_nil_r. rewrite Lq. discriminate.
  - pose proof (proj1 (walk_none t [] _) W q (x :: r) eq_refl
                  ltac:(discriminate)) as D.
    cbn [app] in D. congruence.
Qed.

Lemma mkdir_plain_blocked (t : fs) (p : Path) :
  blocked t p -> exists e, fst (mkdir_plain p t) = Err e /\ exn_cls e = OSError.
Proof.
  intros Hb. unfold mkdir_plain. rewrite (blocked_not_dir t p Hb).
  destruct (os_mkdir p t) as [[] | t'] eqn:E; cbn [fst];
    try (eexists; split; reflexivity).
  now apply os_mkdir_blocked in E.
Qed.

Lemma mkdir_plain_error (t : fs) (p : Path) (e : exn) :
  fst (mkdir_plain p t) = Err e -> exn_cls e = OSError.
Proof.
  unfold mkdir_plain. destruct (os_mkdir p t) as [[] | t']; cbn [fst];
    try destruct (is_dir t p); try discriminate; now intros [= <-].
Qed.

Lemma mkdir_parents_error (rp : Path) (t : fs) (e : exn) :
  fst (mkdir_parents rp t) = Err e -> exn_cls e = OSError.
Proof.
  revert t. induction rp as [| c rp IH]; intros t.
  - cbn. discriminate.
  - cbn [mkdir_parents rev].
    destruct (os_mkdir (rev rp ++ [c]) t) as [[] | t']; cbn [fst];
      try destruct (is_dir t _); try discriminate; try now intros [= <-].
    specialize (IH t). destruct (mkdir_parents rp t) as [[[] | e1] t1];
      cbn [fst] in *.
    + apply mkdir_plain_error.
    + intros [= <-]. now apply IH.
Qed.

(** Making a directory fails when a regular file stands on the way. *)
Lemma mkdir_parents_blocked (rp : Path) (t : fs) :
  blocked t (rev rp) ->
  exists e, fst (mkdir_parents rp t) = Err e /\ exn_cls e = OSError.
Proof.
  intros Hb.
  assert (E : exists e, fst (mkdir_parents rp t) = Err e).
  { destruct rp as [| c rp].
    - destruct Hb as (q & [r E] & L). destruct q; discriminate.
    - cbn [mkdir_parents rev] in *. set (p := rev rp) in *.
      rewrite (blocked_not_dir t _ Hb).
      destruct (os_mkdir (p ++ [c]) t) as [[] | t'] eqn:E; cbn [fst]; eauto.
      + destruct (mkdir_parents rp t) as [[[] | e] t1] eqn:R; [| eauto].
        destruct (mkdir_plain_blocked t1 (p ++ [c])) as (e & E1 & _); [| eauto].
        apply (blocked_made t t1 [p]); [| exact Hb].
        pose proof (mkdir_parents_made rp t) as M. now rewrite R in M.
      + now apply os_mkdir_blocked in E. }
  destruct E as [e E]. exists e. split; [exact E |].
  now apply (mkdir_parents_error rp t).
Qed.

(** Either the way to [p] is free or a regular file stands on it. *)
Lemma free_or_blocked (t : fs) (p : Path) : free_way t p \/ blocked t p.
Proof.
  induction p as [| c p IH] using rev_ind.
  - left. intros q [r E] L. destruct q; discriminate.
  - destruct IH as [Hf | (q & Hq & L)].
    + destruct (node_at t (p ++ [c])) as [[] |] eqn:E.
      * left. intros q [Hq | ->]%prefix_snoc; [now apply Hf | congruence].
      * right. exists (p ++ [c]). split; [reflexivity | exact E].
      * left. intros q [Hq | ->]%prefix_snoc; [now apply Hf | congruence].
    + right. exists q. split; [| exact L]. apply prefix_snoc. now left.
Qed.

Lemma free_not_blocked (t : fs) (p : Path) : free_way t p -> ~ blocked t p.
Proof. intros Hf (q & Hq & L). exact (Hf q Hq L). Qed.

(** Making a directory that is one changes nothing. *)
Lemma mkdir_existing (t : fs) (p : Path) :
  is_dir t p = true -> mkdir p t = (Ok tt, t).
Proof.
  intros Hd. unfold mkdir.
  assert (E : os_mkdir p t = inl EEXIST).
  { unfold os_mkdir. unfold is_dir in Hd.
    destruct (walk t [] p); [discriminate |].
    destruct (node_at t p); [reflexivity | discriminate]. }
  destruct (rev p) as [| c rp] eqn:R.
  - apply (f_equal (@rev string)) in R. rewrite rev_involutive in R. subst p.
    reflexivity.
  - cbn [mkdir_parents]. rewrite <- R, rev_involutive, E, Hd. reflexivity.
Qed.

(** *** The folders of the program *)

Lemma mkdir_ok (p : Path) (t : fs) :
  free_way t p ->
  exists t',
    mkdir p t = (Ok tt, t') /\ only_made_dirs t t' [p] /\ is_dir t' p = true.
Proof.
  intros Hf. unfold mkdir.
  destruct (mkdir_parents_ok (rev p) t) as (t' & R & M & D);
    rewrite ?rev_involutive in *; eauto.
Qed.

Lemma mkdir_made (p : Path) (t : fs) : only_made_dirs t (snd (mkdir p t)) [p].
Proof.
  unfold mkdir. pose proof (mkdir_parents_made (rev p) t) as M.
  now rewrite rev_involutive in M.
Qed.

Lemma mkdir_blocked (p : Path) (t : fs) :
  blocked t p -> exists e, fst (mkdir p t) = Err e /\ exn_cls e = OSError.
Proof.
  intros Hb. unfold mkdir. apply mkdir_parents_blocked.
  now rewrite rev_involutive.
Qed.

Lemma mkdir_error (p : Path) (t : fs) (e : exn) :
  fst (mkdir p t) = Err e -> exn_cls e = OSError.
Proof. apply mkdir_parents_error. Qed.

Lemma downloads_above (home : Path) :
  downloads_folder home `prefix_of` videos_folder home /\
  downloads_folder home `prefix_of` images_folder home.
Proof. split; eexists; reflexivity. Qed.

Lemma folder_targets (home : Path) (a b : list Path) :
  (forall p, p ∈ a \/ p ∈ b ->
     p = downloads_folder home \/ p = videos_folder home \/
     p = images_folder home) ->
  forall p, p ∈ a \/ p ∈ b ->
    exists p', p' ∈ [videos_folder home; images_folder home] /\
               p `prefix_of` p'.
Proof.
  intros Hab p Hp. destruct (Hab p Hp) as [-> | [-> | ->]].
  - exists (videos_folder home). split; [apply list_elem_of_here |].
    apply downloads_above.
  - exists (videos_folder home). split; [apply list_elem_of_here | reflexivity].
  - exists (images_folder home).
    split; [apply list_elem_of_further, list_elem_of_here | reflexivity].
Qed.

(** What [setup_download_folders] does to the file system, whatever its
    outcome. *)
Lemma setup_made (home : Path) (t : fs) :
  only_made_dirs t (snd (setup_download_folders home t))
    [videos_folder home; images_folder home].
Proof.
  unfold setup_download_folders. cbn [make_folders].
  fold (downloads_folder home). fold (videos_folder home).
  fold (images_folder home).
  pose proof (mkdir_made (downloads_folder home) t) as M1.
  destruct (mkdir (downloads_folder home) t) as [[[] | e1] t1]; cbn [snd] in *.
  2: { apply (made_trans t t1 t1 [downloads_folder home] [] _ M1
                (made_refl t1 [])).
       apply folder_targets.
       intros p [->%list_elem_of_singleton | Hp]; [now left | inversion Hp]. }
  pose proof (mkdir_made (videos_folder home) t1) as M2.
  assert (M12 : only_made_dirs t (snd (mkdir (videos_folder home) t1))
                  [videos_folder home; images_folder home]).
  { apply (made_trans t t1 _ _ _ _ M1 M2). apply folder_targets.
    intros p [->%list_elem_of_singleton | ->%list_elem_of_singleton];
      [now left | now right; left]. }
  destruct (mkdir (videos_folder home) t1) as [[[] | e2] t2]; cbn [snd] in *;
    [| exact M12].
  pose proof (mkdir_made (images_folder home) t2) as M3.
  assert (M123 : only_made_dirs t (snd (mkdir (images_folder home) t2))
                  [videos_folder home; images_folder home]).
  { apply (made_trans t t2 _ _ _ _ M12 M3).
    intros p [Hp | ->%list_elem_of_singleton].
    - exists p. split; [exact Hp | reflexivity].
    - exists (images_folder home).
      split; [apply list_elem_of_further, list_elem_of_here | reflexivity]. }
  destruct (mkdir (images_folder home) t2) as [[[] | e3] t3]; exact M123.
Qed.

Lemma free_way_prefix (t : fs) (p p' : Path) :
  p `prefix_of` p' -> free_way t p' -> free_way t p.
Proof. intros Hp Hf q Hq. apply Hf. now transitivity p. Qed.

Lemma setup_ok (home : Path) (t : fs) :
  free_way t (videos_folder home) -> free_way t (images_folder home) ->
  exists t',
    setup_download_folders home t
      = (Ok (path_str (videos_folder home), path_str (images_folder home)), t')
    /\ is_dir t' (videos_folder home) = true
    /\ is_dir t' (images_folder home) = true.
Proof.
  intros Hv Hi. unfold setup_download_folders. cbn [make_folders].
  fold (downloads_folder home). fold (videos_folder home).
  fold (images_folder home).
  destruct (mkdir_ok (downloads_folder home) t) as (t1 & R1 & M1 & _).
  { apply (free_way_prefix t _ (videos_folder home)); [| exact Hv].
    apply downloads_above. }
  rewrite R1.
  destruct (mkdir_ok (videos_folder home) t1) as (t2 & R2 & M2 & D2).
  { exact (free_way_made t t1 _ _ M1 Hv). }
  rewrite R2.
  destruct (mkdir_ok (images_folder home) t2) as (t3 & R3 & M3 & D3).
  { exact (free_way_made t1 t2 _ _ M2 (free_way_made t t1 _ _ M1 Hi)). }
  rewrite R3. exists t3. split; [reflexivity |]. split; [| exact D3].
  exact (is_dir_weaken t2 t3 _ (proj1 M3) D2).
Qed.

Lemma setup_blocked (home : Path) (t : fs) :
  blocked t (videos_folder home) \/ blocked t (images_folder home) ->
  exists e, fst (setup_download_folders home t) = Err e.
Proof.
  intros Hb. unfold setup_download_folders. cbn [make_folders].
  fold (downloads_folder home). fold (videos_folder home).
  fold (images_folder home).
  pose proof (mkdir_made (downloads_folder home) t) as M1.
  destruct (mkdir (downloads_folder home) t) as [[[] | e1] t1]; cbn [snd] in *;
    [| eauto].
  pose proof (mkdir_made (videos_folder home) t1) as M2.
  destruct (mkdir (videos_folder home) t1) as [[[] | e2] t2] eqn:R2;
    cbn [snd] in *; [| eauto].
  destruct (mkdir (images_folder home) t2) as [[[] | e3] t3] eqn:R3;
    cbn [fst]; [| eauto].
  exfalso. destruct Hb as [Hb | Hb].
  - destruct (mkdir_blocked (videos_folder home) t1) as (e & E & _).
    + exact (blocked_made t t1 _ _ M1 Hb).
    + rewrite R2 in E. discriminate.
  - destruct (mkdir_blocked (images_folder home) t2) as (e & E & _).
    + exact (blocked_made t1 t2 _ _ M2 (blocked_made t t1 _ _ M1 Hb)).
    + rewrite R3 in E. discriminate.
Qed.

Lemma setup_error (home : Path) (t : fs) (e : exn) :
  fst (setup_download_folders home t) = Err e -> exn_cls e = OSError.
Proof.
  unfold setup_download_folders. cbn [make_folders].
  fold (downloads_folder home). fold (videos_folder home).
  fold (images_folder home).
  pose proof (mkdir_error (downloads_folder home) t) as E1.
  destruct (mkdir (downloads_folder home) t) as [[[] | e1] t1]; cbn [fst] in *.
  2: { intros [= <-]. now apply E1. }
  pose proof (mkdir_error (videos_folder home) t1) as E2.
  destruct (mkdir (videos_folder home) t1) as [[[] | e2] t2]; cbn [fst] in *.
  2: { intros [= <-]. now apply E2. }
  pose proof (mkdir_error (images_folder home) t2) as E3.
  destruct (mkdir (images_folder home) t2) as [[[] | e3] t3]; cbn [fst] in *;
    [discriminate |].
  intros [= <-]. now apply E3.
Qed.

Lemma concat_snoc (p : Path) (c : string) :
  p <> [] ->
  String.concat "/" (p ++ [c]) = String.concat "/" p +:+ "/" +:+ c.
Proof.
  induction p as [| x p IH]; [contradiction |]. intros _.
  destruct p as [| y p].
  - reflexivity.
  - change (String.concat "/" ((x :: y :: p) ++ [c]))
      with (x +:+ "/" +:+ String.concat "/" ((y :: p) ++ [c])).
    rewrite IH by discriminate.
    change (String.concat "/" (x :: y :: p))
      with (x +:+ "/" +:+ String.concat "/" (y :: p)).
    now rewrite !sapp_assoc.
Qed.

Lemma path_str_snoc (p : Path) (c : string) :
  p <> [] -> path_str (p ++ [c]) = path_str p +:+ "/" +:+ c.
Proof.
  intros Hp. unfold path_str. rewrite (concat_snoc p c Hp).
  now rewrite !sapp_assoc.
Qed.

Lemma folder_strings (home : Path) :
  path_str (videos_folder home)
    = path_str (downloads_folder home) +:+ "/Videos" /\
  path_str (images_folder home)
    = path_str (downloads_folder home) +:+ "/Images".
Proof.
  unfold videos_folder, images_folder.
  rewrite !path_str_snoc by (unfold downloads_folder; now destruct home).
  split; reflexivity.
Qed.

(** X16: the folders are made when nothing stands in their way. When
    neither of the two folders nor a directory above them is a regular
    file, [setup_download_folders] returns the paths of [Videos] and
    [Images] under [Downloads/StreamlitDownloads] in the home directory;
    afterwards both are directories, with all the directories above them;
    nothing that existed was removed or changed, and only directories on
    the way to the two folders were added. *)
Theorem X16_setup_download_folders_makes_the_folders (home : Path) (t : fs) :
  free_way t (videos_folder home) -> free_way t (images_folder home) ->
  exists t',
    setup_download_folders home t
      = (Ok (path_str (downloads_folder home) +:+ "/Videos",
             path_str (downloads_folder home) +:+ "/Images"), t') /\
    is_dir t' (videos_folder home) = true /\
    is_dir t' (images_folder home) = true /\
    only_made_dirs t t' [videos_folder home; images_folder home].
Proof.
  intros Hv Hi. destruct (setup_ok home t Hv Hi) as (t' & R & Dv & Di).
  destruct (folder_strings home) as [Sv Si]. rewrite Sv, Si in R.
  exists t'. split; [exact R |]. split; [exact Dv |]. split; [exact Di |].
  pose proof (setup_made home t) as M. now rewrite R in M.
Qed.

(** X17: when the folders cannot be made. [setup_download_folders]
    raises exactly when a regular file is in the place of one of the two
    folders or of a directory above them, and what it raises is an
    [OSError]. Whatever the outcome, nothing that existed is removed or
    changed: at most directories on the way to the folders are added. *)
Theorem X17_setup_download_folders_failure (home : Path) (t : fs) :
  ((exists e, fst (setup_download_folders home t) = Err e) <->
   blocked t (videos_folder home) \/ blocked t (images_folder home)) /\
  (forall e, fst (setup_download_folders home t) = Err e ->
     exn_cls e = OSError) /\
  only_made_dirs t (snd (setup_download_folders home t))
    [videos_folder home; images_folder home].
Proof.
  split; [| split; [apply setup_error | apply setup_made]].
  split; [| apply setup_blocked].
  intros [e E].
  destruct (free_or_blocked t (videos_folder home)) as [Hv | Hv]; [| now left].
  destruct (free_or_blocked t (images_folder home)) as [Hi | Hi]; [| now right].
  destruct (setup_ok home t Hv Hi) as (t' & R & _). rewrite R in E.
  discriminate.
Qed.

(** X18: setting the folders up again changes nothing. After a run of
    [setup_download_folders] that returned, a second run returns the same
    two paths and leaves the file system as it is. *)
Theorem X18_setup_download_folders_again
    (home : Path) (t t' : fs) (r : string * string) :
  setup_download_folders home t = (Ok r, t') ->
  setup_download_folders home t' = (Ok r, t').
Proof.
  intros R.
  destruct (free_or_blocked t (videos_folder home)) as [Hv | Hv].
  2: { destruct (setup_blocked home t (or_introl Hv)) as [e E].
       rewrite R in E. discriminate. }
  destruct (free_or_blocked t (images_folder home)) as [Hi | Hi].
  2: { destruct (setup_blocked home t (or_intror Hi)) as [e E].
       rewrite R in E. discriminate. }
  destruct (setup_ok home t Hv Hi) as (t'' & R' & Dv & Di).
  rewrite R in R'. injection R' as -> ->.
  assert (Dd : is_dir t'' (downloads_folder home) = true)
    by (apply (is_dir_parent t'' _ "Videos"); exact Dv).
  unfold setup_download_folders. cbn [make_folders].
  fold (downloads_folder home). fold (videos_folder home).
  fold (images_folder home).
  now rewrite (mkdir_existing t'' _ Dd), (mkdir_existing t'' _ Dv),
    (mkdir_existing t'' _ Di).
Qed.

(** *** Downloads into the folders *)

Lemma endswith_folder (a b : string) :
  b <> "" -> Str.endswith "/" b = false -> Str.endswith "/" (a +:+ b) = false.
Proof.
  intros Hb He. induction a as [| x a IH]; push_app; [exact He |].
  cbn [Str.endswith]. rewrite IH, orb_false_r.
  destruct (String.eqb_spec "/" (String x (a +:+ b))) as [E |]; [| reflexivity].
  injection E as _ E. destruct a; [| discriminate].
  rewrite sapp_nil in E. congruence.
Qed.

(** X19: an image downloaded into the folder that
    [setup_download_folders] returned for images is written directly in
    that folder. Its file is [Images/name] under the downloads folder,
    where [name], the end of the message, is not empty and has no slash;
    the download opens this file first and touches no other. *)
Theorem X19_image_lands_in_the_images_folder
    (home : Path) (t t' : fs) (video image : string)
    (w : world) (url : string) (s : state) (msg : string) :
  setup_download_folders home t = (Ok (video, image), t') ->
  fst (download_image w url image s) = Ok (true, msg) ->
  exists name rest,
    msg = "Successfully downloaded: " +:+ name /\
    name <> "" /\ Str.has_char "/" name = false /\
    image = path_str (downloads_folder home) +:+ "/Images" /\
    new_events s (snd (download_image w url image s))
      = FileOpen (image +:+ "/" +:+ name) :: rest /\
    only_file (image +:+ "/" +:+ name) rest.
Proof.
  intros Hs Hd.
  assert (Hi : image = path_str (downloads_folder home) +:+ "/Images").
  { unfold setup_download_folders in Hs.
    destruct (make_folders _ t) as [[[] | e] t1]; [| discriminate].
    injection Hs as _ <- _. fold (downloads_folder home).
    fold (images_folder home). apply folder_strings. }
  destruct (SaveFacts.download_image_destination w url image s msg Hd)
    as (name & rest & Hmsg & Hne & Hsl & Hev & Hof & Hj).
  assert (J : path_join image name = image +:+ "/" +:+ name).
  { apply Hj; rewrite Hi.
    - unfold path_str. push_app. discriminate.
    - now apply endswith_folder. }
  rewrite J in Hev, Hof. exists name, rest. repeat split; assumption.
Qed.

End FolderFacts.
End FolderFacts.

(** ** The further properties at concrete inputs *)

Module MoreChecks.
Import Urllib CyberSapiens Spec StrFacts.
Import Examples.
Import DurationFacts ViewsFacts BackendFacts SaveFacts QueryFacts FolderFacts
  TailFacts.

Lemma empty_free (p : Path) : free_way ∅ p.
Proof. intros q _. destruct q; discriminate. Qed.

Lemma X1_witness :
  0 < 3725 /\
  exists h m sec,
    3725 = 3600 * h + 60 * m + sec /\ 0 <= h /\ 0 <= m < 60 /\ 0 <= sec < 60 /\
    format_duration (PInt 3725) = Ok (clock h m sec).
Proof.
  split; [lia |].
  apply (proj1 (X1_format_duration_clock 3725 ltac:(lia))). reflexivity.
Defined.

Lemma X2_witness : -1 < 0 /\ format_duration (PInt (-1)) = Ok "59:59".
Proof.
  split; [lia |]. exact (proj1 (X2_format_duration_negative (-1) ltac:(lia))).
Defined.

Lemma X3_witness :
  float_is_zero ninety_and_a_half = false /\
  format_duration (PFloat ninety_and_a_half)
  = raise ValueError "Unknown format code 'd' for object of type 'float'".
Proof.
  split; [reflexivity |].
  apply (proj1 X3_format_duration_not_integral). reflexivity.
Defined.

Lemma X4_witness :
  format_duration (PInt 75) = Ok "01:15" /\ clock_seconds "01:15" = 75.
Proof.
  assert (E : format_duration (PInt 75) = Ok "01:15") by reflexivity.
  split; [exact E |].
  exact (proj1 (X4_format_duration_read_back 75 75 "01:15" ltac:(lia) E)).
Defined.

Lemma X5_witness :
  999950 <= 999999 < 1000000 /\ format_views (Some 999999) = Ok "1000.0K".
Proof.
  split; [lia |].
  apply (proj1 (X5_format_views_thousand_of_a_unit 999999)). lia.
Defined.

Lemma X6_witness :
  let w := backend [] (Ok clip_info) in
  exists m,
    get_video_info w "https://vimeo.com/1" fresh_session
      = (Ok (Some m), fresh_session) /\
    m !! "duration" = Some PNone.
Proof.
  intros w.
  destruct (X6_get_video_info_success w "https://vimeo.com/1" fresh_session
              clip_info eq_refl) as (m & Hm & _ & _ & Hd).
  exists m. split; [exact Hm | exact Hd].
Defined.

Lemma X7_witness :
  progress_hook (downloading_none 10) fresh_session
  = (raise TypeError
       "unsupported operand type(s) for /: 'int' and 'NoneType'",
     fresh_session).
Proof.
  apply (proj1 (X7_progress_hook_unusable_total (downloading_none 10)
                  fresh_session 10 eq_refl eq_refl)).
  reflexivity.
Defined.

Lemma X8_witness :
  let w := backend [downloading 500 1000; downloading_none 600;
                    downloading 1000 1000] (Ok clip_info) in
  let r := download_video (H:=lenient) w "https://youtu.be/x" "Videos"
             fresh_session in
  fst r = Ok (false,
              "Error downloading video: "
              +:+ "unsupported operand type(s) for /: 'int' and 'NoneType'") /\
  progress_values (new_events fresh_session (snd r))
  = [PInt 0; PFloat (Finite false 4503599627370496 (-53))].
Proof.
  intros w r. subst r.
  rewrite (@X8_download_video_hook_failure lenient w "https://youtu.be/x"
             "Videos" fresh_session
             (snd (progress_hook (downloading 500 1000)
                     (snd (set_progress (PInt 0) fresh_session))))
             [downloading 500 1000] [downloading 1000 1000]
             (downloading_none 600)
             (Exn TypeError
                "unsupported operand type(s) for /: 'int' and 'NoneType'")
             eq_refl eq_refl eq_refl).
  split; vm_compute; reflexivity.
Defined.

Lemma X9_witness :
  let w := backend [] (Ok ∅) in
  download_video (H:=lenient) w "https://youtu.be/x" "Videos" fresh_session
  = (Ok (false, "Error downloading video: 'title'"),
     snd (set_progress (PInt 0) fresh_session)).
Proof.
  intros w.
  apply (proj1 (proj2 (@X9_download_video_late_failure lenient w
                         "https://youtu.be/x" "Videos" fresh_session
                         (snd (set_progress (PInt 0) fresh_session)) eq_refl))
           ∅); reflexivity.
Defined.

Lemma X11_witness :
  let resp := {| status_code := 404; reason := "Not Found";
                 final_url := "https://example.org/x.png";
                 headers := ∅; content := []; stream_error := None |} in
  exists e,
    exn_cls e = HTTPError /\
    download_image (H:=lenient) (server resp) "https://example.org/x.png"
      "Images" fresh_session
    = (Ok (false, "Error downloading image: " +:+ exn_msg e), fresh_session).
Proof.
  intros resp.
  destruct (proj1 (proj2 (@X11_download_image_fails_cleanly lenient
                            (server resp) "https://example.org/x.png" "Images"
                            fresh_session)) resp eq_refl)
    as (e & _ & C & F); [cbn; lia |].
  exists e. split; [exact C | exact F].
Defined.

Lemma X12_witness :
  let w := server (reply (<["content-length" := "2500"]> ∅) body_2500) in
  let r := download_image (H:=lenient) w "https://example.org/a/b/photo.png"
             "Images" fresh_session in
  exists name rest,
    fst r = Ok (true, "Successfully downloaded: " +:+ name) /\
    Str.has_char "/" name = false /\
    new_events fresh_session (snd r) = FileOpen ("Images" +:+ "/" +:+ name) :: rest.
Proof.
  intros w r.
  assert (E : fst r = Ok (true, "Successfully downloaded: photo.png"))
    by (vm_compute; reflexivity).
  destruct (@X12_download_image_destination lenient w
              "https://example.org/a/b/photo.png" "Images" fresh_session
              "Successfully downloaded: photo.png" E)
    as (name & rest & Hm & _ & Hs & Hev & _ & Hj).
  exists name, rest. rewrite <- Hm. split; [exact E |]. split; [exact Hs |].
  rewrite <- Hj; [exact Hev | discriminate | reflexivity].
Defined.

Lemma X13_witness :
  let w := server (cut_short (<["content-length" := "3000"]> ∅) body_2048
                     ends_early) in
  let r := download_image (H:=lenient) w "https://example.org/a/b/photo.png"
             "Images" fresh_session in
  fst r = Ok (false, "Error downloading image: " +:+ exn_msg ends_early) /\
  exists f,
    int_truediv 2048 3000 = Ok f /\
    session_state (snd r) !! "progress" = Some (PFloat f) /\
    py_le (PFloat f) (PFloat float_one).
Proof.
  intros w r.
  destruct (@X13_download_image_final_progress lenient w
              "https://example.org/a/b/photo.png" "Images" fresh_session
              (cut_short (<["content-length" := "3000"]> ∅) body_2048
                 ends_early) photo_url
              "photo.png" 3000 eq_refl eq_refl eq_refl eq_refl eq_refl)
    as (_ & R & f & Hf & Hp & _ & Hle & _).
  - vm_compute. reflexivity.
  - lia.
  - discriminate.
  - vm_compute. reflexivity.
  - split; [exact (R ends_early eq_refl) |].
    exists f. split; [exact Hf |]. split; [exact Hp |].
    apply Hle. vm_compute. discriminate.
Defined.

Lemma X14_witness :
  get_youtube_id (H:=lenient) "https://vimeo.com/1" = Ok None.
Proof.
  apply (proj2 (@X14_get_youtube_id_errors lenient "https://vimeo.com/1"));
    reflexivity.
Defined.

Lemma X15_witness :
  get_youtube_id (H:=lenient) "https://www.youtube.com/watch?v=&v=abc&v=def"
  = Ok (Some "abc").
Proof.
  exact (@X15_get_youtube_id_first_value lenient
           "https://www.youtube.com/watch?v=&v=abc&v=def" three_ids
           eq_refl eq_refl eq_refl).
Defined.

Lemma X16_witness :
  exists t',
    setup_download_folders (H:=lenient) home_u ∅
    = (Ok ("/home/u/Downloads/StreamlitDownloads/Videos",
           "/home/u/Downloads/StreamlitDownloads/Images"), t') /\
    is_dir t' ["home"; "u"; "Downloads"; "StreamlitDownloads"; "Images"] = true.
Proof.
  destruct (@X16_setup_download_folders_makes_the_folders lenient home_u ∅
              (empty_free _) (empty_free _)) as (t' & R & _ & Di & _).
  exists t'. split; [exact R | exact Di].
Defined.

Lemma X17_witness :
  exists e,
    fst (setup_download_folders (H:=lenient) home_u downloads_is_a_file)
    = Err e.
Proof.
  apply (proj2 (proj1 (@X17_setup_download_folders_failure lenient home_u
                         downloads_is_a_file))).
  left. exists ["home"; "u"; "Downloads"]. split; [| reflexivity].
  now exists ["StreamlitDownloads"; "Videos"].
Defined.

Lemma X18_witness :
  exists r t',
    setup_download_folders (H:=lenient) home_u ∅ = (Ok r, t') /\
    setup_download_folders (H:=lenient) home_u t' = (Ok r, t').
Proof.
  destruct (@setup_ok lenient home_u ∅ (empty_free _) (empty_free _))
    as (t' & R & _).
  eexists. exists t'. split; [exact R |].
  exact (@X18_setup_download_folders_again lenient home_u ∅ t' _ R).
Defined.

Lemma X19_witness :
  let w := server (reply (<["content-length" := "2500"]> ∅) body_2500) in
  let image := "/home/u/Downloads/StreamlitDownloads/Images" in
  exists name rest,
    Str.has_char "/" name = false /\
    new_events fresh_session
      (snd (download_image (H:=lenient) w "https://example.org/a/b/photo.png"
              image fresh_session))
    = FileOpen (image +:+ "/" +:+ name) :: rest.
Proof.
  intros w image.
  destruct (@setup_ok lenient home_u ∅ (empty_free _) (empty_free _))
    as (t' & R & _).
  destruct (@X19_image_lands_in_the_images_folder lenient home_u ∅ t'
              (path_str (videos_folder home_u)) image
              w "https://example.org/a/b/photo.png" fresh_session
              "Successfully downloaded: photo.png" R)
    as (name & rest & _ & _ & Hs & _ & Hev & _).
  - vm_compute. reflexivity.
  - exists name, rest. split; [exact Hs | exact Hev].
Defined.

Lemma X20_witness :
  classify (H:=lenient) ("https://" +:+ "example.org" +:+ "/" +:+ "a/photo.jpg"
                         +:+ "?size=large")
  = Ok Image.
Proof.
  destruct (@X20_classification_ignores_query_and_fragment lenient
              "example.org" "a/photo.jpg" "size=large" "?")
    as (_ & _ & _ & E).
  - split; reflexivity.
  - reflexivity.
  - reflexivity.
  - rewrite !sapp_assoc in E. exact E.
Defined.

End MoreChecks.
